(** * PyCarver: the orchestration core of [main.py]

    A shallow embedding of the non-GUI functions of PyCarver
    ([mmlsParser], [fsstatParser], [getFilesTree], [CarveThread.run],
    [App.recoverFiles], [App.carveFiles], [App.carvePartitions] and the
    selection callbacks) together with the properties of the
    specification that concern them.

    Python text is modelled by [string]: a sequence of code points below
    256.  Python exceptions are modelled explicitly: a pure function that
    can raise returns an [option]; a method that mutates the registry and
    can raise runs in the monad [M], which keeps the state reached when
    the exception was raised.

    An external command is modelled by the decoded text it prints
    ([tools]): every command starts and its output can be decoded.  What
    is said below about a method returning or raising is said of runs
    in which the commands answer in this sense; a process that cannot be
    started and output that is not UTF-8 are outside the model. *)

From Stdlib Require Import List String Ascii ZArith Lia Bool Arith PeanoNat.
From Stdlib Require Import Permutation.
From Stdlib Require Import DecimalString.
Import ListNotations.

Local Open Scope list_scope.
Local Open Scope string_scope.

(** ** Python built-ins used by the source *)

Module Py.

(** [str.isspace] on one code point below 256. *)
Definition is_space (c : ascii) : bool :=
  let n := nat_of_ascii c in
  (((9 <=? n) && (n <=? 13)) || ((28 <=? n) && (n <=? 32))
   || (n =? 133) || (n =? 160))%nat.

(** [s.lstrip()], [s.rstrip()], [s.strip()]. *)
Fixpoint lstrip (s : string) : string :=
  match s with
  | String c s' => if is_space c then lstrip s' else s
  | EmptyString => EmptyString
  end.

Fixpoint rstrip (s : string) : string :=
  match s with
  | String c s' =>
      match rstrip s' with
      | EmptyString => if is_space c then EmptyString else String c EmptyString
      | r => String c r
      end
  | EmptyString => EmptyString
  end.

Definition strip (s : string) : string := rstrip (lstrip s).

(** Truth value of a string: [if s:]. *)
Definition truthy (s : string) : bool :=
  match s with EmptyString => false | _ => true end.

(** [s.startswith(p)]. *)
Definition startswith (s p : string) : bool := prefix p s.

(** [sub in s]. *)
Fixpoint contains (sub s : string) : bool :=
  prefix sub s ||
  match s with
  | String _ s' => contains sub s'
  | EmptyString => false
  end.

(** [s.find(sub)]: the lowest index where [sub] starts, or -1. *)
Fixpoint find_from (sub s : string) (i : Z) : Z :=
  if prefix sub s then i
  else match s with
       | String _ s' => find_from sub s' (i + 1)
       | EmptyString => (-1)%Z
       end.

Definition find (s sub : string) : Z := find_from sub s 0.

(** Index normalisation of a slice bound for a sequence of length [n]. *)
Definition bound (n i : Z) : Z :=
  Z.max 0 (Z.min n (if (i <? 0)%Z then (i + n)%Z else i)).

(** [s[i:j]] and [s[i:]], [s[:j]]. *)
Definition slice (s : string) (i j : Z) : string :=
  let n := Z.of_nat (String.length s) in
  let a := bound n i in
  let b := bound n j in
  substring (Z.to_nat a) (Z.to_nat (b - a)) s.

Definition slice_from (s : string) (i : Z) : string :=
  slice s i (Z.of_nat (String.length s)).

Definition slice_to (s : string) (j : Z) : string := slice s 0 j.

(** [s.split(sep)] for a non-empty separator: the matches are taken
    left to right and do not overlap; [skip] counts the characters of
    a matched separator that are still to be passed over. *)
Fixpoint split_go (sep : string) (skip : nat) (cur s : string) : list string :=
  match s with
  | EmptyString => [cur]
  | String c s' =>
      match skip with
      | S k => split_go sep k cur s'
      | O =>
          if prefix sep s
          then cur :: split_go sep (String.length sep - 1) EmptyString s'
          else split_go sep 0 (cur ++ String c EmptyString) s'
      end
  end.

Definition split (s sep : string) : list string :=
  split_go sep 0 EmptyString s.

(** [sep.join(l)]. *)
Definition join (sep : string) (l : list string) : string := concat sep l.

(** [s.replace(old, new)] for a non-empty [old]. *)
Fixpoint replace_go (old new : string) (skip : nat) (s : string) : string :=
  match s with
  | EmptyString => EmptyString
  | String c s' =>
      match skip with
      | S k => replace_go old new k s'
      | O =>
          if prefix old s
          then new ++ replace_go old new (String.length old - 1) s'
          else String c (replace_go old new 0 s')
      end
  end.

Definition replace (s old new : string) : string := replace_go old new 0 s.

(** ["%d" % n] for a natural number. *)
Definition str_of_nat (n : nat) : string :=
  NilEmpty.string_of_uint (Nat.to_uint n).

(** [x in l] for a list of strings. *)
Definition mem (x : string) (l : list string) : bool :=
  existsb (String.eqb x) l.

(** [l[i:]] for a list and a non-negative literal [i]. *)
Definition drop {A} (i : nat) (l : list A) : list A := skipn i l.

(** Line boundaries of [str.splitlines] below code point 256. *)
Definition is_linebreak (c : ascii) : bool :=
  let n := nat_of_ascii c in
  (((10 <=? n) && (n <=? 13)) || ((28 <=? n) && (n <=? 30)) || (n =? 133))%nat.

(** [s.splitlines()]: a carriage return followed by a line feed is one
    boundary; a final boundary does not open an empty last line. *)
Fixpoint splitlines_go (cur s : string) : list string :=
  match s with
  | EmptyString =>
      match cur with EmptyString => [] | _ => [cur] end
  | String c s' =>
      if is_linebreak c then
        match s' with
        | String c' s'' =>
            if ((nat_of_ascii c =? 13) && (nat_of_ascii c' =? 10))%nat
            then cur :: splitlines_go EmptyString s''
            else cur :: splitlines_go EmptyString s'
        | EmptyString => [cur]
        end
      else splitlines_go (cur ++ String c EmptyString) s'
  end.

Definition splitlines (s : string) : list string :=
  splitlines_go EmptyString s.

End Py.

(** ** Data model *)

(** One entry of [App.listOfPartitions]: the dict built by [mmlsParser]
    and completed by [App.openDiskImage].  [Path] and [FSType] hold a
    Python value that is a string or [None]; [Recovered] and [MD5Sum]
    are [None] while the key is not yet in the dict. *)
Record Partition := mkPartition {
  Slot : string;
  CarvedFiles : string;
  FSType : option string;
  Path : option string;
  Carved : string;
  Start : string;
  End_ : string;
  Length : string;
  Description : string;
  FileSystem : string;
  Name : string;
  Recovered : option string;
  MD5Sum : option string
}.

Definition set_Carved (v : string) (p : Partition) : Partition :=
  mkPartition (Slot p) (CarvedFiles p) (FSType p) (Path p) v (Start p)
    (End_ p) (Length p) (Description p) (FileSystem p) (Name p)
    (Recovered p) (MD5Sum p).

Definition set_Path (v : option string) (p : Partition) : Partition :=
  mkPartition (Slot p) (CarvedFiles p) (FSType p) v (Carved p) (Start p)
    (End_ p) (Length p) (Description p) (FileSystem p) (Name p)
    (Recovered p) (MD5Sum p).

Definition set_FSType (v : option string) (p : Partition) : Partition :=
  mkPartition (Slot p) (CarvedFiles p) v (Path p) (Carved p) (Start p)
    (End_ p) (Length p) (Description p) (FileSystem p) (Name p)
    (Recovered p) (MD5Sum p).

Definition set_CarvedFiles (v : string) (p : Partition) : Partition :=
  mkPartition (Slot p) v (FSType p) (Path p) (Carved p) (Start p)
    (End_ p) (Length p) (Description p) (FileSystem p) (Name p)
    (Recovered p) (MD5Sum p).

Definition set_Recovered (v : string) (p : Partition) : Partition :=
  mkPartition (Slot p) (CarvedFiles p) (FSType p) (Path p) (Carved p)
    (Start p) (End_ p) (Length p) (Description p) (FileSystem p) (Name p)
    (Some v) (MD5Sum p).

Definition set_MD5Sum (v : string) (p : Partition) : Partition :=
  mkPartition (Slot p) (CarvedFiles p) (FSType p) (Path p) (Carved p)
    (Start p) (End_ p) (Length p) (Description p) (FileSystem p) (Name p)
    (Recovered p) (Some v).

(** The block size returned by [mmlsParser]: the integer [-1] it starts
    from, or the text cut out of the units line. *)
Definition BlockSize : Type := Z + string.

(** ** mmlsParser *)

Module Mmls.

Definition units_marker : string := "Units are in ".

(** The local variables of the loop of [mmlsParser]. *)
Record Vars := mkVars {
  info : list Partition;
  bs : BlockSize;
  slotFound : bool;
  partitionCounter : nat
}.

Definition init : Vars := mkVars [] (inl (-1)%Z) false 0.

(** The assignment to [bs] at the top of the loop body. *)
Definition units_of (line : string) : string :=
  Py.slice line
    (Py.find line units_marker + Z.of_nat (String.length units_marker))
    (Py.find line "-").

Definition scan_units (b : BlockSize) (line : string) : BlockSize :=
  if Py.contains units_marker line then inr (units_of line) else b.

(** [line = line.strip().split(" ")]. *)
Definition tokens (line : string) : list string :=
  Py.split (Py.strip line) " ".

(** The [else] branch of the loop body: one dict [temp] from the
    tokens of a row; [None] is the [IndexError] of a token that is not
    there.  The result carries the counter after the row. *)
Definition row (counter : nat) (line : list string)
  : option (Partition * nat) :=
  match nth_error line 2 with
  | None => None
  | Some slot =>
      if slot =? "Meta" then
        match nth_error line 8, nth_error line 11, nth_error line 14 with
        | Some st, Some en, Some ln =>
            let descr := Py.join " " (Py.drop 17 line) in
            Some (mkPartition slot "No" (Some "") (Some "") "No" st en ln
                    descr "No" (Py.replace descr " " "_") None None,
                  counter)
        | _, _, _ => None
        end
      else
        let descr := Py.join " " (Py.drop 14 line) in
        match nth_error line 5, nth_error line 8, nth_error line 11 with
        | Some st, Some en, Some ln =>
            if Py.contains ":" slot then
              let descr' := descr ++ "_fs" ++ Py.str_of_nat counter in
              Some (mkPartition slot "No" (Some "") (Some "") "No" st en ln
                      descr' "Yes" (Py.replace descr' " " "_") None None,
                    S counter)
            else
              Some (mkPartition slot "No" (Some "") (Some "") "No" st en ln
                      descr "No" (Py.replace descr " " "_") None None,
                    counter)
        | _, _, _ => None
        end
  end.

(** One iteration of [for line in f]. *)
Definition step (v : Vars) (line0 : string) : option Vars :=
  let b := scan_units (bs v) line0 in
  let line := tokens line0 in
  if negb (slotFound v) then
    if Py.mem "Slot" line
    then Some (mkVars (info v) b true (partitionCounter v))
    else Some (mkVars (info v) b (slotFound v) (partitionCounter v))
  else
    match row (partitionCounter v) line with
    | Some (temp, c) => Some (mkVars (info v ++ [temp])%list b (slotFound v) c)
    | None => None
    end.

Fixpoint loop (v : Vars) (f : list string) : option Vars :=
  match f with
  | [] => Some v
  | line :: rest =>
      match step v line with
      | Some v' => loop v' rest
      | None => None
      end
  end.

(** The header row: its tokens contain the field ["Slot"]. *)
Definition is_header (line : string) : bool := Py.mem "Slot" (tokens line).

(** A row that denotes a filesystem: not a ["Meta"] row, and a colon
    in its token of index 2. *)
Definition is_fs_row (line : string) : bool :=
  match nth_error (tokens line) 2 with
  | Some slot => negb (slot =? "Meta") && Py.contains ":" slot
  | None => false
  end.

Definition is_meta_row (line : string) : bool :=
  match nth_error (tokens line) 2 with
  | Some slot => slot =? "Meta"
  | None => false
  end.

(** The number of filesystem rows among the first [i] rows. *)
Definition fs_before (rows : list string) (i : nat) : nat :=
  List.length (filter is_fs_row (firstn i rows)).

(** [mmlsParser(f)]: [None] when a row raises [IndexError]. *)
Definition mmlsParser (f : list string)
  : option (list Partition * BlockSize) :=
  match loop init f with
  | Some v => Some (info v, bs v)
  | None => None
  end.

End Mmls.

(** ** fsstatParser *)

Definition fs_marker : string := "File System Type: ".

(** The loop of [fsstatParser] over the lines of the text; [None] is the
    Python [None] returned when the loop ends without a match. *)
Fixpoint fsstat_lines (lines : list string) : option string :=
  match lines with
  | [] => None
  | line :: rest =>
      let indx := Py.find line fs_marker in
      if (indx >? -1)%Z
      then Some (Py.strip
                   (Py.slice_from line
                      (indx + Z.of_nat (String.length fs_marker))))
      else fsstat_lines rest
  end.

Definition fsstatParser (f : string) : option string :=
  fsstat_lines (Py.splitlines f).

(** ** getFilesTree *)

(** [os.sep] on the platform of the tools the application drives. *)
Definition sep : string := "/".

(** A Python dict with string keys, in insertion order. *)
Module Dict.
Section Ops.
Context {V : Type}.

Fixpoint get (k : string) (d : list (string * V)) : option V :=
  match d with
  | [] => None
  | (k', v) :: r => if k' =? k then Some v else get k r
  end.

(** [d[k] = v]: an existing key keeps its place. *)
Fixpoint set (k : string) (v : V) (d : list (string * V))
  : list (string * V) :=
  match d with
  | [] => [(k, v)]
  | (k', v') :: r =>
      if k' =? k then (k', v) :: r else (k', v') :: set k v r
  end.

(** [del d[k]] for a key that is present. *)
Fixpoint del (k : string) (d : list (string * V)) : list (string * V) :=
  match d with
  | [] => []
  | (k', v') :: r => if k' =? k then r else (k', v') :: del k r
  end.
End Ops.
End Dict.

(** The dict of one directory: the list under the key ['Files'] and one
    entry per directory attached to it.  The attached keys are walked
    paths, which differ from the key ['Files']. *)
#[warnings="-register-all"]
Inductive Node : Type :=
| mkNode (Files : list string) (subs : list (string * Node)).

Definition Tree : Type := list (string * Node).

(** One triple of [os.walk]. *)
Definition WalkEntry : Type := (string * list string * list string)%type.

Module FilesTree.

(** The first loop: [directories] and the flat [dir]. *)
Definition collect_step (acc : list string * Tree) (e : WalkEntry)
  : list string * Tree :=
  let '(dirpath, _, filenames) := e in
  let '(directories, dir) := acc in
  ((directories ++ [dirpath])%list,
   Dict.set dirpath
     (mkNode (map (fun f => dirpath ++ sep ++ f) filenames) []) dir).

Definition collect (walk : list WalkEntry) : list string * Tree :=
  fold_left collect_step walk ([], []).

(** The body of the inner loop for one [sub]; [None] is a [KeyError]. *)
Definition attach (d sub : string) (acc : Tree * list string)
  : option (Tree * list string) :=
  let '(dir, done) := acc in
  if negb (Py.mem sub done) then
    if Py.startswith sub d then
      if negb (sub =? d) then
        match Dict.get sub dir with
        | None => None
        | Some child =>
            match Dict.get d dir with
            | None => None
            | Some (mkNode files subs) =>
                Some (Dict.del sub
                        (Dict.set d (mkNode files (Dict.set sub child subs))
                           dir),
                      (done ++ [sub])%list)
            end
        end
      else Some acc
    else Some acc
  else Some acc.

Fixpoint inner (d : string) (subs : list string) (acc : Tree * list string)
  : option (Tree * list string) :=
  match subs with
  | [] => Some acc
  | sub :: rest =>
      match attach d sub acc with
      | Some acc' => inner d rest acc'
      | None => None
      end
  end.

Fixpoint outer (ds directories : list string) (acc : Tree * list string)
  : option (Tree * list string) :=
  match ds with
  | [] => Some acc
  | d :: rest =>
      match inner d directories acc with
      | Some acc' => outer rest directories acc'
      | None => None
      end
  end.

(** [getFilesTree] on the sequence of triples produced by [walk(path)]. *)
Definition getFilesTree (walk : list WalkEntry) : option Tree :=
  let '(directories, dir) := collect walk in
  let directories := rev directories in
  match outer directories directories (dir, []) with
  | Some (dir', _) => Some dir'
  | None => None
  end.

(** The key of the dict to which the directory [p] is attached,
    searching a node at any depth; [None] when [p] is attached nowhere
    below it. *)
Fixpoint parent_in (p owner : string) (n : Node) : option string :=
  match n with
  | mkNode _ subs =>
      match Dict.get p subs with
      | Some _ => Some owner
      | None =>
          (fix go (l : list (string * Node)) : option string :=
             match l with
             | [] => None
             | (k, c) :: r =>
                 match parent_in p k c with
                 | Some o => Some o
                 | None => go r
                 end
             end) subs
      end
  end.

Fixpoint parent_of (p : string) (t : Tree) : option string :=
  match t with
  | [] => None
  | (k, n) :: r =>
      match parent_in p k n with
      | Some o => Some o
      | None => parent_of p r
      end
  end.

(** Two lists hold the same elements the same number of times. *)
Definition same_elements (l1 l2 : list string) : bool :=
  forallb
    (fun x =>
       (List.length (filter (String.eqb x) l1)
        =? List.length (filter (String.eqb x) l2))%nat)
    (l1 ++ l2)%list.

(** Two nodes are isomorphic: the same files in any order, and the
    same attached keys in any order with isomorphic nodes under them. *)
Fixpoint node_iso (a b : Node) : bool :=
  match a, b with
  | mkNode fa sa, mkNode fb sb =>
      same_elements fa fb
      && (List.length sa =? List.length sb)%nat
      && (fix all (l : list (string * Node)) : bool :=
            match l with
            | [] => true
            | (k, c) :: r =>
                match Dict.get k sb with
                | Some c' => node_iso c c'
                | None => false
                end && all r
            end) sa
  end.

Definition tree_iso (t1 t2 : Tree) : bool :=
  node_iso (mkNode [] t1) (mkNode [] t2).

End FilesTree.

(** ** Effects: registry, console, queue and external tools *)

Definition tab : string := String (ascii_of_nat 9) EmptyString.
Definition newline : string := String (ascii_of_nat 10) EmptyString.

(** The [text] of a progress message: a string, or the argument list of
    a process ([Popen.args]). *)
Inductive Text : Type :=
| TStr (s : string)
| TList (l : list string).

Record Msg := mkMsg { text : Text; deli : string }.

Inductive Event : Type :=
| QueuePut (m : Msg)                       (* self.queue.put(m) *)
| Console (line : string)                  (* App.insertCommand *)
| Popen (cmd : list string)                (* Popen(cmd, ...) *)
| ShowError (title : string) (message : option string)
| ShowInfo (title message : string)
| TreeInsert (label : string) (values : list string)
| WriteConfig (lines : list string)
| EnableButtons.                           (* recover and carve files *)

(** What the application reads and does not change while it carves or
    recovers: the tool paths, the image, the block size, and the outside
    world: [tools cmd] is the decoded (stdout, stderr) of the process
    started with [cmd], [walk p] the triples of [os.walk(p)], and
    [scalpel_conf] the lines of the configuration file of the carver. *)
Record Env := mkEnv {
  ddPath : string;
  fsstatPath : string;
  tskPath : string;
  md5Path : string;
  scalpelPath : string;
  imagePath : string;
  bs : BlockSize;
  tools : list string -> string * string;
  walk : string -> list WalkEntry;
  scalpel_conf : list string
}.

(** The state a method works on: [App.listOfPartitions] and the effects
    performed so far, oldest first. *)
Record World := mkWorld {
  listOfPartitions : list Partition;
  events : list Event
}.

(** A computation that may raise: the result is [None] after an
    exception, and the world is the one reached when it was raised. *)
Definition M (A : Type) : Type := World -> World * option A.

Definition ret {A} (a : A) : M A := fun w => (w, Some a).

Definition bind {A B} (m : M A) (k : A -> M B) : M B :=
  fun w =>
    match m w with
    | (w', Some a) => k a w'
    | (w', None) => (w', None)
    end.

Definition raise {A} : M A := fun w => (w, None).

Declare Scope m_scope.
Delimit Scope m_scope with M.
Notation "x <- m ;; k" := (bind m (fun x => k))
  (at level 61, m at next level, right associativity) : m_scope.
Notation "m ;; k" := (bind m (fun _ => k))
  (at level 61, right associativity) : m_scope.
Local Open Scope m_scope.

Definition emit (e : Event) : M unit :=
  fun w => (mkWorld (listOfPartitions w) (events w ++ [e])%list, Some tt).

Definition of_option {A} (o : option A) : M A :=
  match o with
  | Some a => ret a
  | None => raise
  end.

(** [l[i]] for a Python integer index: negative indices count from the
    end; [None] is an [IndexError]. *)
Definition py_index {A} (l : list A) (i : Z) : option nat :=
  let n := Z.of_nat (List.length l) in
  let j := if (i <? 0)%Z then (i + n)%Z else i in
  if ((0 <=? j) && (j <? n))%Z then Some (Z.to_nat j) else None.

Fixpoint update_nth {A} (i : nat) (f : A -> A) (l : list A) : list A :=
  match l, i with
  | [], _ => []
  | x :: r, O => f x :: r
  | x :: r, S j => x :: update_nth j f r
  end.

Definition get_registry : M (list Partition) :=
  fun w => (w, Some (listOfPartitions w)).

(** [self.listOfPartitions[i]]. *)
Definition partition_at (i : nat) : M Partition :=
  fun w => (w, nth_error (listOfPartitions w) i).

(** [self.listOfPartitions[i][key] = v], as the field update [f]. *)
Definition update_at (i : nat) (f : Partition -> Partition) : M unit :=
  fun w =>
    match nth_error (listOfPartitions w) i with
    | Some _ =>
        (mkWorld (update_nth i f (listOfPartitions w)) (events w), Some tt)
    | None => (w, None)
    end.

Definition text_line (cmd : Text) : string :=
  match cmd with
  | TStr s => s
  | TList l => Py.join " " l
  end.

(** [App.insertCommand]: one line of the console and of the log. *)
Definition insertCommand (cmd : Text) (d : string) : M unit :=
  emit (Console (d ++ " " ++ text_line cmd)).

Definition put (t : Text) (d : string) : M unit :=
  emit (QueuePut (mkMsg t d)).

(** ** CarveThread.run *)

Module CarveThread.

(** Lines 331-370: what the job does with the output of the copier.
    The result is the local variable [success]. *)
Definition classify (pos : nat) (name outPath stdout stderr : string)
  : M bool :=
  if Py.truthy stdout then
    if Py.contains "records" stdout then
      insertCommand (TStr "Success!") tab ;;
      put (TStr ("Success: " ++ name)) tab ;;
      update_at pos (set_Carved "Yes") ;;
      update_at pos (set_Path (Some outPath)) ;;
      ret true
    else
      if Py.truthy stderr then
        if Py.contains "records" stdout then
          put (TStr ("Success: " ++ name)) tab ;;
          update_at pos (set_Carved "Yes") ;;
          update_at pos (set_Path (Some outPath)) ;;
          ret true
        else ret false
      else
        put (TStr ("Failure: " ++ name)) tab ;;
        ret false
  else
    if Py.truthy stderr then
      if Py.contains "records" stderr then
        put (TStr ("Success: " ++ name)) tab ;;
        update_at pos (set_Carved "Yes") ;;
        update_at pos (set_Path (Some outPath)) ;;
        ret true
      else
        put (TStr ("Failure: " ++ name)) tab ;;
        ret false
    else
      put (TStr ("Failure: " ++ name)) tab ;;
      ret false.

(** A closed form of the flag [success] of [classify]. *)
Definition carve_success (stdout stderr : string) : bool :=
  Py.contains "records" stdout
  || (negb (Py.truthy stdout) && Py.contains "records" stderr).

(** The two assignments of a successful branch. *)
Definition carved (outPath : string) (p : Partition) : Partition :=
  set_Path (Some outPath) (set_Carved "Yes" p).

(** Lines 373-387: the probe of the filesystem type. *)
Definition probe (env : Env) (pos : nat) (partitionsDict : Partition)
    (outPath : string) : M unit :=
  if FileSystem partitionsDict =? "Yes" then
    let cmd := [fsstatPath env; outPath] in
    emit (Popen cmd) ;;
    put (TList cmd) "$" ;;
    let '(stdout, stderr) := tools env cmd in
    if Py.truthy stdout then
      let type := fsstatParser stdout in
      update_at pos (set_FSType type) ;;
      match type with
      | Some t => put (TStr ("FSType: " ++ t)) tab
      | None => raise            (* "FSType: " + None *)
      end
    else put (TStr ("FSType: " ++ stderr)) tab
  else ret tt.

(** [CarveThread.run] for the thread built by [carvePartitions] for
    the index [pos]: [self.partitionsDict] is the dict
    [self.app.listOfPartitions[pos]] itself.  The keys the job reads from
    it ([Name], [Start], [Length], [FileSystem]) are keys it never
    assigns, so they are read once.  The result is [success]. *)
Definition run (env : Env) (pos : nat) (path : string) : M bool :=
  partitionsDict <- partition_at pos ;;
  let name := Name partitionsDict in
  let outPath := path ++ "/" ++ name in
  put (TStr ("Attempting to carve partition " ++ name ++ "...")) tab ;;
  match bs env with
  | inl _ => raise                        (* "bs=" + -1 *)
  | inr b =>
      let cmd := [ddPath env; "if=" ++ imagePath env; "of=" ++ outPath;
                  "bs=" ++ b; "skip=" ++ Start partitionsDict;
                  "count=" ++ Length partitionsDict] in
      emit (Popen cmd) ;;
      put (TList cmd) "$" ;;
      let '(stdout, stderr) := tools env cmd in
      success <- classify pos name outPath stdout stderr ;;
      probe env pos partitionsDict outPath ;;
      ret success
  end.

End CarveThread.

(** ** Python [int] and [str] on integers *)

Definition digit_of (c : ascii) : option Z :=
  let n := nat_of_ascii c in
  if ((48 <=? n) && (n <=? 57))%nat then Some (Z.of_nat (n - 48)) else None.

(** The digits of an integer literal: single underscores are allowed
    between digits. *)
Fixpoint digits_val (acc : Z) (after_digit : bool) (s : string) : option Z :=
  match s with
  | EmptyString => if after_digit then Some acc else None
  | String c r =>
      match digit_of c with
      | Some d => digits_val (10 * acc + d) true r
      | None =>
          if (nat_of_ascii c =? 95)%nat && after_digit
          then digits_val acc false r
          else None
      end
  end.

(** [int(s)] for a string: surrounding whitespace and one sign are
    allowed; [None] is a [ValueError]. *)
Definition py_int (s : string) : option Z :=
  match Py.strip s with
  | String "-" r => option_map Z.opp (digits_val 0 false r)
  | String "+" r => digits_val 0 false r
  | t => digits_val 0 false t
  end.

(** [str(z)] and ["%d" % z]. *)
Definition str_of_Z (z : Z) : string := NilEmpty.string_of_int (Z.to_int z).

(** ** getMd5 and addItems *)

(** [getMd5(filePath, md5Path)]. *)
Definition getMd5 (env : Env) (filePath md5path : string) : M string :=
  let cmd := [md5path; filePath] in
  emit (Popen cmd) ;;
  let '(stdout, stderr) := tools env cmd in
  if Py.truthy stdout
  then ret (hd "" (Py.split stdout " "))
  else emit (ShowError stderr None) ;; ret "".

(** [p.split(sep)[-1]]. *)
Definition basename (p : string) : string := last (Py.split p sep) "".

Fixpoint for_each {A} (l : list A) (body : A -> M unit) : M unit :=
  match l with
  | [] => ret tt
  | x :: r => body x ;; for_each r body
  end.

(** [addItems(tree, parent, dir, md5Path, md5=True)]: the rows of the
    files with their hashes, then each attached directory with its own
    rows. *)
Fixpoint addItems (env : Env) (dir : Node) (md5path : string) : M unit :=
  match dir with
  | mkNode f subs =>
      for_each f (fun i =>
        h <- getMd5 env i md5path ;;
        emit (TreeInsert (basename i) [h])) ;;
      (fix items (l : list (string * Node)) : M unit :=
         match l with
         | [] => ret tt
         | (item, n) :: r =>
             emit (TreeInsert (basename item) []) ;;
             addItems env n md5path ;;
             items r
         end) subs
  end.

(** The loop that fills the table of a new tab from the tree. *)
Definition show_tree (env : Env) (dir : Tree) : M unit :=
  for_each dir (fun '(key, n) =>
    emit (TreeInsert (basename key) []) ;;
    addItems env n (md5Path env)).

(** ** App.recoverFiles *)

Module Recover.

Definition not_carved : string :=
  "Partition not carved. Carve the partition first and try again.".

(** The body of [for i in self.partitionsToUse] for one index. *)
Definition body (env : Env) (outFolder : string) (i : nat) : M unit :=
  p <- partition_at i ;;
  let descr := Description p in
  let name :=
    Py.replace
      (Py.replace (Py.slice_to descr (Py.find descr "(")) " " "") "/" "_"
    ++ "_" ++ Py.str_of_nat i in
  insertCommand
    (TStr ("Attempting to recover files from " ++ name ++ " partition..."))
    tab ;;
  p <- partition_at i ;;
  match Path p with
  | None => insertCommand (TStr not_carved) tab       (* continue *)
  | Some partitionPath =>
      let out := outFolder ++ "/out_" ++ name in
      let cmds := [tskPath env; partitionPath; out] in
      emit (Popen cmds) ;;
      insertCommand (TList cmds) "$" ;;
      let '(stdout, stderr) := tools env cmds in
      p <- partition_at i ;;
      let partitionName := Name p in
      if Py.truthy stdout then
        count <- of_option (nth_error (Py.split stdout ":") 1) ;;
        filesRecovered <- of_option (py_int count) ;;
        if negb (filesRecovered =? 0)%Z then
          dir <- of_option (FilesTree.getFilesTree (walk env out)) ;;
          insertCommand
            (TStr "Recovering files from selected partitions...") tab ;;
          update_at i (set_Recovered "Yes") ;;
          show_tree env dir
        else
          emit (ShowInfo "Recovered files summary"
                  ("No deleted files were recovered for partition: "
                   ++ partitionName))
      else
        update_at i (set_Recovered "No")
  end.

(** [App.recoverFiles] with the selection [partitionsToUse] and the
    folder answered by the dialog. *)
Definition recoverFiles (env : Env) (partitionsToUse : list nat)
    (outFolder : string) : M unit :=
  if negb (Py.truthy outFolder) then
    emit (ShowError "Error" (Some "Please choose an output directory."))
  else for_each partitionsToUse (body env outFolder).

End Recover.

(** ** App.carveFiles *)

Module CarveFiles.

(** The lines written to [scal.config]. *)
Definition config (env : Env) (carveFileTypes : list string) : list string :=
  map (fun line => Py.replace line "#" " ")
    (filter (fun line => existsb (fun t => Py.contains t line) carveFileTypes)
       (scalpel_conf env)).

(** [App.carveFiles]: [dropVar] is the entry chosen in the menu of
    partitions, [carveFileTypes] the ticked file types. *)
Definition carveFiles (env : Env) (dropVar : string)
    (carveFileTypes : list string) (outFolder : string) : M unit :=
  if negb (Py.truthy outFolder) then
    emit (ShowError "Error" (Some "Please choose an output directory."))
  else
    z <- of_option (py_int (hd "" (Py.split dropVar ":"))) ;;
    registry <- get_registry ;;
    partition <- of_option (py_index registry z) ;;
    p <- partition_at partition ;;
    emit (WriteConfig (config env carveFileTypes)) ;;
    let outputFileLocation :=
      outFolder ++ sep ++ "carvedFiles_" ++ Description p in
    partitionPath <- of_option (Path p) ;;     (* Popen needs a string *)
    let cmds := [scalpelPath env; "-c"; "./scal.config"; partitionPath;
                 "-o"; outputFileLocation] in
    emit (Popen cmds) ;;
    insertCommand (TList cmds) "$" ;;
    let '(stdout, stderr) := tools env cmds in
    if Py.truthy stdout then
      if Py.truthy stderr && Py.contains "ERROR" stderr then
        emit (ShowError "Error" (Some stderr))
      else
        rest <- of_option (nth_error (Py.split stdout "files carved = ") 1) ;;
        filesCarved <- of_option (py_int (hd "" (Py.split rest ","))) ;;
        emit (ShowInfo "Carved Files"
                (str_of_Z filesCarved ++ " files were carved.")) ;;
        if negb (filesCarved =? 0)%Z then
          update_at partition (set_CarvedFiles "Yes") ;;
          dir <- of_option
                   (FilesTree.getFilesTree (walk env outputFileLocation)) ;;
          show_tree env dir
        else ret tt
    else emit (ShowError "Error" (Some stderr)).

End CarveFiles.

(** ** Selection callbacks *)

Fixpoint remove_first (i : nat) (l : list nat) : list nat :=
  match l with
  | [] => []
  | x :: r => if (x =? i)%nat then r else x :: remove_first i r
  end.

Definition selected (i : nat) (l : list nat) : bool :=
  existsb (Nat.eqb i) l.

(** [App.carvePartitionsCheck]: toggles [i] in [partitionsToUse]. *)
Definition carvePartitionsCheck (partitionsToUse : list nat) (i : nat)
  : list nat :=
  if selected i partitionsToUse
  then remove_first i partitionsToUse
  else (partitionsToUse ++ [i])%list.

(** [App.recoverFilesCheck]: adds [i] only when it is carved; [None] is
    the [IndexError] of an index outside the registry. *)
Definition recoverFilesCheck (registry : list Partition)
    (partitionsToUse : list nat) (i : nat) : option (list nat) :=
  if selected i partitionsToUse
  then Some (remove_first i partitionsToUse)
  else match nth_error registry i with
       | Some p =>
           if Carved p =? "Yes"
           then Some (partitionsToUse ++ [i])%list
           else Some partitionsToUse
       | None => None
       end.

(** The loop of [App.openDiskImage] that completes each parsed dict. *)
Definition openDiskImage_init (p : Partition) : Partition :=
  set_MD5Sum "" (set_Recovered "No" (set_Carved "No" p)).

(** ** App.carvePartitions *)

Module Carve.

(** The counters and texts of the pass that follows the jobs. *)
Record Tally := mkTally {
  succ : nat;
  err : nat;
  succMsg : string;
  errMsg : string;
  fsCarved : bool
}.

Definition tally0 : Tally :=
  mkTally 0 0 ("Partition(s) successfully carved:" ++ newline)
    ("Partition(s) unsuccessfully carved:" ++ newline) false.

(** ["%s" % v] for a value that is a string or [None]. *)
Definition str_of_value (v : option string) : string :=
  match v with
  | Some s => s
  | None => "None"
  end.

(** The body of the loop that checks which partitions were carved. *)
Definition check (env : Env) (t : Tally) (i : nat) : M Tally :=
  partition <- partition_at i ;;
  t' <- (if Carved partition =? "Yes" then
           insertCommand
             (TStr ("Partition saved in " ++ str_of_value (Path partition)))
             tab ;;
           f <- of_option (Path partition) ;;   (* Popen needs a string *)
           h <- getMd5 env f (md5Path env) ;;
           update_at i (set_MD5Sum h) ;;
           ret (mkTally (S (succ t)) (err t)
                  (succMsg t ++ "  - " ++ Description partition ++ " "
                   ++ newline)
                  (errMsg t) (fsCarved t))
         else
           ret (mkTally (succ t) (S (err t)) (succMsg t)
                  (errMsg t ++ "  - " ++ Description partition ++ " "
                   ++ newline)
                  (fsCarved t))) ;;
  ret (mkTally (succ t') (err t') (succMsg t') (errMsg t')
         (fsCarved t' || (FileSystem partition =? "Yes"))).

Fixpoint checks (env : Env) (t : Tally) (l : list nat) : M Tally :=
  match l with
  | [] => ret t
  | i :: r => t' <- check env t i ;; checks env t' r
  end.

(** The part of [carvePartitions] that runs once every job has ended
    and the queue is empty. *)
Definition summary (env : Env) (partitionsToUse : list nat) : M unit :=
  t <- checks env tally0 partitionsToUse ;;
  if (0 <? succ t)%nat then
    (if fsCarved t then emit EnableButtons else ret tt) ;;
    if (0 <? err t)%nat
    then emit (ShowInfo "Carved Partitions Summary" (succMsg t ++ errMsg t))
    else emit (ShowInfo "Carved Partitions Summary" (succMsg t))
  else emit (ShowError "Carved Partitions Summary" (Some (errMsg t))).

(** The messages a job puts on the queue, in the order it puts them. *)
Definition puts (l : list Event) : list Msg :=
  flat_map (fun e => match e with QueuePut m => [m] | _ => [] end) l.

Definition job_script (env : Env) (registry : list Partition) (path : string)
    (pos : nat) : list Msg :=
  puts (events (fst (CarveThread.run env pos path (mkWorld registry [])))).

End Carve.

(** ** The jobs of one carve run and the loop that drains the queue

    One thread per selected partition puts its messages on the queue
    [cmdsQueue]; the caller starts the threads, takes messages off the
    queue while [threading.activeCount() > 1], and empties the queue once
    no thread is left.  [Queue.put] and [Queue.get] are atomic and the
    queue is first-in first-out.  Each queue entry is tagged with the
    index of the thread that put it. *)

Module Orchestrator.

Inductive Thread : Type :=
| Alive (todo : list Msg)      (* started; messages it has still to put *)
| Ended.

(** Where the caller stands in [carvePartitions]. *)
Inductive Pc : Type :=
| Starting      (* in the loop that starts the threads *)
| Waiting       (* at the test of [while threading.activeCount() > 1] *)
| Draining      (* in the body of that loop, at [cmdsQueue.empty()] *)
| Flushing      (* at the test of [while not cmdsQueue.empty()] *)
| Returned.     (* past both loops *)

Record State := mkState {
  threads : list Thread;           (* the list [threads], in start order *)
  queue : list (nat * Msg);        (* [cmdsQueue], oldest first *)
  shown : list (nat * Msg);        (* passed to [insertCommand] so far *)
  pc : Pc
}.

Definition init : State := mkState [] [] [] Starting.

Definition is_alive (t : Thread) : bool :=
  match t with Alive _ => true | Ended => false end.

Definition any_alive (s : State) : bool := existsb is_alive (threads s).

Fixpoint set_thread (k : nat) (t : Thread) (l : list Thread) : list Thread :=
  match l, k with
  | [], _ => []
  | _ :: r, O => t :: r
  | x :: r, S j => x :: set_thread j t r
  end.

(** One atomic step of the caller or of a thread; [scripts] gives, for
    each selected partition in order, the messages its job puts in the
    run at hand (for the job of [CarveThread.run], the messages of
    [Carve.job_script]).  A thread may take its steps at any point of
    the caller, from the moment it is started. *)
Inductive step (scripts : list (list Msg)) : State -> State -> Prop :=
| step_start : forall s sc,
    pc s = Starting ->
    nth_error scripts (List.length (threads s)) = Some sc ->
    step scripts s
      (mkState (threads s ++ [Alive sc]) (queue s) (shown s) Starting)
| step_started : forall s,
    pc s = Starting ->
    List.length (threads s) = List.length scripts ->
    step scripts s (mkState (threads s) (queue s) (shown s) Waiting)
| step_put : forall s k m rest,
    nth_error (threads s) k = Some (Alive (m :: rest)) ->
    step scripts s
      (mkState (set_thread k (Alive rest) (threads s))
         (queue s ++ [(k, m)]) (shown s) (pc s))
| step_end : forall s k,
    nth_error (threads s) k = Some (Alive []) ->
    step scripts s
      (mkState (set_thread k Ended (threads s)) (queue s) (shown s) (pc s))
| step_enter : forall s,
    pc s = Waiting -> any_alive s = true ->
    step scripts s (mkState (threads s) (queue s) (shown s) Draining)
| step_leave : forall s,
    pc s = Waiting -> any_alive s = false ->
    step scripts s (mkState (threads s) (queue s) (shown s) Flushing)
| step_idle : forall s,
    pc s = Draining -> queue s = [] ->
    step scripts s (mkState (threads s) (queue s) (shown s) Waiting)
| step_get : forall s x q,
    pc s = Draining -> queue s = x :: q ->
    step scripts s (mkState (threads s) q (shown s ++ [x]) Waiting)
| step_flush : forall s x q,
    pc s = Flushing -> queue s = x :: q ->
    step scripts s (mkState (threads s) q (shown s ++ [x]) Flushing)
| step_return : forall s,
    pc s = Flushing -> queue s = [] ->
    step scripts s (mkState (threads s) (queue s) (shown s) Returned).

Inductive steps (scripts : list (list Msg)) : State -> State -> Prop :=
| steps_refl : forall s, steps scripts s s
| steps_step : forall s1 s2 s3,
    step scripts s1 s2 -> steps scripts s2 s3 -> steps scripts s1 s3.

(** The messages of thread [k] in a sequence of tagged entries. *)
Definition of_thread (k : nat) (l : list (nat * Msg)) : list Msg :=
  map snd (filter (fun e => (fst e =? k)%nat) l).

(** What thread [k] has still to put. *)
Definition todo_of (scripts : list (list Msg)) (s : State) (k : nat)
  : list Msg :=
  match nth_error (threads s) k with
  | Some (Alive todo) => todo
  | Some Ended => []
  | None => nth k scripts []
  end.

(** The steps the threads have still to take. *)
Fixpoint work (l : list Thread) : nat :=
match l with
| [] => 0
| Alive todo :: r => S (List.length todo) + work r
| Ended :: r => work r
end.

(** What holds of every state of a run. *)
Definition Inv (scripts : list (list Msg)) (s : State) : Prop :=
List.length (threads s) <= List.length scripts
/\ (pc s <> Starting -> List.length (threads s) = List.length scripts)
/\ (pc s = Flushing \/ pc s = Returned -> any_alive s = false)
/\ (pc s = Returned -> queue s = [])
/\ (forall k,
      (of_thread k (shown s ++ queue s) ++ todo_of scripts s k)%list
      = nth k scripts []).

End Orchestrator.

(** ** A session: operations on one registry *)

Module Session.

Inductive Op : Type :=
| CarveJob (env : Env) (pos : nat) (path : string)
| CarveSummary (env : Env) (partitionsToUse : list nat)
| RecoverFiles (env : Env) (partitionsToUse : list nat) (outFolder : string)
| CarveFiles (env : Env) (dropVar : string) (carveFileTypes : list string)
    (outFolder : string).

Definition exec (op : Op) (w : World) : World :=
  match op with
  | CarveJob env pos path => fst (CarveThread.run env pos path w)
  | CarveSummary env sel => fst (Carve.summary env sel w)
  | RecoverFiles env sel out => fst (Recover.recoverFiles env sel out w)
  | CarveFiles env d types out =>
      fst (CarveFiles.carveFiles env d types out w)
  end.

(** The registry after the operations, run in order. *)
Definition run (ops : list Op) (registry : list Partition) : list Partition :=
  listOfPartitions (fold_left (fun w op => exec op w) ops (mkWorld registry [])).

(** The recovery tool of [env] prints something on its standard
    output whatever it is started on. *)
Definition tool_answers (env : Env) : Prop :=
  forall partitionPath out,
    fst (tools env [tskPath env; partitionPath; out]) <> "".

(** No recovery of the operation meets a tool that prints nothing. *)
Definition recovery_answers (op : Op) : Prop :=
  match op with
  | RecoverFiles env _ _ => tool_answers env
  | _ => True
  end.

(** The progress flags of [p'] are not behind those of [p]; with
    [strict], this includes the flag [Recovered]. *)
Definition keeps (strict : bool) (p p' : Partition) : Prop :=
  (Carved p = "Yes" -> Carved p' = "Yes")
  /\ (CarvedFiles p = "Yes" -> CarvedFiles p' = "Yes")
  /\ (strict = true ->
      Recovered p = Some "Yes" -> Recovered p' = Some "Yes").

(** Every partition of [r] is still there in [r'], at its index, with
    flags that are not behind. *)
Definition evolves (strict : bool) (r r' : list Partition) : Prop :=
  forall i p,
    nth_error r i = Some p ->
    exists p', nth_error r' i = Some p' /\ keeps strict p p'.

(** A computation under which the registry evolves, whether it
    returns or raises. *)
Definition steady (strict : bool) {A} (m : M A) : Prop :=
  forall w, evolves strict (listOfPartitions w) (listOfPartitions (fst (m w))).

End Session.

(** ** The wording of the specification, for comparison *)

Module Spec.

(** "Split on whitespace": the tokens are the maximal runs of
    characters that are not whitespace. *)
Fixpoint whitespace_go (cur s : string) : list string :=
  match s with
  | EmptyString => match cur with EmptyString => [] | _ => [cur] end
  | String c r =>
      if Py.is_space c then
        match cur with
        | EmptyString => whitespace_go EmptyString r
        | _ => cur :: whitespace_go EmptyString r
        end
      else whitespace_go (cur ++ String c EmptyString) r
  end.

Definition split_whitespace (s : string) : list string :=
  whitespace_go EmptyString s.

(** "Tokens 8/11/14" of a "Meta" row and "tokens 5/8/11" of any other
    row, counted in the whitespace-split row. *)
Definition fields (line : string) : option (string * string * string) :=
  let t := split_whitespace line in
  match nth_error t 2 with
  | Some slot =>
      if slot =? "Meta" then
        match nth_error t 8, nth_error t 11, nth_error t 14 with
        | Some a, Some b, Some c => Some (a, b, c)
        | _, _, _ => None
        end
      else
        match nth_error t 5, nth_error t 8, nth_error t 11 with
        | Some a, Some b, Some c => Some (a, b, c)
        | _, _, _ => None
        end
  | None => None
  end.

(** A directory [sub] lies below [d] when the segments of [d] are a
    proper prefix of the segments of [sub]. *)
Fixpoint segments_prefix (a b : list string) : bool :=
  match a, b with
  | [], _ => true
  | x :: a', y :: b' => (x =? y) && segments_prefix a' b'
  | _ :: _, [] => false
  end.

Definition below (sub d : string) : bool :=
  segments_prefix (Py.split d sep) (Py.split sub sep) && negb (sub =? d).

End Spec.

(** ** Sample inputs *)

Module Sample.

(** The output of the partition lister for a disk with two filesystems. *)
Definition table : list string :=
  [ "DOS Partition Table";
    "Offset Sector: 0";
    "Units are in 512-byte sectors";
    "";
    "      Slot      Start        End          Length       Description";
    "000:  Meta      0000000000   0000000000   0000000001   Primary Table (#0)";
    "001:  -------   0000000000   0000002047   0000002048   Unallocated";
    "002:  000:000   0000002048   0001026047   0001024000   Linux (0x83)";
    "003:  000:001   0001026048   0002097151   0001071104   NTFS / exFAT (0x07)" ].

Definition meta_row : string :=
  "000:  Meta      0000000000   0000000000   0000000001   Primary Table (#0)".

Definition linux_row : string :=
  "002:  000:000   0000002048   0001026047   0001024000   Linux (0x83)".

Definition before_header : list string :=
  [ "DOS Partition Table";
    "Offset Sector: 0";
    "Units are in 512-byte sectors";
    "" ].

Definition header : string :=
  "      Slot      Start        End          Length       Description".

Definition rows : list string :=
  [ meta_row;
    "001:  -------   0000000000   0000002047   0000002048   Unallocated";
    linux_row;
    "003:  000:001   0001026048   0002097151   0001071104   NTFS / exFAT (0x07)" ].

(** The result of the parser on [table]. *)
Definition parsed : list Partition :=
  match Mmls.mmlsParser table with
  | Some (l, _) => l
  | None => []
  end.

Definition block : BlockSize :=
  match Mmls.mmlsParser table with
  | Some (_, b) => b
  | None => inl 0%Z
  end.

(** A row after the header whose description repeats the units text. *)
(** A walk of a directory [/r] that holds [foo] and [foobar], the
    latter with a subdirectory [x]; and a second walk of the same
    directory in which the listing of [/r] gives [foobar] first. *)
Definition walk_foo_first : list WalkEntry :=
  [ ("/r", ["foo"; "foobar"], []);
    ("/r/foo", [], []);
    ("/r/foobar", ["x"], []);
    ("/r/foobar/x", [], []) ].

Definition walk_foobar_first : list WalkEntry :=
  [ ("/r", ["foobar"; "foo"], []);
    ("/r/foobar", ["x"], []);
    ("/r/foobar/x", [], []);
    ("/r/foo", [], []) ].

(** The registry after [openDiskImage] on [table]. *)
Definition registry : list Partition := map openDiskImage_init parsed.

(** The tools of a machine on which the copier prints nothing, the
    prober knows the filesystem and the recovery tool finds no file
    table. *)
Definition silent_copier (cmd : list string) : string * string :=
  if hd "" cmd =? "/usr/bin/fsstat"
  then ("FILE SYSTEM INFORMATION" ++ newline
        ++ "File System Type: Ext4" ++ newline, "")
  else ("", "").

Definition env (answers : list string -> string * string) : Env :=
  mkEnv "/bin/dd" "/usr/bin/fsstat" "/usr/bin/tsk_recover"
    "/usr/bin/md5sum" "/usr/bin/scalpel" "/cases/disk.img" block
    answers (fun _ => []) [].

(** The tools of a machine on which the copier reports its records on
    the standard error and the recovery tool recovers three files. *)
Definition working_tools (cmd : list string) : string * string :=
  if hd "" cmd =? "/bin/dd" then ("", "5+0 records out")
  else if hd "" cmd =? "/usr/bin/tsk_recover"
       then ("Files Recovered: 3" ++ newline, "")
       else if hd "" cmd =? "/usr/bin/md5sum"
            then ("d41d8cd98f00b204e9800998ecf8427e  file", "")
            else silent_copier cmd.

Definition recovered_walk (p : string) : list WalkEntry :=
  [ (p, [], ["a.txt"; "b.txt"; "c.txt"]) ].

Definition working_env : Env :=
  mkEnv "/bin/dd" "/usr/bin/fsstat" "/usr/bin/tsk_recover"
    "/usr/bin/md5sum" "/usr/bin/scalpel" "/cases/disk.img" block
    working_tools recovered_walk [].

(** The messages of two jobs of one carve run, and the state in which
    the run returns after one of its interleavings. *)
Definition msg_a1 : Msg := mkMsg (TStr "Attempting to carve partition A...") tab.
Definition msg_a2 : Msg := mkMsg (TStr "Failure: A") tab.
Definition msg_b1 : Msg := mkMsg (TStr "Attempting to carve partition B...") tab.

Definition two_jobs : list (list Msg) := [[msg_a1; msg_a2]; [msg_b1]].

Definition returned : Orchestrator.State :=
  Orchestrator.mkState [Orchestrator.Ended; Orchestrator.Ended] []
    [(0, msg_a1); (1, msg_b1); (0, msg_a2)] Orchestrator.Returned.

Definition units_row : string :=
  "004:  000:002   0002097152   0002097663   0000000512   Units are in 4096-byte blocks".

End Sample.

(** ** Notions used by the further properties *)

Module MmlsRows.

(** A row that [row] cannot read: a token it indexes is not there. *)
Definition short_row (line : string) : bool :=
  let t := Mmls.tokens line in
  match nth_error t 2 with
  | None => true
  | Some slot =>
      if slot =? "Meta" then (List.length t <? 15)%nat
      else (List.length t <? 12)%nat
  end.

(** What every dict has when the parser returns it. *)
Definition fresh (p : Partition) : Prop :=
  Carved p = "No" /\ CarvedFiles p = "No" /\ Path p = Some ""
  /\ FSType p = Some "" /\ Recovered p = None /\ MD5Sum p = None
  /\ Name p = Py.replace (Description p) " " "_".

End MmlsRows.

Module TreeShape.

(** The directories of a node at any depth, each with its list of
    files: the node itself first, then the nodes attached to it. *)
Fixpoint node_entries (owner : string) (n : Node)
  : list (string * list string) :=
  match n with
  | mkNode files subs =>
      (owner, files)
        :: (fix go (l : list (string * Node)) : list (string * list string) :=
              match l with
              | [] => []
              | (k, c) :: r => (node_entries k c ++ go r)%list
              end) subs
  end.

Fixpoint tree_entries (t : Tree) : list (string * list string) :=
  match t with
  | [] => []
  | (k, n) :: r => (node_entries k n ++ tree_entries r)%list
  end.

(** What the first loop records for one triple of the walk. *)
Definition entry_of (e : WalkEntry) : string * list string :=
  let '(dirpath, _, filenames) := e in
  (dirpath, map (fun f => dirpath ++ sep ++ f) filenames).

Definition dirpath_of (e : WalkEntry) : string := fst (fst e).

(** Every directory attached at any depth below [owner] has the path of
    the directory it is attached to as a proper string prefix. *)
Fixpoint nested_in (owner : string) (n : Node) : Prop :=
  match n with
  | mkNode _ subs =>
      (fix go (l : list (string * Node)) : Prop :=
         match l with
         | [] => True
         | (k, c) :: r =>
             (Py.startswith k owner = true /\ k <> owner /\ nested_in k c)
             /\ go r
         end) subs
  end.

Definition attached_ok (owner : string) (e : string * Node) : Prop :=
  Py.startswith (fst e) owner = true /\ fst e <> owner
  /\ nested_in (fst e) (snd e).

Definition top_ok (e : string * Node) : Prop := nested_in (fst e) (snd e).

(** Every directory of [D] that is not done is still a key of the dict. *)
Definition pending_present (D : list string) (dir : Tree)
  (done : list string) : Prop :=
  forall x, In x D -> ~ In x done -> Dict.get x dir <> None.

(** The done list is closed under extension of the path within [D]. *)
Definition done_closed (D : list string) (done : list string) : Prop :=
  forall x sub, In x done -> In sub D -> Py.startswith sub x = true ->
                In sub done.

(** The keys of the dict are distinct directories of [D], none of them
    done. *)
Definition keys_pending (D : list string) (dir : Tree) (done : list string)
  : Prop :=
  NoDup (map fst dir)
  /\ forall k, In k (map fst dir) -> In k D /\ ~ In k done.

End TreeShape.

Module Frame.

(** A relation between a partition of the registry, at its index, before
    and after a computation. *)
Definition Rel : Type := nat -> Partition -> Partition -> Prop.

(** Under [m] the registry keeps its length and every partition is
    related to what it becomes, whether [m] returns or raises. *)
Definition respects (R : Rel) {A} (m : M A) : Prop :=
  forall w,
    List.length (listOfPartitions (fst (m w)))
    = List.length (listOfPartitions w)
    /\ forall i p,
        nth_error (listOfPartitions w) i = Some p ->
        exists p',
          nth_error (listOfPartitions (fst (m w))) i = Some p' /\ R i p p'.

(** [p'] differs from [p] at most in the keys a carve job assigns. *)
Definition carve_keys (p p' : Partition) : Prop :=
  exists c pa f, p' = set_FSType f (set_Path pa (set_Carved c p)).

(** [p'] differs from [p] at most in the key [Recovered]. *)
Definition recovered_key (p p' : Partition) : Prop :=
  p' = p \/ exists v, p' = set_Recovered v p.

(** [p'] is [p], or [p] with the key [CarvedFiles] set to ["Yes"]. *)
Definition carvedFiles_key (p p' : Partition) : Prop :=
  p' = p \/ p' = set_CarvedFiles "Yes" p.

(** [p'] differs from [p] at most in the key [MD5Sum]. *)
Definition md5_key (p p' : Partition) : Prop :=
  p' = p \/ exists v, p' = set_MD5Sum v p.

(** Only the indices of [sel] are touched, and those as [K] allows. *)
Definition only_at (sel : list nat) (K : Partition -> Partition -> Prop)
  : Rel :=
  fun i p p' => (~ In i sel -> p' = p) /\ K p p'.

(** The relations of the operations. *)
Definition carve_rel (pos : nat) : Rel := only_at [pos] carve_keys.

Definition recover_rel (sel : list nat) : Rel := only_at sel recovered_key.

Definition summary_rel (sel : list nat) : Rel := only_at sel md5_key.

Definition carveFiles_rel : Rel := fun _ => carvedFiles_key.

End Frame.

Module Quiet.

(** A computation that never raises and leaves the registry alone: it
    only adds effects. *)
Definition quiet {A} (m : M A) : Prop :=
  forall w, exists evs a,
    m w = (mkWorld (listOfPartitions w) (events w ++ evs)%list, Some a).

End Quiet.

Module Commands.

(** The command of the copier for a partition. *)
Definition copier_cmd (env : Env) (p : Partition) (outPath b : string)
  : list string :=
  [ddPath env; "if=" ++ imagePath env; "of=" ++ outPath; "bs=" ++ b;
   "skip=" ++ Start p; "count=" ++ Length p].
(** The folder the recovery tool writes to for the partition [i]. *)
Definition folder_of (outFolder descr : string) (i : nat) : string :=
  outFolder ++ "/out_"
  ++ (Py.replace
        (Py.replace (Py.slice_to descr (Py.find descr "(")) " " "") "/" "_"
      ++ "_" ++ Py.str_of_nat i).

(** The count read from the summary of the recovery tool; [None] when
    reading it raises. *)
Definition count_of (stdout : string) : option Z :=
  match nth_error (Py.split stdout ":") 1 with
  | Some c => py_int c
  | None => None
  end.

End Commands.

Module Cases.

(** The output of the prober for an Ext4 filesystem. *)
Definition fsstat_text : string :=
  "FILE SYSTEM INFORMATION" ++ newline
  ++ "--------------------------------------------" ++ newline
  ++ "File System Type: Ext4" ++ newline
  ++ "Volume Name: " ++ newline.

(** The walk of a folder with two subfolders, one of them nested. *)
Definition folder_walk : list WalkEntry :=
  [ ("/out", ["docs"; "img"], ["audit.log"]);
    ("/out/docs", ["old"], ["a.txt"]);
    ("/out/docs/old", [], ["b.txt"; "c.txt"]);
    ("/out/img", [], []) ].

(** Rules of the configuration file of the carver, commented out as
    they are shipped. *)
Definition conf : list string :=
  [ "#       jpg     y       200000000       JFIF";
    "#       png     y       20000000        PNG";
    "#       pdf     y       5000000         %PDF  %EOF" ].

Definition carver_env : Env :=
  mkEnv "/bin/dd" "/usr/bin/fsstat" "/usr/bin/tsk_recover"
    "/usr/bin/md5sum" "/usr/bin/scalpel" "/cases/disk.img" Sample.block
    Sample.working_tools Sample.recovered_walk conf.

(** The two filesystem partitions of the sample table, as
    [openDiskImage] leaves them, and the first after a successful
    carve. *)
Definition linux : Partition :=
  mkPartition "000:000" "No" (Some "") (Some "") "No" "0000002048"
    "0001026047" "0001024000" "Linux (0x83)_fs0" "Yes" "Linux_(0x83)_fs0"
    (Some "No") (Some "").

Definition ntfs : Partition :=
  mkPartition "000:001" "No" (Some "") (Some "") "No" "0001026048"
    "0002097151" "0001071104" "NTFS / exFAT (0x07)_fs1" "Yes"
    "NTFS_/_exFAT_(0x07)_fs1" (Some "No") (Some "").

Definition carved_linux : Partition :=
  CarveThread.carved "/cases/out/Linux_(0x83)_fs0" linux.

Definition carved_registry : list Partition :=
  update_nth 2 (CarveThread.carved "/cases/out/Linux_(0x83)_fs0")
    Sample.registry.

Definition world : World := mkWorld Sample.registry [].

(** The sample table without its units line, and the machine after
    this table has been opened: the block size is still the integer. *)
Definition table_without_units : list string :=
  [ "DOS Partition Table"; "Offset Sector: 0"; "" ]
    ++ Sample.header :: Sample.rows.

Definition env_without_units : Env :=
  mkEnv "/bin/dd" "/usr/bin/fsstat" "/usr/bin/tsk_recover"
    "/usr/bin/md5sum" "/usr/bin/scalpel" "/cases/disk.img"
    (match Mmls.mmlsParser table_without_units with
     | Some (_, b) => b
     | None => inr ""
     end)
    Sample.working_tools Sample.recovered_walk [].

Definition carved_world : World := mkWorld carved_registry [].

End Cases.

Module Selection.

(** What the summary of a carve run reads of the partition at an index. *)
Definition carved_at (registry : list Partition) (i : nat) : bool :=
  match nth_error registry i with
  | Some p => Carved p =? "Yes"
  | None => false
  end.

Definition fs_at (registry : list Partition) (i : nat) : bool :=
  match nth_error registry i with
  | Some p => FileSystem p =? "Yes"
  | None => false
  end.

(** The line of a partition in the text of the dialog. *)
Definition line_of (registry : list Partition) (i : nat) : string :=
  match nth_error registry i with
  | Some p => "  - " ++ Description p ++ " " ++ newline
  | None => ""
  end.

Fixpoint listing (registry : list Partition) (l : list nat) : string :=
  match l with
  | [] => ""
  | i :: r => line_of registry i ++ listing registry r
  end.

(** The index is in the registry, and a carved partition has a path. *)
Definition ready_at (registry : list Partition) (i : nat) : Prop :=
  exists p,
    nth_error registry i = Some p /\ (Carved p = "Yes" -> Path p <> None).

End Selection.

Module Display.

(** The processes started and the rows inserted, in order, among the
    effects. *)
Definition hash_calls (evs : list Event) : list (list string) :=
  flat_map (fun e => match e with Popen c => [c] | _ => [] end) evs.

Definition rows (evs : list Event) : list (string * list string) :=
  flat_map (fun e => match e with TreeInsert l v => [(l, v)] | _ => [] end)
    evs.

(** The digest [getMd5] returns for a file. *)
Definition digest (env : Env) (md5path f : string) : string :=
  let stdout := fst (tools env [md5path; f]) in
  if Py.truthy stdout then hd "" (Py.split stdout " ") else "".

(** The rows of a directory and of its files. *)
Definition rows_of (env : Env) (md5path : string)
    (e : string * list string) : list (string * list string) :=
  (basename (fst e), [])
    :: map (fun f => (basename f, [digest env md5path f])) (snd e).

End Display.

(** * Properties *)

(** ** Strings *)

Lemma substring_skip a : forall m s,
  substring (String.length a) m (a ++ s) = substring 0 m s.
Proof.
  induction a as [|c a IH]; intros m s; [reflexivity|].
  cbn [String.length append substring]. apply IH.
Qed.

Lemma substring_take x : forall r,
  substring 0 (String.length x) (x ++ r) = x.
Proof.
  induction x as [|c x IH]; intros r.
  - destruct r; reflexivity.
  - cbn [String.length append substring]. rewrite IH. reflexivity.
Qed.

Lemma length_append a b :
  String.length (a ++ b) = String.length a + String.length b.
Proof.
  induction a as [|c a IH]; [reflexivity|].
  cbn [append String.length]. rewrite IH. reflexivity.
Qed.

Lemma append_empty_r s : s ++ "" = s.
Proof.
  induction s as [|c s IH]; [reflexivity|].
  cbn [append]. rewrite IH. reflexivity.
Qed.

Lemma append_assoc a b c : (a ++ b) ++ c = a ++ b ++ c.
Proof.
  induction a as [|x a IH]; [reflexivity|].
  cbn [append]. rewrite IH. reflexivity.
Qed.

(** ** The partition-table parser *)

Section MmlsFacts.

Import Mmls.

Lemma row_counter counter t p c :
  row counter t = Some (p, c) ->
  c = counter +
      match nth_error t 2 with
      | Some slot => if negb (slot =? "Meta") && Py.contains ":" slot
                     then 1 else 0
      | None => 0
      end.
Proof.
  unfold row. destruct (nth_error t 2) as [slot|]; [|discriminate].
  destruct (slot =? "Meta") eqn:Hm.
  - destruct (nth_error t 8), (nth_error t 11), (nth_error t 14);
      try discriminate.
    intros H; inversion H; subst. simpl. lia.
  - destruct (nth_error t 5), (nth_error t 8), (nth_error t 11);
      try discriminate.
    destruct (Py.contains ":" slot); intros H; inversion H; subst;
      simpl; lia.
Qed.

Lemma row_path counter t p c :
  row counter t = Some (p, c) ->
  Path p = Some "" /\ Carved p = "No" /\ CarvedFiles p = "No"
  /\ FSType p = Some "".
Proof.
  unfold row. destruct (nth_error t 2) as [slot|]; [|discriminate].
  destruct (slot =? "Meta").
  - destruct (nth_error t 8), (nth_error t 11), (nth_error t 14);
      try discriminate.
    intros H; inversion H; subst; simpl; auto.
  - destruct (nth_error t 5), (nth_error t 8), (nth_error t 11);
      try discriminate.
    destruct (Py.contains ":" slot); intros H; inversion H; subst;
      simpl; auto.
Qed.

(** The lines before the header leave the list and the counter alone. *)
Lemma loop_before_header pre : forall v rest,
  slotFound v = false ->
  (forall l, In l pre -> is_header l = false) ->
  exists b,
    loop v (pre ++ rest)
    = loop (mkVars (info v) b false (partitionCounter v)) rest.
Proof.
  induction pre as [|l pre IH]; intros v rest Hs Hpre.
  - exists (Mmls.bs v). destruct v; simpl in *; subst; reflexivity.
  - cbn [app loop]. unfold step. rewrite Hs. cbn [negb].
    assert (Hl : Py.mem "Slot" (tokens l) = false)
      by (apply (Hpre l); left; reflexivity).
    rewrite Hl.
    destruct (IH (mkVars (info v) (scan_units (Mmls.bs v) l) false
                    (partitionCounter v)) rest) as [b Hb].
    + reflexivity.
    + intros l' Hin. apply Hpre. right. exact Hin.
    + exists b. exact Hb.
Qed.

(** After the header every line is a row: the dicts are appended in
    order, each parsed with the number of filesystem rows seen so far. *)
Lemma loop_rows rows : forall v v',
  slotFound v = true ->
  loop v rows = Some v' ->
  exists ps,
    info v' = (info v ++ ps)%list
    /\ List.length ps = List.length rows
    /\ forall i line p,
        nth_error rows i = Some line ->
        nth_error ps i = Some p ->
        row (partitionCounter v + fs_before rows i) (tokens line)
        = Some (p, (partitionCounter v + fs_before rows (S i))%nat).
Proof.
  induction rows as [|l rows IH]; intros v v' Hs Hloop.
  - simpl in Hloop. inversion Hloop; subst. exists []. split.
    + rewrite app_nil_r. reflexivity.
    + split; [reflexivity|]. intros i line p Hi. destruct i; discriminate.
  - cbn [loop] in Hloop. unfold step in Hloop. rewrite Hs in Hloop.
    cbn [negb] in Hloop.
    destruct (row (partitionCounter v) (tokens l)) as [[temp c]|] eqn:Hrow;
      [|discriminate].
    apply IH in Hloop; [|reflexivity].
    destruct Hloop as [ps [Hinfo [Hlen Hnth]]].
    cbn [info partitionCounter] in Hinfo, Hnth.
    pose proof (row_counter _ _ _ _ Hrow) as Hc.
    assert (Hfs : (if is_fs_row l then 1 else 0)
                  = match nth_error (tokens l) 2 with
                    | Some slot =>
                        if negb (slot =? "Meta") && Py.contains ":" slot
                        then 1 else 0
                    | None => 0
                    end).
    { unfold is_fs_row. destruct (nth_error (tokens l) 2); reflexivity. }
    rewrite <- Hfs in Hc.
    assert (Hstep : forall i,
               fs_before (l :: rows) (S i)
               = ((if is_fs_row l then 1 else 0) + fs_before rows i)%nat).
    { intros i. unfold fs_before. simpl.
      destruct (is_fs_row l); reflexivity. }
    exists (temp :: ps). split.
    + rewrite Hinfo. rewrite <- app_assoc. reflexivity.
    + split; [simpl; rewrite Hlen; reflexivity|].
      intros i line p Hi Hp. destruct i as [|i].
      * simpl in Hi, Hp. inversion Hi; inversion Hp; subst.
        rewrite Hstep. unfold fs_before at 1. simpl.
        rewrite Nat.add_0_r. unfold fs_before. simpl.
        rewrite Nat.add_0_r. exact Hrow.
      * simpl in Hi, Hp. rewrite !Hstep.
        specialize (Hnth i line p Hi Hp). subst c.
        rewrite !Nat.add_assoc. exact Hnth.
Qed.

(** The whole parse, split at the header row. *)
Lemma mmlsParser_rows pre header rows parsed b :
  (forall l, In l pre -> is_header l = false) ->
  is_header header = true ->
  mmlsParser (pre ++ header :: rows) = Some (parsed, b) ->
  List.length parsed = List.length rows
  /\ forall i line p,
      nth_error rows i = Some line ->
      nth_error parsed i = Some p ->
      row (fs_before rows i) (tokens line)
      = Some (p, fs_before rows (S i)).
Proof.
  intros Hpre Hh Hparse. unfold mmlsParser in Hparse.
  destruct (loop_before_header pre init (header :: rows) eq_refl Hpre)
    as [b0 Hb0].
  rewrite Hb0 in Hparse. cbn [loop] in Hparse. unfold step in Hparse.
  cbn [negb slotFound] in Hparse. unfold is_header in Hh.
  rewrite Hh in Hparse.
  cbn [info partitionCounter Mmls.bs init] in Hparse.
  destruct (loop (mkVars [] (scan_units b0 header) true 0) rows)
    as [v'|] eqn:Hloop; [|discriminate].
  inversion Hparse; subst.
  apply loop_rows in Hloop; [|reflexivity].
  destruct Hloop as [ps [Hinfo [Hlen Hnth]]].
  cbn [info partitionCounter] in Hinfo, Hnth. cbn [app] in Hinfo.
  rewrite Hinfo. split; [exact Hlen|exact Hnth].
Qed.

End MmlsFacts.

Section MmlsFields.

Import Mmls.

(** What [row] reads, token by token. *)
Lemma row_fields counter t p c :
  row counter t = Some (p, c) ->
  nth_error t 2 = Some (Slot p)
  /\ (if Slot p =? "Meta"
      then nth_error t 8 = Some (Start p)
           /\ nth_error t 11 = Some (End_ p)
           /\ nth_error t 14 = Some (Length p)
           /\ Description p = Py.join " " (Py.drop 17 t)
           /\ FileSystem p = "No"
      else nth_error t 5 = Some (Start p)
           /\ nth_error t 8 = Some (End_ p)
           /\ nth_error t 11 = Some (Length p)
           /\ Description p
              = Py.join " " (Py.drop 14 t)
                ++ (if Py.contains ":" (Slot p)
                    then "_fs" ++ Py.str_of_nat counter else "")
           /\ FileSystem p
              = (if Py.contains ":" (Slot p) then "Yes" else "No")).
Proof.
  unfold row. destruct (nth_error t 2) as [slot|]; [|discriminate].
  destruct (slot =? "Meta") eqn:Hm.
  - destruct (nth_error t 8), (nth_error t 11), (nth_error t 14);
      try discriminate.
    intros H; inversion H; subst. cbn [Slot Start End_ Length Description
                                        FileSystem].
    rewrite Hm. repeat split; reflexivity.
  - destruct (nth_error t 5), (nth_error t 8), (nth_error t 11);
      try discriminate.
    destruct (Py.contains ":" slot) eqn:Hc; intros H; inversion H; subst;
      cbn [Slot Start End_ Length Description FileSystem];
      rewrite Hm, Hc; repeat split; try reflexivity.
    symmetry. apply append_empty_r.
Qed.

(** A row with fifteen tokens or more always parses. *)
Lemma row_total counter t :
  15 <= List.length t -> exists p c, row counter t = Some (p, c).
Proof.
  intros Hlen.
  assert (Hn : forall n, n < 15 -> exists x, nth_error t n = Some x).
  { intros n Hlt. destruct (nth_error t n) eqn:E; [eauto|].
    apply nth_error_None in E. lia. }
  unfold row.
  destruct (Hn 2) as [slot ->]; [lia|].
  destruct (Hn 5) as [t5 ->]; [lia|].
  destruct (Hn 8) as [t8 ->]; [lia|].
  destruct (Hn 11) as [t11 ->]; [lia|].
  destruct (Hn 14) as [t14 ->]; [lia|].
  destruct (slot =? "Meta"); [eauto|].
  destruct (Py.contains ":" slot); eauto.
Qed.

(** The parser returns when every line after the header has fifteen
    tokens or more. *)
Lemma loop_total f : forall v,
  (forall l, In l f -> 15 <= List.length (tokens l)) ->
  exists v', loop v f = Some v'.
Proof.
  induction f as [|l f IH]; intros v Hall.
  - exists v. reflexivity.
  - cbn [loop]. unfold step.
    destruct (negb (slotFound v)).
    + destruct (Py.mem "Slot" (tokens l));
        apply IH; intros l' Hin; apply Hall; right; exact Hin.
    + destruct (row_total (partitionCounter v) (tokens l)) as [p [c Hrow]].
      { apply Hall. left. reflexivity. }
      rewrite Hrow. apply IH. intros l' Hin. apply Hall. right. exact Hin.
Qed.

(** The block size follows every line, whatever [slotFound] is. *)
Lemma loop_bs f : forall v v',
  loop v f = Some v' ->
  Mmls.bs v' = fold_left scan_units f (Mmls.bs v).
Proof.
  induction f as [|l f IH]; intros v v' Hloop.
  - cbn [loop] in Hloop. inversion Hloop. reflexivity.
  - cbn [loop] in Hloop. cbn [fold_left].
    destruct (step v l) as [v1|] eqn:Hstep; [|discriminate].
    rewrite (IH _ _ Hloop). f_equal.
    unfold step in Hstep.
    destruct (negb (slotFound v)).
    + destruct (Py.mem "Slot" (tokens l)); inversion Hstep; reflexivity.
    + destruct (row (partitionCounter v) (tokens l)) as [[temp c]|];
        inversion Hstep; reflexivity.
Qed.

Lemma scan_units_quiet post : forall b,
  (forall l, In l post -> Py.contains units_marker l = false) ->
  fold_left scan_units post b = b.
Proof.
  induction post as [|l post IH]; intros b Hq; [reflexivity|].
  cbn [fold_left]. unfold scan_units at 2.
  rewrite (Hq l (or_introl eq_refl)).
  apply IH. intros l' Hin. apply Hq. right. exact Hin.
Qed.

Lemma fs_before_S rows : forall i line,
  nth_error rows i = Some line ->
  fs_before rows (S i)
  = fs_before rows i + (if is_fs_row line then 1 else 0).
Proof.
  induction rows as [|l rows IH]; intros i line Hi.
  - destruct i; discriminate.
  - destruct i as [|i].
    + cbn in Hi. inversion Hi; subst. unfold fs_before.
      cbn [firstn filter]. destruct (is_fs_row line); reflexivity.
    + cbn [nth_error] in Hi. specialize (IH i line Hi).
      unfold fs_before in *. rewrite !firstn_cons. cbn [filter].
      destruct (is_fs_row l); cbn [List.length]; rewrite IH; reflexivity.
Qed.

Lemma fs_before_step rows i : fs_before rows i <= fs_before rows (S i).
Proof.
  destruct (nth_error rows i) as [line|] eqn:Hi.
  - rewrite (fs_before_S rows i line Hi). lia.
  - apply nth_error_None in Hi. unfold fs_before.
    rewrite !firstn_all2 by lia. lia.
Qed.

Lemma fs_before_mono rows i j :
  i <= j -> fs_before rows i <= fs_before rows j.
Proof.
  induction 1 as [|j Hle IH]; [lia|].
  pose proof (fs_before_step rows j). lia.
Qed.

End MmlsFields.

(** The slice cut out of a units line is the text between the marker and
    the dash when those are where [find] looks for them. *)
Lemma units_of_between a x rest :
  let line := a ++ Mmls.units_marker ++ x ++ "-" ++ rest in
  Py.find line Mmls.units_marker = Z.of_nat (String.length a) ->
  Py.find line "-"
  = Z.of_nat (String.length a + String.length Mmls.units_marker
              + String.length x) ->
  Mmls.units_of line = x.
Proof.
  intros line Hm Hd. unfold Mmls.units_of. rewrite Hm, Hd.
  unfold Py.slice, Py.bound.
  assert (Hlen : String.length line
                 = String.length a + String.length Mmls.units_marker
                   + String.length x + S (String.length rest)).
  { unfold line. rewrite !length_append. cbn [String.length]. lia. }
  rewrite Hlen.
  set (la := String.length a). set (lm := String.length Mmls.units_marker).
  set (lx := String.length x).
  destruct (Z.ltb_spec (Z.of_nat la + Z.of_nat lm) 0); [lia|].
  destruct (Z.ltb_spec (Z.of_nat (la + lm + lx)) 0); [lia|].
  rewrite !Z.max_r by lia. rewrite !Z.min_r by lia.
  replace (Z.to_nat (Z.of_nat la + Z.of_nat lm)) with (la + lm) by lia.
  replace (Z.to_nat (Z.of_nat (la + lm + lx) - (Z.of_nat la + Z.of_nat lm)))
    with lx by lia.
  unfold line.
  rewrite <- (append_assoc a Mmls.units_marker).
  replace (la + lm) with (String.length (a ++ Mmls.units_marker))
    by apply length_append.
  rewrite substring_skip. apply substring_take.
Qed.

(** ** Claims on the partition-table parser *)

(** C2 (as stated, refuted).  On the row of a Linux partition printed by
    the partition lister, the parser reads the start [0000002048], while
    token 5 of the whitespace-split row is ["Linux"] and the
    whitespace-split row has no token 8: the positions 5/8/11 are not
    positions in the whitespace-split row. *)
Lemma C2_whitespace_positions_differ :
  exists parsed b p,
    Mmls.mmlsParser Sample.table = Some (parsed, b)
    /\ nth_error Sample.table 7 = Some Sample.linux_row
    /\ nth_error parsed 2 = Some p
    /\ Start p = "0000002048"
    /\ nth_error (Spec.split_whitespace Sample.linux_row) 5 = Some "Linux"
    /\ nth_error (Spec.split_whitespace Sample.linux_row) 8 = None
    /\ Spec.fields Sample.linux_row <> Some (Start p, End_ p, Length p).
Proof.
  eexists. eexists. eexists.
  split; [vm_compute; reflexivity|].
  split; [reflexivity|].
  split; [reflexivity|].
  split; [reflexivity|].
  split; [reflexivity|].
  split; [reflexivity|].
  vm_compute. discriminate.
Qed.

(** C2 (amended).  For every row after the header, the parser strips the
    row and splits it at every single space, so that a run of spaces
    yields empty tokens that count as positions; it reads the fields by
    position in that list: a row whose token 2 is ["Meta"] takes
    start/end/length from tokens 8/11/14 and its description is the join
    of tokens 17 onward; any other row takes start/end/length from tokens
    5/8/11 and its description is the join of tokens 14 onward, followed
    by the filesystem suffix when token 2 contains a colon. *)
Theorem C2_fields_by_space_position pre header rows parsed b i line :
  (forall l, In l pre -> Mmls.is_header l = false) ->
  Mmls.is_header header = true ->
  Mmls.mmlsParser (pre ++ header :: rows) = Some (parsed, b) ->
  nth_error rows i = Some line ->
  let t := Py.split (Py.strip line) " " in
  exists p,
    nth_error parsed i = Some p
    /\ nth_error t 2 = Some (Slot p)
    /\ (if Slot p =? "Meta"
        then nth_error t 8 = Some (Start p)
             /\ nth_error t 11 = Some (End_ p)
             /\ nth_error t 14 = Some (Length p)
             /\ Description p = Py.join " " (Py.drop 17 t)
        else nth_error t 5 = Some (Start p)
             /\ nth_error t 8 = Some (End_ p)
             /\ nth_error t 11 = Some (Length p)
             /\ Description p
                = Py.join " " (Py.drop 14 t)
                  ++ (if Py.contains ":" (Slot p)
                      then "_fs" ++ Py.str_of_nat (Mmls.fs_before rows i)
                      else "")).
Proof.
  intros Hpre Hh Hparse Hline t.
  destruct (mmlsParser_rows _ _ _ _ _ Hpre Hh Hparse) as [Hlen Hrows].
  destruct (nth_error parsed i) as [p|] eqn:Hp.
  - exists p. split; [reflexivity|].
    pose proof (row_fields _ _ _ _ (Hrows i line p Hline Hp)) as [H2 Hf].
    split; [exact H2|].
    destruct (Slot p =? "Meta").
    + destruct Hf as [H8 [H11 [H14 [Hd _]]]]. auto.
    + destruct Hf as [H5 [H8 [H11 [Hd _]]]]. auto.
  - apply nth_error_None in Hp.
    assert (i < List.length rows) by (apply nth_error_Some; congruence).
    lia.
Qed.

(** The row of the Linux partition in the sample table. *)
Lemma C2_fields_by_space_position_witness :
  let t := Py.split (Py.strip Sample.linux_row) " " in
  exists p,
    nth_error Sample.parsed 2 = Some p
    /\ nth_error t 2 = Some (Slot p)
    /\ (if Slot p =? "Meta"
        then nth_error t 8 = Some (Start p)
             /\ nth_error t 11 = Some (End_ p)
             /\ nth_error t 14 = Some (Length p)
             /\ Description p = Py.join " " (Py.drop 17 t)
        else nth_error t 5 = Some (Start p)
             /\ nth_error t 8 = Some (End_ p)
             /\ nth_error t 11 = Some (Length p)
             /\ Description p
                = Py.join " " (Py.drop 14 t)
                  ++ (if Py.contains ":" (Slot p)
                      then "_fs" ++ Py.str_of_nat
                                      (Mmls.fs_before Sample.rows 2)
                      else "")).
Proof.
  apply (C2_fields_by_space_position Sample.before_header Sample.header
           Sample.rows Sample.parsed Sample.block 2 Sample.linux_row).
  - intros l [<-|[<-|[<-|[<-|[]]]]]; reflexivity.
  - reflexivity.
  - vm_compute. reflexivity.
  - reflexivity.
Defined.

(** C5.  After the header, the rows that are not ["Meta"] rows and whose
    token 2 contains a colon get the suffixes [_fs0], [_fs1], ... in the
    order they are met: the number of a row is the number of such rows
    before it, so the numbers start at 0 and increase strictly; every
    other row gets no suffix and [FileSystem = "No"]. *)
Theorem C5_fs_suffixes pre header rows parsed b :
  (forall l, In l pre -> Mmls.is_header l = false) ->
  Mmls.is_header header = true ->
  Mmls.mmlsParser (pre ++ header :: rows) = Some (parsed, b) ->
  (forall i line,
     nth_error rows i = Some line ->
     exists p,
       nth_error parsed i = Some p
       /\ if Mmls.is_fs_row line
          then FileSystem p = "Yes"
               /\ Description p
                  = Py.join " " (Py.drop 14 (Mmls.tokens line))
                    ++ "_fs" ++ Py.str_of_nat (Mmls.fs_before rows i)
          else FileSystem p = "No"
               /\ Description p
                  = Py.join " "
                      (Py.drop (if Mmls.is_meta_row line then 17 else 14)
                         (Mmls.tokens line)))
  /\ (forall i j line,
        i < j ->
        nth_error rows i = Some line ->
        Mmls.is_fs_row line = true ->
        Mmls.fs_before rows i < Mmls.fs_before rows j).
Proof.
  intros Hpre Hh Hparse. split.
  - intros i line Hline.
    destruct (mmlsParser_rows _ _ _ _ _ Hpre Hh Hparse) as [Hlen Hrows].
    destruct (nth_error parsed i) as [p|] eqn:Hp.
    + exists p. split; [reflexivity|].
      pose proof (row_fields _ _ _ _ (Hrows i line p Hline Hp)) as [H2 Hf].
      unfold Mmls.is_fs_row, Mmls.is_meta_row. rewrite H2.
      destruct (Slot p =? "Meta"); cbn [negb andb].
      * destruct Hf as [_ [_ [_ [Hd Hfs]]]]. auto.
      * destruct Hf as [_ [_ [_ [Hd Hfs]]]].
        destruct (Py.contains ":" (Slot p)).
        -- auto.
        -- rewrite append_empty_r in Hd. auto.
    + apply nth_error_None in Hp.
      assert (i < List.length rows) by (apply nth_error_Some; congruence).
      lia.
  - intros i j line Hij Hline Hfs.
    pose proof (fs_before_S rows i line Hline) as HS. rewrite Hfs in HS.
    pose proof (fs_before_mono rows (S i) j Hij). lia.
Qed.

(** The four rows of the sample table. *)
Lemma C5_fs_suffixes_witness :
  (forall i line,
     nth_error Sample.rows i = Some line ->
     exists p,
       nth_error Sample.parsed i = Some p
       /\ if Mmls.is_fs_row line
          then FileSystem p = "Yes"
               /\ Description p
                  = Py.join " " (Py.drop 14 (Mmls.tokens line))
                    ++ "_fs" ++ Py.str_of_nat (Mmls.fs_before Sample.rows i)
          else FileSystem p = "No"
               /\ Description p
                  = Py.join " "
                      (Py.drop (if Mmls.is_meta_row line then 17 else 14)
                         (Mmls.tokens line)))
  /\ (forall i j line,
        i < j ->
        nth_error Sample.rows i = Some line ->
        Mmls.is_fs_row line = true ->
        Mmls.fs_before Sample.rows i < Mmls.fs_before Sample.rows j).
Proof.
  apply (C5_fs_suffixes Sample.before_header Sample.header Sample.rows
           Sample.parsed Sample.block).
  - intros l [<-|[<-|[<-|[<-|[]]]]]; reflexivity.
  - reflexivity.
  - vm_compute. reflexivity.
Defined.

(** The two filesystem rows of the sample get [_fs0] and [_fs1]. *)
Example sample_descriptions :
  map Description Sample.parsed
  = [ "Primary Table (#0)"; "Unallocated"; "Linux (0x83)_fs0";
      "NTFS / exFAT (0x07)_fs1" ].
Proof. vm_compute. reflexivity. Qed.

(** C8 (as stated, refuted).  A row after the header that contains the
    units marker changes the returned block size: with the row the
    parser returns ["4096"], without it ["512"]. *)
Lemma C8_row_after_header_changes_block_size :
  Mmls.is_header Sample.header = true
  /\ (forall l, In l Sample.before_header -> Mmls.is_header l = false)
  /\ option_map snd
       (Mmls.mmlsParser (Sample.before_header ++ Sample.header :: Sample.rows))
     = Some (inr "512")
  /\ option_map snd
       (Mmls.mmlsParser
          (Sample.before_header ++ Sample.header
             :: (Sample.rows ++ [Sample.units_row])%list))
     = Some (inr "4096").
Proof.
  split; [reflexivity|].
  split; [intros l [<-|[<-|[<-|[<-|[]]]]]; reflexivity|].
  split; vm_compute; reflexivity.
Qed.

(** C8 (amended).  The units marker is looked for on every line, before
    and after the header row.  The returned block size is cut out of the
    last line that contains the marker, whether that line precedes or
    follows the header: it is the slice from the end of the first
    occurrence of the marker to the first dash of the line, which is the
    text between the marker and the dash that follows it when the line
    has no earlier dash; a parse with no such line returns [-1]. *)
Theorem C8_block_size_from_last_units_line f parsed b :
  Mmls.mmlsParser f = Some (parsed, b) ->
  (forall before line after,
      f = (before ++ line :: after)%list ->
      Py.contains Mmls.units_marker line = true ->
      (forall l, In l after -> Py.contains Mmls.units_marker l = false) ->
      b = inr (Mmls.units_of line)
      /\ forall a x rest,
          line = a ++ Mmls.units_marker ++ x ++ "-" ++ rest ->
          Py.find line Mmls.units_marker = Z.of_nat (String.length a) ->
          Py.find line "-"
          = Z.of_nat (String.length a + String.length Mmls.units_marker
                      + String.length x) ->
          b = inr x)
  /\ ((forall l, In l f -> Py.contains Mmls.units_marker l = false) ->
      b = inl (-1)%Z).
Proof.
  intros Hparse. unfold Mmls.mmlsParser in Hparse.
  destruct (Mmls.loop Mmls.init f) as [v|] eqn:Hloop; [|discriminate].
  inversion Hparse; subst. clear Hparse.
  pose proof (loop_bs _ _ _ Hloop) as Hbs. cbn [Mmls.bs Mmls.init] in Hbs.
  split.
  - intros before line after Hf Hm Hafter.
    assert (Hb : Mmls.bs v = inr (Mmls.units_of line)).
    { rewrite Hbs, Hf, fold_left_app. cbn [fold_left].
      rewrite scan_units_quiet by exact Hafter.
      unfold Mmls.scan_units. rewrite Hm. reflexivity. }
    split; [exact Hb|].
    intros a x rest Hline Hfm Hfd. rewrite Hb. f_equal.
    rewrite Hline in *. apply units_of_between; assumption.
  - intros Hnone. rewrite Hbs. apply scan_units_quiet. exact Hnone.
Qed.

(** The sample table followed by a row that repeats the units text. *)
Lemma C8_block_size_from_last_units_line_witness :
  (forall before line after,
      (Sample.table ++ [Sample.units_row])%list
      = (before ++ line :: after)%list ->
      Py.contains Mmls.units_marker line = true ->
      (forall l, In l after -> Py.contains Mmls.units_marker l = false) ->
      (inr "4096" : BlockSize) = inr (Mmls.units_of line)
      /\ forall a x rest,
          line = a ++ Mmls.units_marker ++ x ++ "-" ++ rest ->
          Py.find line Mmls.units_marker = Z.of_nat (String.length a) ->
          Py.find line "-"
          = Z.of_nat (String.length a + String.length Mmls.units_marker
                      + String.length x) ->
          (inr "4096" : BlockSize) = inr x)
  /\ ((forall l, In l (Sample.table ++ [Sample.units_row])%list ->
       Py.contains Mmls.units_marker l = false) ->
      (inr "4096" : BlockSize) = inl (-1)%Z).
Proof.
  apply (C8_block_size_from_last_units_line
           (Sample.table ++ [Sample.units_row])%list
           (Sample.parsed
            ++ [mkPartition "000:002" "No" (Some "") (Some "") "No"
                  "0002097152" "0002097663" "0000000512"
                  "Units are in 4096-byte blocks_fs2" "Yes"
                  "Units_are_in_4096-byte_blocks_fs2" None None])%list
           (inr "4096")).
  vm_compute. reflexivity.
Defined.

(** ** Claims on the tree builder *)

(** C3 (the code at the failing input).  For a directory [/r] that holds
    the siblings [foo] and [foobar], the builder attaches [/r/foobar],
    with its contents, to [/r/foo]: the test is [sub.startswith(d)] on
    the path strings, although [/r/foobar] does not lie below [/r/foo]
    segment by segment. *)
Theorem C3_foobar_folded_under_foo :
  FilesTree.getFilesTree Sample.walk_foo_first
  = Some [("/r",
           mkNode []
             [("/r/foo",
               mkNode []
                 [("/r/foobar",
                   mkNode [] [("/r/foobar/x", mkNode [] [])])])])]
  /\ Py.startswith "/r/foobar" "/r/foo" = true
  /\ Spec.below "/r/foobar" "/r/foo" = false
  /\ Spec.below "/r/foobar" "/r" = true.
Proof. repeat split; vm_compute; reflexivity. Qed.

(** C4 (the code at the failing input).  Two walks of the same unchanged
    directory, both visiting parents before children and differing only
    in the order of the siblings [foo] and [foobar], give trees that are
    not isomorphic: [/r/foobar/x] is attached to [/r/foobar] in one and
    to [/r/foo] in the other. *)
Theorem C4_sibling_order_changes_tree :
  exists t1 t2,
    FilesTree.getFilesTree Sample.walk_foo_first = Some t1
    /\ FilesTree.getFilesTree Sample.walk_foobar_first = Some t2
    /\ FilesTree.same_elements (map (fun e => fst (fst e)) Sample.walk_foo_first)
         (map (fun e => fst (fst e)) Sample.walk_foobar_first) = true
    /\ FilesTree.parent_of "/r/foobar/x" t1 = Some "/r/foobar"
    /\ FilesTree.parent_of "/r/foobar/x" t2 = Some "/r/foo"
    /\ FilesTree.tree_iso t1 t2 = false.
Proof.
  eexists. eexists.
  split; [vm_compute; reflexivity|].
  split; [vm_compute; reflexivity|].
  repeat split; vm_compute; reflexivity.
Qed.

(** ** The registry under the effects *)

Lemma nth_error_update_nth {A} (f : A -> A) l : forall i j,
  nth_error (update_nth i f l) j
  = if (i =? j)%nat then option_map f (nth_error l j) else nth_error l j.
Proof.
  induction l as [|x l IH]; intros i j.
  - destruct i, j; cbn [update_nth nth_error option_map];
      try reflexivity; destruct (_ =? _)%nat; reflexivity.
  - destruct i as [|i], j as [|j]; cbn [update_nth nth_error Nat.eqb];
      try reflexivity.
    apply IH.
Qed.

Lemma nth_error_update_same {A} (f : A -> A) l i x :
  nth_error l i = Some x ->
  nth_error (update_nth i f l) i = Some (f x).
Proof.
  intros H. rewrite nth_error_update_nth, Nat.eqb_refl, H. reflexivity.
Qed.

Lemma length_update_nth {A} (f : A -> A) l : forall i,
  List.length (update_nth i f l) = List.length l.
Proof.
  induction l as [|x l IH]; intros [|i]; cbn [update_nth List.length];
    try reflexivity.
  rewrite IH. reflexivity.
Qed.

Lemma update_at_found i f w p :
  nth_error (listOfPartitions w) i = Some p ->
  update_at i f w
  = (mkWorld (update_nth i f (listOfPartitions w)) (events w), Some tt).
Proof. intros H. unfold update_at. rewrite H. reflexivity. Qed.

Lemma contains_empty sub :
  Py.truthy sub = true -> Py.contains sub "" = false.
Proof. destruct sub; [discriminate|reflexivity]. Qed.

Lemma update_nth_twice {A} (f g : A -> A) l : forall i,
  update_nth i g (update_nth i f l) = update_nth i (fun x => g (f x)) l.
Proof.
  induction l as [|x l IH]; intros [|i]; cbn [update_nth]; try reflexivity.
  rewrite IH. reflexivity.
Qed.

(** Two assignments to the dict at one index, one after the other. *)
Lemma update_at_twice i f g (k : M bool) w p :
  nth_error (listOfPartitions w) i = Some p ->
  (update_at i f ;; update_at i g ;; k) w
  = k (mkWorld (update_nth i (fun x => g (f x)) (listOfPartitions w))
         (events w)).
Proof.
  intros H. unfold bind at 1. rewrite (update_at_found _ _ _ _ H).
  unfold bind at 1.
  rewrite (update_at_found i g _ (f p)).
  - cbn [listOfPartitions events]. rewrite update_nth_twice. reflexivity.
  - cbn [listOfPartitions]. apply nth_error_update_same. exact H.
Qed.

(** ** The carve job *)

Section CarveJob.

Import CarveThread.

(** What the classification does to the world: it never raises when
    the index is in the registry, and it marks the partition as carved
    exactly when [carve_success] holds. *)
Lemma classify_result pos name outPath stdout stderr w p :
  nth_error (listOfPartitions w) pos = Some p ->
  exists evs,
    classify pos name outPath stdout stderr w
    = (mkWorld
         (if carve_success stdout stderr
          then update_nth pos (carved outPath) (listOfPartitions w)
          else listOfPartitions w)
         (events w ++ evs)%list,
       Some (carve_success stdout stderr)).
Proof.
  intros Hp. unfold classify, carve_success.
  destruct (Py.truthy stdout) eqn:Hout.
  - destruct (Py.contains "records" stdout) eqn:Hrec; cbn [orb negb andb].
    + eexists. unfold insertCommand, put, emit, bind at 1 2.
      cbn [listOfPartitions events].
      rewrite (update_at_twice _ _ _ _ _ p) by exact Hp.
      unfold ret. cbn [listOfPartitions events].
      rewrite <- app_assoc. reflexivity.
    + destruct (Py.truthy stderr).
      * exists []. unfold ret. rewrite app_nil_r. destruct w; reflexivity.
      * eexists. unfold put, emit, bind, ret.
        cbn [listOfPartitions events]. reflexivity.
  - assert (Hempty : stdout = "") by (destruct stdout; [reflexivity|discriminate]).
    subst stdout. cbn [Py.contains prefix orb negb andb].
    destruct (Py.truthy stderr) eqn:Herr.
    + destruct (Py.contains "records" stderr) eqn:Hrec.
      * eexists. unfold put, emit, bind at 1.
        cbn [listOfPartitions events].
        rewrite (update_at_twice _ _ _ _ _ p) by exact Hp.
        unfold ret. cbn [listOfPartitions events]. reflexivity.
      * eexists. unfold put, emit, bind, ret.
        cbn [listOfPartitions events]. reflexivity.
    + assert (Hempty : stderr = "")
        by (destruct stderr; [reflexivity|discriminate]).
      subst stderr. cbn [Py.contains prefix orb].
      eexists. unfold put, emit, bind, ret.
      cbn [listOfPartitions events]. reflexivity.
Qed.

(** A success needs the token in one of the two streams. *)
Lemma success_requires_token stdout stderr :
  carve_success stdout stderr = true ->
  Py.contains "records" stdout = true \/ Py.contains "records" stderr = true.
Proof.
  unfold carve_success. destruct (Py.contains "records" stdout); [auto|].
  cbn [orb]. intros H. apply andb_true_iff in H. right. apply H.
Qed.

(** The token on the standard output is always a success, and so is the
    token on the standard error when the standard output is empty. *)
Lemma token_gives_success stdout stderr :
  Py.contains "records" stdout = true
  \/ (stdout = "" /\ Py.contains "records" stderr = true) ->
  carve_success stdout stderr = true.
Proof.
  unfold carve_success. intros [H|[-> H]].
  - rewrite H. reflexivity.
  - rewrite H. reflexivity.
Qed.

End CarveJob.

Section CarveProbe.

Import CarveThread.

Lemma probe_world env pos p outPath w q :
  FileSystem p = "Yes" ->
  nth_error (listOfPartitions w) pos = Some q ->
  let cmd := [fsstatPath env; outPath] in
  let w' := fst (probe env pos p outPath w) in
  In (Popen cmd) (events w')
  /\ (Py.truthy (fst (tools env cmd)) = true ->
      nth_error (listOfPartitions w') pos
      = Some (set_FSType (fsstatParser (fst (tools env cmd))) q)).
Proof.
  intros Hfs Hq cmd w'. subst w'. unfold probe. rewrite Hfs.
  cbn [String.eqb Ascii.eqb Bool.eqb andb]. fold cmd.
  destruct (tools env cmd) as [stdout stderr]. cbn [fst].
  unfold bind, put, emit, raise, update_at, ret.
  destruct (Py.truthy stdout); cbn [listOfPartitions events].
  - rewrite Hq. destruct (fsstatParser stdout) as [t|];
      cbn [fst listOfPartitions events].
    + split.
      * rewrite !in_app_iff. left. left. right. left. reflexivity.
      * intros _. apply nth_error_update_same. exact Hq.
    + split.
      * rewrite !in_app_iff. left. right. left. reflexivity.
      * intros _. apply nth_error_update_same. exact Hq.
  - cbn [fst listOfPartitions events]. split.
    + rewrite !in_app_iff. left. left. right. left. reflexivity.
    + discriminate.
Qed.

End CarveProbe.

(** ** Claims on the carve job *)

Lemma fst_then_ret {A B} (m : M A) (x : B) w :
  fst ((m ;; ret x) w) = fst (m w).
Proof. unfold bind, ret. destruct (m w) as [w' [a|]]; reflexivity. Qed.

(** C1 (the code at the failing input).  When the copier writes
    something without the token on its standard output and the token on
    its standard error, the token appears in one of the two streams and
    yet the job is not a success: the flag is false and the partition is
    left as it was; the branch that was to accept it tests the standard
    output again.  The same pair with an empty standard output is a
    success. *)
Theorem C1_records_on_stderr_is_not_success :
  Py.contains "records" "5+0 records out" = true
  /\ CarveThread.carve_success "x" "5+0 records out" = false
  /\ (forall pos name outPath w,
        CarveThread.classify pos name outPath "x" "5+0 records out" w
        = (w, Some false))
  /\ CarveThread.carve_success "" "5+0 records out" = true.
Proof.
  split; [reflexivity|]. split; [reflexivity|]. split; [|reflexivity].
  intros pos name outPath w. reflexivity.
Qed.

(** The three pairs named by the specification are classified as it says. *)
Example stated_pairs :
  CarveThread.carve_success "1000 records in" "" = true
  /\ CarveThread.carve_success "" "" = false
  /\ CarveThread.carve_success "" "0 records out" = true.
Proof. repeat split; reflexivity. Qed.

(** Once the copier has been run, the job goes on to the probe with the
    partition still in the registry, whatever the copier printed. *)
Lemma run_reaches_probe env registry evs pos path p b :
  nth_error registry pos = Some p ->
  bs env = inr b ->
  exists w1 q,
    fst (CarveThread.run env pos path (mkWorld registry evs))
    = fst (CarveThread.probe env pos p (path ++ "/" ++ Name p) w1)
    /\ nth_error (listOfPartitions w1) pos = Some q.
Proof.
  intros Hp Hbs.
  unfold CarveThread.run. unfold bind at 1. unfold partition_at at 1.
  cbn [listOfPartitions]. rewrite Hp.
  unfold bind at 1. unfold put at 1, emit at 1. cbn [listOfPartitions events].
  rewrite Hbs.
  unfold bind at 1. unfold emit at 1. cbn [listOfPartitions events].
  unfold bind at 1. unfold put at 1, emit at 1. cbn [listOfPartitions events].
  match goal with
  | |- context [tools env ?c] => destruct (tools env c) as [stdout stderr]
  end.
  unfold bind at 1.
  match goal with
  | |- context [CarveThread.classify pos ?n ?o ?a ?b ?w] =>
      destruct (classify_result pos n o a b w p Hp) as [evs' Hc];
      rewrite Hc
  end.
  cbn [listOfPartitions events].
  rewrite fst_then_ret.
  destruct (CarveThread.carve_success stdout stderr);
    eexists; eexists; (split; [reflexivity|]); cbn [listOfPartitions].
  - apply nth_error_update_same. exact Hp.
  - exact Hp.
Qed.

(** C10 (as stated, refuted).  After a table without a units line the
    block size is the integer [-1].  The job of the Linux partition, a
    filesystem, then raises while it builds the command of the copier:
    it has queued its first message, no process has been started, the
    prober in particular, and the registry is as it was. *)
Lemma C10_no_probe_without_units_line :
  let env := Cases.env_without_units in
  let r := CarveThread.run env 2 "/out" (mkWorld Sample.registry []) in
  option_map fst (Mmls.mmlsParser Cases.table_without_units)
  = Some Sample.parsed
  /\ bs env = inl (-1)%Z
  /\ option_map FileSystem (nth_error Sample.registry 2) = Some "Yes"
  /\ snd r = None
  /\ (forall cmd, ~ In (Popen cmd) (events (fst r)))
  /\ listOfPartitions (fst r) = Sample.registry.
Proof.
  cbv zeta. split; [vm_compute; reflexivity|].
  split; [vm_compute; reflexivity|]. split; [vm_compute; reflexivity|].
  split; [vm_compute; reflexivity|]. split; [|vm_compute; reflexivity].
  intros cmd. vm_compute. intros [H|[]]. discriminate.
Qed.

(** C10 (amended).  When the partition of a carve job is a filesystem
    and the block size is the string read from a units line, so that the
    command of the copier can be built and the copier is run, the prober
    is started on the output path of the job whatever the output of the
    copier was, and when the prober prints something the type parsed
    from it is stored on the partition, whether or not the carve was a
    success. *)
Theorem C10_probe_whatever_the_copier_printed
    env registry evs pos path p b :
  nth_error registry pos = Some p ->
  FileSystem p = "Yes" ->
  bs env = inr b ->
  let outPath := path ++ "/" ++ Name p in
  let probe_cmd := [fsstatPath env; outPath] in
  let w' := fst (CarveThread.run env pos path (mkWorld registry evs)) in
  In (Popen probe_cmd) (events w')
  /\ (Py.truthy (fst (tools env probe_cmd)) = true ->
      exists p',
        nth_error (listOfPartitions w') pos = Some p'
        /\ FSType p' = fsstatParser (fst (tools env probe_cmd))).
Proof.
  intros Hp Hfs Hbs outPath probe_cmd w'.
  destruct (run_reaches_probe env registry evs pos path p b Hp Hbs)
    as [w1 [q [Hrun Hq]]].
  subst w'. rewrite Hrun.
  destruct (probe_world env pos p outPath w1 q Hfs Hq) as [Hin Hstore].
  split; [exact Hin|].
  intros Hout. exists (set_FSType (fsstatParser (fst (tools env probe_cmd))) q).
  split; [apply Hstore; exact Hout|reflexivity].
Qed.

(** The job of the Linux partition on a machine whose copier prints
    nothing: the carve fails, the prober is run and its answer stored. *)
Lemma C10_probe_whatever_the_copier_printed_witness :
  let env := Sample.env Sample.silent_copier in
  let w' := fst (CarveThread.run env 2 "/out" (mkWorld Sample.registry [])) in
  snd (CarveThread.run env 2 "/out" (mkWorld Sample.registry [])) = Some false
  /\ In (Popen ["/usr/bin/fsstat"; "/out/Linux_(0x83)_fs0"]) (events w')
  /\ (Py.truthy
        (fst (Sample.silent_copier
                ["/usr/bin/fsstat"; "/out/Linux_(0x83)_fs0"])) = true ->
      exists p',
        nth_error (listOfPartitions w') 2 = Some p'
        /\ FSType p'
           = fsstatParser
               (fst (Sample.silent_copier
                       ["/usr/bin/fsstat"; "/out/Linux_(0x83)_fs0"]))).
Proof.
  split; [vm_compute; reflexivity|].
  apply (C10_probe_whatever_the_copier_printed
           (Sample.env Sample.silent_copier) Sample.registry [] 2 "/out"
           (mkPartition "000:000" "No" (Some "") (Some "") "No" "0000002048"
              "0001026047" "0001024000" "Linux (0x83)_fs0" "Yes"
              "Linux_(0x83)_fs0" (Some "No") (Some ""))
           "512").
  - vm_compute. reflexivity.
  - reflexivity.
  - vm_compute. reflexivity.
Defined.

(** ** Claims on recovery *)

(** Every dict built by the parser has the empty string as its path,
    not [None]. *)
Lemma loop_paths f : forall v v',
  Forall (fun p => Path p = Some "") (Mmls.info v) ->
  Mmls.loop v f = Some v' ->
  Forall (fun p => Path p = Some "") (Mmls.info v').
Proof.
  induction f as [|l f IH]; intros v v' Hall Hloop.
  - cbn [Mmls.loop] in Hloop. inversion Hloop; subst. exact Hall.
  - cbn [Mmls.loop] in Hloop.
    destruct (Mmls.step v l) as [v1|] eqn:Hstep; [|discriminate].
    apply (IH v1 v'); [|exact Hloop].
    unfold Mmls.step in Hstep.
    destruct (negb (Mmls.slotFound v)).
    + destruct (Py.mem "Slot" (Mmls.tokens l)); inversion Hstep; exact Hall.
    + destruct (Mmls.row (Mmls.partitionCounter v) (Mmls.tokens l))
        as [[temp c]|] eqn:Hrow; [|discriminate].
      inversion Hstep; subst. cbn [Mmls.info].
      apply Forall_app. split; [exact Hall|].
      constructor; [|constructor].
      apply (row_path _ _ _ _ Hrow).
  Qed.

Lemma parsed_paths f parsed b :
  Mmls.mmlsParser f = Some (parsed, b) ->
  Forall (fun p => Path (openDiskImage_init p) = Some "") parsed.
Proof.
  unfold Mmls.mmlsParser. intros H.
  destruct (Mmls.loop Mmls.init f) as [v|] eqn:Hloop; [|discriminate].
  inversion H; subst.
  apply (loop_paths f Mmls.init v); [constructor|exact Hloop].
Qed.

(** The guard of [recoverFiles] works for a path that is [None]: the
    tool is not started and the message is printed. *)
Lemma recover_guard_on_None env outFolder i w p :
  nth_error (listOfPartitions w) i = Some p ->
  Path p = None ->
  exists name,
    Recover.body env outFolder i w
    = (mkWorld (listOfPartitions w)
         (events w
          ++ [Console (tab ++ " " ++ "Attempting to recover files from "
                       ++ name ++ " partition...");
              Console (tab ++ " " ++ Recover.not_carved)])%list,
       Some tt).
Proof.
  intros Hp Hnone. eexists. unfold Recover.body.
  unfold bind at 1. unfold partition_at at 1. rewrite Hp.
  unfold bind at 1. unfold insertCommand at 1, emit at 1.
  cbn [listOfPartitions events text_line].
  unfold bind at 1. unfold partition_at at 1.
  cbn [listOfPartitions]. rewrite Hp. rewrite Hnone.
  unfold insertCommand, emit. cbn [listOfPartitions events text_line].
  rewrite <- app_assoc. reflexivity.
Qed.

(** C7 (the code at the failing input).  A partition that has not been
    carved has the path [""], which is not [None]; ticked in the window
    of the carve and passed to [recoverFiles], it goes past the guard:
    the recovery tool is started with the empty path and the message
    that asks to carve first is not printed. *)
Theorem C7_uncarved_partition_reaches_the_tool :
  let env := Sample.env Sample.silent_copier in
  let w := fst (Recover.recoverFiles env (carvePartitionsCheck [] 2) "/out"
                  (mkWorld Sample.registry [])) in
  option_map Carved (nth_error Sample.registry 2) = Some "No"
  /\ option_map Path (nth_error Sample.registry 2) = Some (Some "")
  /\ In (Popen ["/usr/bin/tsk_recover"; ""; "/out/out_Linux_2"]) (events w)
  /\ ~ In (Console (tab ++ " " ++ Recover.not_carved)) (events w).
Proof.
  split; [vm_compute; reflexivity|].
  split; [vm_compute; reflexivity|].
  split.
  - vm_compute. right. left. reflexivity.
  - vm_compute. intros [H|[H|[H|[]]]]; discriminate H.
Qed.

(** ** The progress flags across a session *)

Section Flags.

Import Session.

Variable strict : bool.

Lemma keeps_refl p : keeps strict p p.
Proof. unfold keeps. auto. Qed.

Lemma keeps_trans p q r :
  keeps strict p q -> keeps strict q r -> keeps strict p r.
Proof. unfold keeps. intros [H1 [H2 H3]] [K1 [K2 K3]]. auto. Qed.

Lemma evolves_refl r : evolves strict r r.
Proof. intros i p Hp. exists p. split; [exact Hp|apply keeps_refl]. Qed.

Lemma evolves_trans r1 r2 r3 :
  evolves strict r1 r2 -> evolves strict r2 r3 -> evolves strict r1 r3.
Proof.
  intros H12 H23 i p Hp.
  destruct (H12 i p Hp) as [q [Hq Kq]].
  destruct (H23 i q Hq) as [r [Hr Kr]].
  exists r. split; [exact Hr|exact (keeps_trans _ _ _ Kq Kr)].
Qed.

Lemma evolves_update i f r :
  (forall p, keeps strict p (f p)) ->
  evolves strict r (update_nth i f r).
Proof.
  intros Hf j p Hp. rewrite nth_error_update_nth, Hp.
  destruct (i =? j)%nat.
  - exists (f p). split; [reflexivity|apply Hf].
  - exists p. split; [reflexivity|apply keeps_refl].
Qed.

Lemma steady_ret {A} (a : A) : steady strict (ret a).
Proof. intros w. apply evolves_refl. Qed.

Lemma steady_raise {A} : steady strict (@raise A).
Proof. intros w. apply evolves_refl. Qed.

Lemma steady_emit e : steady strict (emit e).
Proof. intros w. apply evolves_refl. Qed.

Lemma steady_of_option {A} (o : option A) : steady strict (of_option o).
Proof. destruct o; [apply steady_ret|apply steady_raise]. Qed.

Lemma steady_partition_at i : steady strict (partition_at i).
Proof. intros w. apply evolves_refl. Qed.

Lemma steady_get_registry : steady strict get_registry.
Proof. intros w. apply evolves_refl. Qed.

Lemma steady_update_at i f :
  (forall p, keeps strict p (f p)) -> steady strict (update_at i f).
Proof.
  intros Hf w. unfold update_at.
  destruct (nth_error (listOfPartitions w) i).
  - cbn [fst listOfPartitions]. apply evolves_update. exact Hf.
  - apply evolves_refl.
Qed.

Lemma steady_bind {A B} (m : M A) (k : A -> M B) :
  steady strict m -> (forall a, steady strict (k a)) ->
  steady strict (bind m k).
Proof.
  intros Hm Hk w. unfold bind. specialize (Hm w).
  destruct (m w) as [w' [a|]]; cbn [fst] in *.
  - apply (evolves_trans _ _ _ Hm). apply Hk.
  - exact Hm.
Qed.

Lemma steady_for_each {A} (l : list A) (body : A -> M unit) :
  (forall x, steady strict (body x)) -> steady strict (for_each l body).
Proof.
  intros Hb. induction l as [|x l IH]; cbn [for_each].
  - apply steady_ret.
  - apply steady_bind; [apply Hb|intros _; exact IH].
Qed.

Lemma steady_insertCommand t d : steady strict (insertCommand t d).
Proof. apply steady_emit. Qed.

Lemma steady_put t d : steady strict (put t d).
Proof. apply steady_emit. Qed.

Lemma keeps_set_Carved p : keeps strict p (set_Carved "Yes" p).
Proof. unfold keeps. cbn. auto. Qed.

Lemma keeps_set_Path v p : keeps strict p (set_Path v p).
Proof. unfold keeps. cbn. auto. Qed.

Lemma keeps_set_FSType v p : keeps strict p (set_FSType v p).
Proof. unfold keeps. cbn. auto. Qed.

Lemma keeps_set_MD5Sum v p : keeps strict p (set_MD5Sum v p).
Proof. unfold keeps. cbn. auto. Qed.

Lemma keeps_set_CarvedFiles p : keeps strict p (set_CarvedFiles "Yes" p).
Proof. unfold keeps. cbn. auto. Qed.

Lemma keeps_set_Recovered p : keeps strict p (set_Recovered "Yes" p).
Proof. unfold keeps. cbn. auto. Qed.

End Flags.

Create HintDb steady.

#[local] Hint Resolve steady_ret steady_raise steady_emit steady_of_option
  steady_partition_at steady_get_registry steady_insertCommand steady_put
  keeps_set_Carved keeps_set_Path keeps_set_FSType keeps_set_MD5Sum
  keeps_set_CarvedFiles keeps_set_Recovered : steady.

(** Breaks a computation into its steps and closes the steps that leave
    the flags alone. *)
Ltac steady_step :=
  first
    [ solve [auto with steady]
    | apply steady_bind; [|intros ?]
    | apply steady_update_at; intros ?
    | apply steady_for_each; intros ?
    | match goal with
      | |- Session.steady _ (if ?c then _ else _) => destruct c eqn:?
      | |- Session.steady _ (match ?o with Some _ => _ | None => _ end) =>
          destruct o
      | |- Session.steady _ (match ?o with inl _ => _ | inr _ => _ end) =>
          destruct o
      | |- Session.steady _ (let '(_, _) := ?x in _) => destruct x eqn:?
      end ].

Ltac steady := repeat steady_step.

Section FlagsOfOperations.

Import Session.

Variable strict : bool.

Lemma steady_getMd5 env f m : steady strict (getMd5 env f m).
Proof. unfold getMd5. steady. Qed.

Lemma steady_classify pos name outPath so se :
  steady strict (CarveThread.classify pos name outPath so se).
Proof. unfold CarveThread.classify. steady. Qed.

Lemma steady_probe env pos p outPath :
  steady strict (CarveThread.probe env pos p outPath).
Proof. unfold CarveThread.probe. steady. Qed.

Lemma steady_run env pos path :
  steady strict (CarveThread.run env pos path).
Proof.
  unfold CarveThread.run. steady.
  - apply steady_classify.
  - apply steady_probe.
Qed.

End FlagsOfOperations.

#[local] Hint Resolve steady_getMd5 steady_classify steady_probe steady_run
  : steady.

Section FlagsOfDisplay.

Import Session.

Variable strict : bool.

Lemma steady_addItems env md5path : forall dir,
  steady strict (addItems env dir md5path).
Proof.
  fix IH 1. intros [f subs]. cbn [addItems].
  apply steady_bind.
  - apply steady_for_each. intros i. steady.
  - intros _. induction subs as [|[item n] r IHr].
    + apply steady_ret.
    + apply steady_bind; [apply steady_emit|intros _].
      apply steady_bind; [apply IH|intros _; exact IHr].
Qed.

Lemma steady_show_tree env dir : steady strict (show_tree env dir).
Proof.
  unfold show_tree. apply steady_for_each. intros [key n].
  apply steady_bind; [apply steady_emit|intros _].
  apply steady_addItems.
Qed.

End FlagsOfDisplay.

#[local] Hint Resolve steady_addItems steady_show_tree : steady.

Section FlagsOfCalls.

Import Session.

Variable strict : bool.

Lemma steady_checks env l : forall t, steady strict (Carve.checks env t l).
Proof.
  induction l as [|i l IH]; intros t; cbn [Carve.checks].
  - apply steady_ret.
  - apply steady_bind; [|intros t'; apply IH].
    unfold Carve.check. steady.
Qed.

Lemma steady_summary env sel : steady strict (Carve.summary env sel).
Proof.
  unfold Carve.summary. apply steady_bind; [apply steady_checks|intros t].
  steady.
Qed.

Lemma steady_carveFiles env dropVar types outFolder :
  steady strict (CarveFiles.carveFiles env dropVar types outFolder).
Proof.
  unfold CarveFiles.carveFiles. steady.
Qed.

End FlagsOfCalls.

Section FlagsOfRecovery.

Import Session.

Lemma keeps_reset_Recovered p : keeps false p (set_Recovered "No" p).
Proof. unfold keeps. cbn. repeat split; auto. discriminate. Qed.

Lemma truthy_false s : Py.truthy s = false -> s = "".
Proof. destruct s; [reflexivity|discriminate]. Qed.

Lemma steady_body strict env outFolder i :
  (strict = true -> tool_answers env) ->
  steady strict (Recover.body env outFolder i).
Proof.
  intros Hans. unfold Recover.body. steady.
  destruct strict.
  - exfalso.
    match goal with
    | E : tools env [_; ?a; ?b] = (?so, _), T : Py.truthy ?so = false |- _ =>
        apply (Hans eq_refl a b); rewrite E; cbn [fst];
        apply truthy_false; exact T
    end.
  - apply keeps_reset_Recovered.
Qed.

Lemma steady_recoverFiles strict env sel outFolder :
  (strict = true -> tool_answers env) ->
  steady strict (Recover.recoverFiles env sel outFolder).
Proof.
  intros Hans. unfold Recover.recoverFiles.
  destruct (negb (Py.truthy outFolder)); [apply steady_emit|].
  apply steady_for_each. intros i. apply steady_body. exact Hans.
Qed.

Lemma exec_evolves strict op w :
  (strict = true -> recovery_answers op) ->
  evolves strict (listOfPartitions w) (listOfPartitions (exec op w)).
Proof.
  intros Hans. destruct op; cbn [exec].
  - apply steady_run.
  - apply steady_summary.
  - apply steady_recoverFiles. exact Hans.
  - apply steady_carveFiles.
Qed.

Lemma run_evolves strict ops : forall w,
  (strict = true -> forall op, In op ops -> recovery_answers op) ->
  evolves strict (listOfPartitions w)
    (listOfPartitions (fold_left (fun w op => exec op w) ops w)).
Proof.
  induction ops as [|op ops IH]; intros w Hans; cbn [fold_left].
  - apply evolves_refl.
  - apply (evolves_trans strict _ (listOfPartitions (exec op w))).
    + apply exec_evolves. intros Hs. apply (Hans Hs). left. reflexivity.
    + apply IH. intros Hs op' Hin. apply (Hans Hs). right. exact Hin.
Qed.

End FlagsOfRecovery.


(** ** The queue of a carve run *)

Section Queue.

Import Orchestrator.

Variable scripts : list (list Msg).

Lemma steps_trans s1 s2 s3 :
  steps scripts s1 s2 -> steps scripts s2 s3 -> steps scripts s1 s3.
Proof.
  induction 1 as [|a b c Hab Hbc IH]; intros H3; [exact H3|].
  apply (steps_step scripts a b); [exact Hab|apply IH; exact H3].
Qed.

Lemma steps_one s1 s2 : step scripts s1 s2 -> steps scripts s1 s2.
Proof. intros H. apply (steps_step scripts s1 s2); [exact H|constructor]. Qed.

Lemma nth_error_set_thread t l : forall k j,
  nth_error (set_thread k t l) j
  = if (k =? j)%nat
    then match nth_error l j with Some _ => Some t | None => None end
    else nth_error l j.
Proof.
  induction l as [|x l IH]; intros k j.
  - destruct k, j; cbn [set_thread nth_error]; try reflexivity;
      destruct (_ =? _)%nat; reflexivity.
  - destruct k as [|k], j as [|j]; cbn [set_thread nth_error Nat.eqb];
      try reflexivity.
    apply IH.
Qed.

Lemma length_set_thread t l : forall k,
  List.length (set_thread k t l) = List.length l.
Proof.
  induction l as [|x l IH]; intros [|k]; cbn [set_thread List.length];
    try reflexivity.
  rewrite IH. reflexivity.
Qed.

Lemma of_thread_app k l1 l2 :
  of_thread k (l1 ++ l2) = (of_thread k l1 ++ of_thread k l2)%list.
Proof. unfold of_thread. rewrite filter_app, map_app. reflexivity. Qed.

Lemma of_thread_one k j m :
  of_thread k [(j, m)] = if (j =? k)%nat then [m] else [].
Proof. unfold of_thread. cbn. destruct (j =? k)%nat; reflexivity. Qed.

Lemma alive_thread l k todo :
  nth_error l k = Some (Alive todo) -> existsb is_alive l = true.
Proof.
  intros H. apply existsb_exists. exists (Alive todo).
  split; [apply (nth_error_In l k H)|reflexivity].
Qed.

Lemma work_zero l : work l = 0 -> existsb is_alive l = false.
Proof.
  induction l as [|[todo|] l IH]; cbn [work existsb is_alive orb];
    [reflexivity|discriminate|exact IH].
Qed.

Lemma work_positive l :
  0 < work l -> exists k todo, nth_error l k = Some (Alive todo).
Proof.
  induction l as [|[todo|] l IH]; cbn [work]; intros H.
  - lia.
  - exists 0, todo. reflexivity.
  - destruct (IH H) as [k [todo Hk]]. exists (S k), todo. exact Hk.
Qed.

Lemma work_put l : forall k m rest,
  nth_error l k = Some (Alive (m :: rest)) ->
  S (work (set_thread k (Alive rest) l)) = work l.
Proof.
  induction l as [|x l IH]; intros [|k] m rest H; try discriminate.
  - cbn in H. inversion H; subst. cbn. reflexivity.
  - cbn [nth_error] in H. cbn [set_thread].
    destruct x as [todo|]; cbn [work]; rewrite <- (IH k m rest H); lia.
Qed.

Lemma work_end l : forall k,
  nth_error l k = Some (Alive []) ->
  S (work (set_thread k Ended l)) = work l.
Proof.
  induction l as [|x l IH]; intros [|k] H; try discriminate.
  - cbn in H. inversion H; subst. cbn. reflexivity.
  - cbn [nth_error] in H. cbn [set_thread].
    destruct x as [todo|]; cbn [work]; rewrite <- (IH k H); lia.
Qed.

(** The threads that are alive can always run to their end. *)
Lemma threads_can_end n : forall s,
  work (threads s) <= n ->
  exists s',
    steps scripts s s' /\ pc s' = pc s /\ any_alive s' = false.
Proof.
  induction n as [|n IH]; intros s Hn.
  - exists s. split; [constructor|]. split; [reflexivity|].
    apply work_zero. lia.
  - destruct (Nat.eq_dec (work (threads s)) 0) as [Hz|Hz].
    + exists s. split; [constructor|]. split; [reflexivity|].
      apply work_zero. exact Hz.
    + destruct (work_positive (threads s)) as [k [todo Hk]]; [lia|].
      destruct todo as [|m rest].
      * destruct (IH (mkState (set_thread k Ended (threads s)) (queue s)
                        (shown s) (pc s))) as [s' [Hs [Hpc Hal]]].
        { cbn [threads]. pose proof (work_end _ _ Hk). lia. }
        exists s'. split; [|split; [exact Hpc|exact Hal]].
        eapply steps_step; [|exact Hs].
        apply step_end. exact Hk.
      * destruct (IH (mkState (set_thread k (Alive rest) (threads s))
                        (queue s ++ [(k, m)]) (shown s) (pc s)))
          as [s' [Hs [Hpc Hal]]].
        { cbn [threads]. pose proof (work_put _ _ _ _ Hk). lia. }
        exists s'. split; [|split; [exact Hpc|exact Hal]].
        eapply steps_step; [|exact Hs].
        apply step_put. exact Hk.
Qed.

(** The loop that starts the threads can always reach its end. *)
Lemma starting_can_end n : forall s,
  pc s = Starting ->
  List.length (threads s) + n = List.length scripts ->
  exists s', steps scripts s s' /\ pc s' = Waiting.
Proof.
  induction n as [|n IH]; intros s Hpc Hlen.
  - eexists. split; [apply steps_one, step_started; [exact Hpc|lia]|].
    reflexivity.
  - destruct (nth_error scripts (List.length (threads s))) as [sc|] eqn:Hsc.
    + destruct (IH (mkState (threads s ++ [Alive sc]) (queue s) (shown s)
                      Starting)) as [s' [Hs Hw]].
      * reflexivity.
      * cbn [threads]. rewrite length_app. cbn [List.length]. lia.
      * exists s'. split; [|exact Hw].
        eapply steps_step; [|exact Hs].
        apply step_start; assumption.
    + apply nth_error_None in Hsc. lia.
Qed.

(** Once no thread is alive, the caller empties the queue and returns. *)
Lemma flushing_can_end q : forall s,
  pc s = Flushing -> queue s = q ->
  exists s', steps scripts s s' /\ pc s' = Returned.
Proof.
  induction q as [|x q IH]; intros s Hpc Hq.
  - eexists. split; [apply steps_one, step_return; assumption|reflexivity].
  - destruct (IH (mkState (threads s) q (shown s ++ [x]) Flushing))
      as [s' [Hs Hr]]; [reflexivity|reflexivity|].
    exists s'. split; [|exact Hr].
    eapply steps_step; [|exact Hs].
    apply step_flush; assumption.
Qed.

Lemma waiting_can_end s :
  pc s = Waiting -> any_alive s = false ->
  exists s', steps scripts s s' /\ pc s' = Returned.
Proof.
  intros Hpc Hal.
  destruct (flushing_can_end (queue s)
              (mkState (threads s) (queue s) (shown s) Flushing))
    as [s' [Hs Hr]]; [reflexivity|reflexivity|].
  exists s'. split; [|exact Hr].
  eapply steps_step; [|exact Hs].
  apply step_leave; assumption.
Qed.

Lemma caller_can_end s :
  pc s <> Starting -> any_alive s = false ->
  exists s', steps scripts s s' /\ pc s' = Returned.
Proof.
  intros Hpc Hal. destruct (pc s) eqn:E.
  - congruence.
  - apply waiting_can_end; assumption.
  - destruct (queue s) as [|x q] eqn:Hq.
    + destruct (waiting_can_end
                  (mkState (threads s) (queue s) (shown s) Waiting))
        as [s' [Hs Hr]]; [reflexivity|exact Hal|].
      exists s'. split; [|exact Hr].
      eapply steps_step; [|exact Hs].
      apply step_idle; assumption.
    + destruct (waiting_can_end
                  (mkState (threads s) q (shown s ++ [x]) Waiting))
        as [s' [Hs Hr]]; [reflexivity|exact Hal|].
      exists s'. split; [|exact Hr].
      eapply steps_step; [|exact Hs].
      apply step_get; assumption.
  - apply (flushing_can_end (queue s)); [exact E|reflexivity].
  - exists s. split; [constructor|exact E].
Qed.

(** From every state in which the threads started so far are no more
    than the jobs, the run can reach its end. *)
Lemma run_can_end s :
  List.length (threads s) <= List.length scripts ->
  exists s', steps scripts s s' /\ pc s' = Returned.
Proof.
  intros Hlen.
  assert (H1 : exists s1, steps scripts s s1 /\ pc s1 <> Starting).
  { destruct (pc s) eqn:E; try (exists s; split; [constructor|congruence]).
    destruct (starting_can_end
                (List.length scripts - List.length (threads s)) s E)
      as [s1 [Hs Hw]]; [lia|].
    exists s1. split; [exact Hs|congruence]. }
  destruct H1 as [s1 [Hs1 Hpc1]].
  destruct (threads_can_end (work (threads s1)) s1 (le_n _))
    as [s2 [Hs2 [Hpc2 Hal2]]].
  destruct (caller_can_end s2) as [s3 [Hs3 Hr]];
    [congruence|exact Hal2|].
  exists s3. split; [|exact Hr].
  apply (steps_trans s s1 s3 Hs1). apply (steps_trans s1 s2 s3 Hs2 Hs3).
Qed.

Lemma todo_of_start ts q sh c q' sh' c' sc k :
  nth_error scripts (List.length ts) = Some sc ->
  todo_of scripts (mkState (ts ++ [Alive sc]) q sh c) k
  = todo_of scripts (mkState ts q' sh' c') k.
Proof.
  intros Hsc. unfold todo_of. cbn [threads].
  destruct (Nat.lt_trichotomy k (List.length ts)) as [Hlt|[Heq|Hgt]].
  - rewrite nth_error_app1 by exact Hlt. reflexivity.
  - subst k. rewrite nth_error_app2 by lia. rewrite Nat.sub_diag.
    cbn [nth_error].
    assert (Hnone : nth_error ts (List.length ts) = None)
      by (apply nth_error_None; lia).
    rewrite Hnone. symmetry. apply nth_error_nth. exact Hsc.
  - rewrite nth_error_app2 by lia.
    assert (Hnone : nth_error ts k = None) by (apply nth_error_None; lia).
    rewrite Hnone.
    destruct (k - List.length ts) as [|d] eqn:Hd; [lia|].
    cbn [nth_error]. destruct d; reflexivity.
Qed.

Lemma todo_of_set ts q sh c q' sh' c' k t j :
  k <> j ->
  todo_of scripts (mkState (set_thread k t ts) q sh c) j
  = todo_of scripts (mkState ts q' sh' c') j.
Proof.
  intros Hne. unfold todo_of. cbn [threads].
  rewrite nth_error_set_thread.
  destruct (Nat.eqb_spec k j); [contradiction|reflexivity].
Qed.

Lemma todo_of_same ts q sh c q' sh' c' k :
  todo_of scripts (mkState ts q sh c) k
  = todo_of scripts (mkState ts q' sh' c') k.
Proof. reflexivity. Qed.

Lemma not_alive_thread ts k :
  existsb is_alive ts = false ->
  nth_error ts k = None \/ nth_error ts k = Some Ended.
Proof.
  intros Hal. destruct (nth_error ts k) as [[todo|]|] eqn:Hk; auto.
  rewrite (alive_thread ts k todo Hk) in Hal. discriminate.
Qed.

(** Every step keeps the invariant. *)
Lemma inv_step s s' : Inv scripts s -> step scripts s s' -> Inv scripts s'.
Proof.
  intros [I1 [I2 [I3 [I4 I5]]]] Hstep.
  destruct Hstep as
    [s sc Hpc Hsc | s Hpc Hlen | s k m rest Hk | s k Hk | s Hpc Hal
    | s Hpc Hal | s Hpc Hq | s x q Hpc Hq | s x q Hpc Hq | s Hpc Hq];
    unfold Inv; cbn [threads queue shown pc].
  - (* a thread is started *)
    assert (Hlt : List.length (threads s) < List.length scripts)
      by (apply nth_error_Some; congruence).
    split; [rewrite length_app; cbn [List.length]; lia|].
    split; [congruence|].
    split; [intros [H|H]; discriminate|].
    split; [discriminate|].
    intros k. rewrite <- (I5 k). f_equal.
    destruct s as [ts q sh c]. cbn [threads queue shown pc] in *.
    apply todo_of_start. exact Hsc.
  - (* all threads are started *)
    split; [exact I1|]. split; [intros _; exact Hlen|].
    split; [intros [H|H]; discriminate|]. split; [discriminate|].
    intros k. rewrite <- (I5 k). destruct s; reflexivity.
  - (* a thread puts a message *)
    pose proof (alive_thread _ _ _ Hk) as Halive.
    unfold any_alive in I3. rewrite length_set_thread.
    split; [exact I1|]. split; [exact I2|].
    split; [intros H; rewrite (I3 H) in Halive; discriminate|].
    split.
    { intros H. rewrite (I3 (or_intror H)) in Halive. discriminate. }
    intros j. rewrite <- (I5 j).
    rewrite app_assoc, of_thread_app, of_thread_one, <- app_assoc.
    f_equal.
    destruct (Nat.eqb_spec k j) as [->|Hne].
    + unfold todo_of. cbn [threads]. rewrite nth_error_set_thread.
      rewrite Nat.eqb_refl, Hk. reflexivity.
    + cbn [app]. destruct s as [ts q0 sh c].
      cbn [threads queue shown pc] in *.
      apply todo_of_set. exact Hne.
  - (* a thread ends *)
    pose proof (alive_thread _ _ _ Hk) as Halive.
    unfold any_alive in I3. rewrite length_set_thread.
    split; [exact I1|]. split; [exact I2|].
    split; [intros H; rewrite (I3 H) in Halive; discriminate|].
    split.
    { intros H. rewrite (I3 (or_intror H)) in Halive. discriminate. }
    intros j. rewrite <- (I5 j). f_equal.
    destruct (Nat.eqb_spec k j) as [->|Hne].
    + unfold todo_of. cbn [threads]. rewrite nth_error_set_thread.
      rewrite Nat.eqb_refl, Hk. reflexivity.
    + destruct s as [ts q0 sh c]. cbn [threads queue shown pc] in *.
      apply todo_of_set. exact Hne.
  - (* the caller enters the body of the first loop *)
    split; [exact I1|]. split; [intros _; apply I2; congruence|].
    split; [intros [H|H]; discriminate|]. split; [discriminate|].
    intros k. rewrite <- (I5 k). destruct s; reflexivity.
  - (* the caller leaves the first loop *)
    split; [exact I1|]. split; [intros _; apply I2; congruence|].
    split; [intros _; exact Hal|]. split; [discriminate|].
    intros k. rewrite <- (I5 k). destruct s; reflexivity.
  - (* the queue is empty: continue *)
    split; [exact I1|]. split; [intros _; apply I2; congruence|].
    split; [intros [H|H]; discriminate|]. split; [discriminate|].
    intros k. rewrite <- (I5 k). destruct s; reflexivity.
  - (* a message is taken in the first loop *)
    split; [exact I1|]. split; [intros _; apply I2; congruence|].
    split; [intros [H|H]; discriminate|]. split; [discriminate|].
    intros k. rewrite <- (I5 k), Hq, <- app_assoc.
    destruct s; reflexivity.
  - (* a message is taken in the second loop *)
    split; [exact I1|]. split; [intros _; apply I2; congruence|].
    split; [intros _; apply I3; left; exact Hpc|].
    split; [discriminate|].
    intros k. rewrite <- (I5 k), Hq, <- app_assoc.
    destruct s; reflexivity.
  - (* the caller returns *)
    split; [exact I1|]. split; [intros _; apply I2; congruence|].
    split; [intros _; apply I3; left; exact Hpc|].
    split; [intros _; exact Hq|].
    intros k. rewrite <- (I5 k). destruct s; reflexivity.
Qed.

Lemma inv_init : Inv scripts init.
Proof.
  unfold Inv, init. cbn [threads queue shown pc List.length].
  split; [lia|]. split; [congruence|].
  split; [intros [H|H]; discriminate|]. split; [discriminate|].
  intros k. unfold todo_of. cbn [threads app of_thread filter map].
  destruct k; reflexivity.
Qed.

Lemma inv_steps s s' : steps scripts s s' -> Inv scripts s -> Inv scripts s'.
Proof.
  induction 1 as [|a b c Hab Hbc IH]; intros Hinv; [exact Hinv|].
  apply IH. apply (inv_step a b Hinv Hab).
Qed.

(** Where the run has returned, no thread has anything left to put. *)
Lemma todo_of_returned s k :
  Inv scripts s -> pc s = Returned -> todo_of scripts s k = [].
Proof.
  intros [I1 [I2 [I3 [I4 I5]]]] Hpc. unfold todo_of.
  destruct (not_alive_thread (threads s) k (I3 (or_intror Hpc)))
    as [Hnone|Hended].
  - rewrite Hnone. apply nth_overflow.
    apply nth_error_None in Hnone.
    rewrite <- (I2 ltac:(congruence)). exact Hnone.
  - rewrite Hended. reflexivity.
Qed.

End Queue.

(** The messages of the job of the Linux partition of the sample. *)
Example sample_job_script :
  Carve.job_script Sample.working_env Sample.registry "/out" 2
  = [ mkMsg (TStr "Attempting to carve partition Linux_(0x83)_fs0...") tab;
      mkMsg (TList ["/bin/dd"; "if=/cases/disk.img";
                    "of=/out/Linux_(0x83)_fs0"; "bs=512";
                    "skip=0000002048"; "count=0001024000"]) "$";
      mkMsg (TStr "Success: Linux_(0x83)_fs0") tab;
      mkMsg (TList ["/usr/bin/fsstat"; "/out/Linux_(0x83)_fs0"]) "$";
      mkMsg (TStr "FSType: Ext4") tab ].
Proof. vm_compute. reflexivity. Qed.

(** C9.  In every state of a carve run over the selected partitions,
    whatever the interleaving of the jobs and of the caller, the
    messages a job has put so far are, in the order the job put them
    and each exactly once, those shown followed by those still in the
    queue; the run can always go on to its return; and where it has
    returned the queue is empty and the messages shown for each job are
    exactly the messages of that job, in the order it put them. *)
Theorem C9_every_message_shown_once_in_job_order scripts s :
  Orchestrator.steps scripts Orchestrator.init s ->
  (forall k,
      (Orchestrator.of_thread k (Orchestrator.shown s)
       ++ Orchestrator.of_thread k (Orchestrator.queue s)
       ++ Orchestrator.todo_of scripts s k)%list
      = nth k scripts [])
  /\ (exists s',
        Orchestrator.steps scripts s s'
        /\ Orchestrator.pc s' = Orchestrator.Returned)
  /\ (Orchestrator.pc s = Orchestrator.Returned ->
      Orchestrator.queue s = []
      /\ forall k,
          Orchestrator.of_thread k (Orchestrator.shown s) = nth k scripts []).
Proof.
  intros Hsteps.
  pose proof (inv_steps scripts _ _ Hsteps (inv_init scripts)) as Hinv.
  pose proof Hinv as [I1 [I2 [I3 [I4 I5]]]].
  split; [|split].
  - intros k. rewrite <- (I5 k), of_thread_app, <- app_assoc. reflexivity.
  - apply run_can_end. exact I1.
  - intros Hpc. split; [exact (I4 Hpc)|].
    intros k. rewrite <- (I5 k), (I4 Hpc), app_nil_r.
    rewrite (todo_of_returned scripts s k Hinv Hpc), app_nil_r. reflexivity.
Qed.

(** One interleaving of two jobs, from the start of the run to its
    return. *)
Lemma C9_every_message_shown_once_in_job_order_witness :
  Orchestrator.of_thread 0 (Orchestrator.shown Sample.returned)
  = [Sample.msg_a1; Sample.msg_a2]
  /\ Orchestrator.of_thread 1 (Orchestrator.shown Sample.returned)
     = [Sample.msg_b1].
Proof.
  destruct (C9_every_message_shown_once_in_job_order Sample.two_jobs
              Sample.returned) as [_ [_ Hdone]].
  - eapply Orchestrator.steps_step;
      [apply Orchestrator.step_start; reflexivity|]; cbn.
    eapply Orchestrator.steps_step;
      [eapply (Orchestrator.step_put _ _ 0); reflexivity|]; cbn.
    eapply Orchestrator.steps_step;
      [apply Orchestrator.step_start; reflexivity|]; cbn.
    eapply Orchestrator.steps_step;
      [apply Orchestrator.step_started; reflexivity|]; cbn.
    eapply Orchestrator.steps_step;
      [apply Orchestrator.step_enter; reflexivity|]; cbn.
    eapply Orchestrator.steps_step;
      [eapply Orchestrator.step_get; reflexivity|]; cbn.
    eapply Orchestrator.steps_step;
      [eapply (Orchestrator.step_put _ _ 1); reflexivity|]; cbn.
    eapply Orchestrator.steps_step;
      [eapply (Orchestrator.step_end _ _ 1); reflexivity|]; cbn.
    eapply Orchestrator.steps_step;
      [eapply (Orchestrator.step_put _ _ 0); reflexivity|]; cbn.
    eapply Orchestrator.steps_step;
      [apply Orchestrator.step_enter; reflexivity|]; cbn.
    eapply Orchestrator.steps_step;
      [eapply Orchestrator.step_get; reflexivity|]; cbn.
    eapply Orchestrator.steps_step;
      [eapply (Orchestrator.step_end _ _ 0); reflexivity|]; cbn.
    eapply Orchestrator.steps_step;
      [apply Orchestrator.step_leave; reflexivity|]; cbn.
    eapply Orchestrator.steps_step;
      [eapply Orchestrator.step_flush; reflexivity|]; cbn.
    eapply Orchestrator.steps_step;
      [apply Orchestrator.step_return; reflexivity|]; cbn.
    apply Orchestrator.steps_refl.
  - destruct (Hdone eq_refl) as [_ Hshown].
    split; [exact (Hshown 0)|exact (Hshown 1)].
Defined.

(** * Further properties of the code *)

(** ** The partition-table parser: short rows, fresh dicts, descriptions *)

Lemma prefix_char (c a : ascii) s :
  prefix (String c "") (String a s) = if Ascii.ascii_dec c a then true else false.
Proof.
  cbn [prefix]. destruct (Ascii.ascii_dec c a); [|reflexivity].
  destruct s; reflexivity.
Qed.

Lemma split_go_nonempty sep : forall s skip cur, Py.split_go sep skip cur s <> [].
Proof.
  induction s as [|a s IH]; intros skip cur; cbn [Py.split_go].
  - discriminate.
  - destruct skip; [|apply IH].
    destruct (prefix sep (String a s)); [discriminate|apply IH].
Qed.

Lemma concat_cons sep x l :
  l <> [] -> concat sep (x :: l) = x ++ sep ++ concat sep l.
Proof. destruct l; [congruence|reflexivity]. Qed.

(** Joining the tokens of a split with the separator gives the text back. *)
Lemma join_split_char c : forall s cur,
  Py.join (String c "") (Py.split_go (String c "") 0 cur s) = cur ++ s.
Proof.
  unfold Py.join.
  induction s as [|a s IH]; intros cur; cbn [Py.split_go].
  - cbn [concat]. symmetry. apply append_empty_r.
  - rewrite prefix_char. destruct (Ascii.ascii_dec c a) as [->|Hne].
    + cbn [String.length Nat.sub]. rewrite concat_cons by apply split_go_nonempty.
      rewrite IH. reflexivity.
    + rewrite IH. rewrite append_assoc. reflexivity.
Qed.

Lemma join_split s c : Py.join (String c "") (Py.split s (String c "")) = s.
Proof. unfold Py.split. apply (join_split_char c s ""). Qed.

Lemma join_app sep l1 l2 :
  l1 <> [] -> l2 <> [] ->
  Py.join sep (l1 ++ l2)%list = Py.join sep l1 ++ sep ++ Py.join sep l2.
Proof.
  unfold Py.join. intros H1 H2. induction l1 as [|x l1 IH]; [congruence|].
  destruct l1 as [|y l1].
  - cbn [app]. rewrite concat_cons by exact H2. reflexivity.
  - change ((x :: y :: l1) ++ l2)%list with (x :: ((y :: l1) ++ l2)%list).
    rewrite concat_cons by discriminate.
    rewrite IH by discriminate.
    rewrite (concat_cons sep x (y :: l1)) by discriminate.
    rewrite !append_assoc. reflexivity.
Qed.

Lemma contains_char_app c x y :
  Py.contains (String c "") (x ++ y)
  = Py.contains (String c "") x || Py.contains (String c "") y.
Proof.
  induction x as [|a x IH].
  - cbn [append]. destruct y; reflexivity.
  - cbn [append]. cbn [Py.contains]. rewrite !prefix_char, IH.
    destruct (Ascii.ascii_dec c a); reflexivity.
Qed.

(** Replacing every occurrence of a character leaves none of it. *)
Lemma replace_char_gone c new : forall s,
  Py.contains (String c "") new = false ->
  Py.contains (String c "") (Py.replace s (String c "") new) = false.
Proof.
  intros s Hnew. unfold Py.replace.
  induction s as [|a s IH]; [reflexivity|].
  cbn [Py.replace_go]. rewrite prefix_char.
  destruct (Ascii.ascii_dec c a) as [->|Hne].
  - cbn [String.length Nat.sub]. rewrite contains_char_app, Hnew, IH.
    reflexivity.
  - cbn [Py.contains]. rewrite prefix_char.
    destruct (Ascii.ascii_dec c a); [contradiction|]. exact IH.
Qed.

Section MmlsErrors.

Import Mmls.

Lemma row_none counter t :
  row counter t = None <->
  match nth_error t 2 with
  | None => True
  | Some slot =>
      if slot =? "Meta" then List.length t < 15 else List.length t < 12
  end.
Proof.
  unfold row. destruct (nth_error t 2) as [slot|]; [|tauto].
  destruct (slot =? "Meta").
  - destruct (nth_error t 8) eqn:E8, (nth_error t 11) eqn:E11,
      (nth_error t 14) eqn:E14;
      try (apply nth_error_None in E8); try (apply nth_error_None in E11);
      try (apply nth_error_None in E14);
      (split; [intros H; try discriminate; lia|intros H; try reflexivity]).
    assert (nth_error t 14 <> None) by congruence.
    apply nth_error_Some in H0. lia.
  - destruct (nth_error t 5) eqn:E5, (nth_error t 8) eqn:E8,
      (nth_error t 11) eqn:E11;
      try (apply nth_error_None in E5); try (apply nth_error_None in E8);
      try (apply nth_error_None in E11);
      (split; [intros H; try lia|intros H; try reflexivity]).
    + destruct (Py.contains ":" slot); discriminate.
    + assert (nth_error t 11 <> None) by congruence.
      apply nth_error_Some in H0. lia.
Qed.

Lemma row_none_short counter line :
  row counter (tokens line) = None <-> MmlsRows.short_row line = true.
Proof.
  rewrite row_none. unfold MmlsRows.short_row.
  destruct (nth_error (tokens line) 2) as [slot|]; [|tauto].
  destruct (slot =? "Meta"); rewrite Nat.ltb_lt; tauto.
Qed.

Lemma loop_none rows : forall v,
  slotFound v = true ->
  loop v rows = None <->
  exists line, In line rows /\ MmlsRows.short_row line = true.
Proof.
  induction rows as [|l rows IH]; intros v Hs.
  - cbn [loop]. split; [discriminate|intros [line [[] _]]].
  - cbn [loop]. unfold step. rewrite Hs. cbn [negb].
    destruct (row (partitionCounter v) (tokens l)) as [[temp c]|] eqn:Hrow.
    + rewrite IH by reflexivity. split.
      * intros [line [Hin Hsh]]. exists line. split; [right; exact Hin|exact Hsh].
      * intros [line [[<-|Hin] Hsh]].
        -- apply (proj2 (row_none_short (partitionCounter v) l)) in Hsh.
           rewrite Hsh in Hrow. discriminate.
        -- exists line. split; assumption.
    + split; [|reflexivity]. intros _. exists l.
      split; [left; reflexivity|].
      apply (proj1 (row_none_short (partitionCounter v) l)). exact Hrow.
Qed.

Lemma loop_fresh f : forall v v',
  Forall MmlsRows.fresh (info v) ->
  loop v f = Some v' ->
  Forall MmlsRows.fresh (info v').
Proof.
  induction f as [|l f IH]; intros v v' Hall Hloop.
  - cbn [loop] in Hloop. inversion Hloop; subst. exact Hall.
  - cbn [loop] in Hloop.
    destruct (step v l) as [v1|] eqn:Hstep; [|discriminate].
    apply (IH v1 v'); [|exact Hloop].
    unfold step in Hstep.
    destruct (negb (slotFound v)).
    + destruct (Py.mem "Slot" (tokens l)); inversion Hstep; exact Hall.
    + destruct (row (partitionCounter v) (tokens l)) as [[temp c]|] eqn:Hrow;
        [|discriminate].
      inversion Hstep; subst. cbn [info].
      apply Forall_app. split; [exact Hall|].
      constructor; [|constructor].
      clear - Hrow. unfold row in Hrow.
      destruct (nth_error (tokens l) 2) as [slot|]; [|discriminate].
      destruct (slot =? "Meta").
      * destruct (nth_error (tokens l) 8), (nth_error (tokens l) 11),
          (nth_error (tokens l) 14); try discriminate.
        inversion Hrow; subst. unfold MmlsRows.fresh. cbn. repeat split.
      * destruct (nth_error (tokens l) 5), (nth_error (tokens l) 8),
          (nth_error (tokens l) 11); try discriminate.
        destruct (Py.contains ":" slot); inversion Hrow; subst;
          unfold MmlsRows.fresh; cbn; repeat split.
Qed.

End MmlsErrors.

(** X1.  With a header row in the text, the parser raises (an
    [IndexError]) exactly when some line after the header is too short
    for the positions it reads: it has no token 2, or fewer than 15
    tokens on a ["Meta"] row, or fewer than 12 on any other row. *)
Theorem mmlsParser_raises_on_short_rows pre header rows :
  (forall l, In l pre -> Mmls.is_header l = false) ->
  Mmls.is_header header = true ->
  Mmls.mmlsParser (pre ++ header :: rows) = None <->
  exists line, In line rows /\ MmlsRows.short_row line = true.
Proof.
  intros Hpre Hh. unfold Mmls.mmlsParser.
  destruct (loop_before_header pre Mmls.init (header :: rows) eq_refl Hpre)
    as [b0 Hb0].
  rewrite Hb0. cbn [Mmls.loop]. unfold Mmls.step.
  cbn [negb Mmls.slotFound]. unfold Mmls.is_header in Hh. rewrite Hh.
  cbn [Mmls.info Mmls.partitionCounter Mmls.bs Mmls.init].
  rewrite <- (loop_none rows (Mmls.mkVars [] (Mmls.scan_units b0 header) true 0))
    by reflexivity.
  destruct (Mmls.loop _ rows); split; congruence.
Qed.

Lemma mmlsParser_raises_on_short_rows_witness :
  Mmls.mmlsParser
    (Sample.before_header ++ Sample.header :: (Sample.rows ++ [""])%list)
  = None
  <-> exists line,
        In line (Sample.rows ++ [""])%list /\ MmlsRows.short_row line = true.
Proof.
  apply (mmlsParser_raises_on_short_rows Sample.before_header Sample.header).
  - intros l [<-|[<-|[<-|[<-|[]]]]]; reflexivity.
  - reflexivity.
Defined.


(** X2.  A text without a header row (no line with the token ["Slot"])
    gives the empty list of partitions and never raises, whatever its
    lines are. *)
Theorem mmlsParser_without_header f :
  (forall l, In l f -> Mmls.is_header l = false) ->
  exists b, Mmls.mmlsParser f = Some ([], b).
Proof.
  intros Hf. unfold Mmls.mmlsParser.
  destruct (loop_before_header f Mmls.init [] eq_refl Hf) as [b0 Hb0].
  rewrite app_nil_r in Hb0. rewrite Hb0. cbn. exists b0. reflexivity.
Qed.

Lemma mmlsParser_without_header_witness :
  exists b, Mmls.mmlsParser Sample.before_header = Some ([], b).
Proof.
  apply (mmlsParser_without_header Sample.before_header).
  intros l [<-|[<-|[<-|[<-|[]]]]]; reflexivity.
Defined.


(** X3.  When the parser returns, it has made one dict for every line
    after the header row, blank or not, and none for the lines up to
    the header. *)
Theorem mmlsParser_one_partition_per_row pre header rows parsed b :
  (forall l, In l pre -> Mmls.is_header l = false) ->
  Mmls.is_header header = true ->
  Mmls.mmlsParser (pre ++ header :: rows) = Some (parsed, b) ->
  List.length parsed = List.length rows.
Proof.
  intros Hpre Hh Hparse.
  apply (mmlsParser_rows _ _ _ _ _ Hpre Hh Hparse).
Qed.

Lemma mmlsParser_one_partition_per_row_witness :
  List.length Sample.parsed = List.length Sample.rows.
Proof.
  apply (mmlsParser_one_partition_per_row Sample.before_header Sample.header
           Sample.rows Sample.parsed Sample.block).
  - intros l [<-|[<-|[<-|[<-|[]]]]]; reflexivity.
  - reflexivity.
  - vm_compute. reflexivity.
Defined.

(** X4.  Every dict the parser returns starts with [Carved] and
    [CarvedFiles] at ["No"], [Path] and [FSType] at the empty string and
    no [Recovered] or [MD5Sum] key; its [Name] is its [Description] with
    every space replaced by an underscore, so the name holds no space. *)
Theorem mmlsParser_partitions_fresh f parsed b p :
  Mmls.mmlsParser f = Some (parsed, b) ->
  In p parsed ->
  MmlsRows.fresh p /\ Py.contains " " (Name p) = false.
Proof.
  unfold Mmls.mmlsParser. intros H Hin.
  destruct (Mmls.loop Mmls.init f) as [v|] eqn:Hloop; [|discriminate].
  inversion H; subst.
  pose proof (loop_fresh f Mmls.init v (Forall_nil _) Hloop) as Hall.
  rewrite Forall_forall in Hall. specialize (Hall p Hin).
  split; [exact Hall|].
  destruct Hall as [_ [_ [_ [_ [_ [_ Hname]]]]]]. rewrite Hname.
  apply replace_char_gone. reflexivity.
Qed.

Lemma mmlsParser_partitions_fresh_witness :
  exists p,
    nth_error Sample.parsed 3 = Some p
    /\ MmlsRows.fresh p /\ Py.contains " " (Name p) = false.
Proof.
  eexists. split; [vm_compute; reflexivity|].
  apply (mmlsParser_partitions_fresh Sample.table Sample.parsed Sample.block).
  - vm_compute. reflexivity.
  - vm_compute. right. right. right. left. reflexivity.
Defined.

(** The text is its first [k] tokens, joined, followed by a separator
    and the join of the others when there are others. *)
Lemma join_firstn_drop c s k :
  0 < k ->
  let t := Py.split s (String c "") in
  s = Py.join (String c "") (firstn k t)
      ++ (if (k <? List.length t)%nat
          then String c "" ++ Py.join (String c "") (Py.drop k t)
          else "").
Proof.
  intros Hk t. pose proof (join_split s c) as Hjoin. fold t in Hjoin.
  destruct (Nat.ltb_spec k (List.length t)) as [Hlt|Hge].
  - rewrite <- Hjoin at 1. rewrite <- (firstn_skipn k t) at 1.
    unfold Py.drop. apply join_app.
    + intros H. apply (f_equal (@List.length string)) in H.
      rewrite length_firstn in H. cbn in H. lia.
    + intros H. apply (f_equal (@List.length string)) in H.
      rewrite length_skipn in H. cbn in H. lia.
  - rewrite firstn_all2 by exact Hge. rewrite append_empty_r.
    symmetry. exact Hjoin.
Qed.

(** X5.  With [k] = 17 on a ["Meta"] row and 14 on any other row, the
    description of a partition is the join, by single spaces, of the
    tokens of its row from position [k] on, followed by the [_fs]
    suffix when the row is a filesystem row.  This join is the end of
    the stripped row, character for character: the stripped row is its
    first [k] tokens joined by single spaces and, when it has more than
    [k] tokens, one space and the join of the others. *)
Theorem description_is_tail_of_row pre header rows parsed b i line p :
  (forall l, In l pre -> Mmls.is_header l = false) ->
  Mmls.is_header header = true ->
  Mmls.mmlsParser (pre ++ header :: rows) = Some (parsed, b) ->
  nth_error rows i = Some line ->
  nth_error parsed i = Some p ->
  let t := Mmls.tokens line in
  let k := if Slot p =? "Meta" then 17 else 14 in
  let tail := Py.join " " (Py.drop k t) in
  nth_error t 2 = Some (Slot p)
  /\ Description p
     = tail ++ (if Mmls.is_fs_row line
                then "_fs" ++ Py.str_of_nat (Mmls.fs_before rows i)
                else "")
  /\ Py.strip line
     = Py.join " " (firstn k t)
       ++ (if (k <? List.length t)%nat then " " ++ tail else "").
Proof.
  intros Hpre Hh Hparse Hline Hp t k tail. subst t k tail.
  destruct (mmlsParser_rows _ _ _ _ _ Hpre Hh Hparse) as [_ Hrows].
  pose proof (row_fields _ _ _ _ (Hrows i line p Hline Hp)) as [H2 Hf].
  split; [exact H2|].
  unfold Mmls.is_fs_row. rewrite H2.
  destruct (Slot p =? "Meta").
  - destruct Hf as [_ [_ [_ [Hd _]]]]. split.
    + cbn [negb andb]. rewrite append_empty_r. exact Hd.
    + apply (join_firstn_drop " "%char (Py.strip line) 17). lia.
  - destruct Hf as [_ [_ [_ [Hd _]]]]. split.
    + cbn [negb andb]. exact Hd.
    + apply (join_firstn_drop " "%char (Py.strip line) 14). lia.
Qed.

Lemma description_is_tail_of_row_witness :
  let t := Mmls.tokens Sample.linux_row in
  nth_error t 2 = Some "000:000"
  /\ "Linux (0x83)_fs0"
     = Py.join " " (Py.drop 14 t)
       ++ (if Mmls.is_fs_row Sample.linux_row
           then "_fs" ++ Py.str_of_nat (Mmls.fs_before Sample.rows 2)
           else "")
  /\ Py.strip Sample.linux_row
     = Py.join " " (firstn 14 t)
       ++ (if (14 <? List.length t)%nat
           then " " ++ Py.join " " (Py.drop 14 t) else "").
Proof.
  apply (description_is_tail_of_row Sample.before_header Sample.header
           Sample.rows Sample.parsed Sample.block 2 Sample.linux_row
           (mkPartition "000:000" "No" (Some "") (Some "") "No" "0000002048"
              "0001026047" "0001024000" "Linux (0x83)_fs0" "Yes"
              "Linux_(0x83)_fs0" None None)).
  - intros l [<-|[<-|[<-|[<-|[]]]]]; reflexivity.
  - reflexivity.
  - vm_compute. reflexivity.
  - reflexivity.
  - vm_compute. reflexivity.
Defined.




(** ** The parser of the prober output *)

Lemma find_from_spec sub : forall s i,
  (0 <= i)%Z ->
  (Py.contains sub s = true -> (i <= Py.find_from sub s i)%Z)
  /\ (Py.contains sub s = false -> Py.find_from sub s i = (-1)%Z).
Proof.
  induction s as [|a s IH]; intros i Hi.
  - cbn [Py.contains Py.find_from]. destruct (prefix sub ""); cbn [orb].
    + split; [lia|discriminate].
    + split; [discriminate|reflexivity].
  - cbn [Py.contains Py.find_from].
    destruct (prefix sub (String a s)); cbn [orb].
    + split; [lia|discriminate].
    + destruct (IH (i + 1)%Z ltac:(lia)) as [H1 H2].
      split; [intros H; specialize (H1 H); lia|exact H2].
Qed.

Lemma find_found s sub :
  (Py.find s sub >? -1)%Z = Py.contains sub s.
Proof.
  unfold Py.find. destruct (find_from_spec sub s 0%Z ltac:(lia)) as [H1 H2].
  destruct (Py.contains sub s).
  - specialize (H1 eq_refl). apply Z.gtb_lt. lia.
  - rewrite (H2 eq_refl). reflexivity.
Qed.

Lemma slice_from_after a x :
  Py.slice_from (a ++ x) (Z.of_nat (String.length a)) = x.
Proof.
  unfold Py.slice_from, Py.slice, Py.bound. rewrite length_append.
  set (la := String.length a). set (lx := String.length x).
  destruct (Z.ltb_spec (Z.of_nat la) 0); [lia|].
  destruct (Z.ltb_spec (Z.of_nat (la + lx)) 0); [lia|].
  rewrite !Z.max_r by lia. rewrite !Z.min_r by lia.
  replace (Z.to_nat (Z.of_nat la)) with la by lia.
  replace (Z.to_nat (Z.of_nat (la + lx) - Z.of_nat la)) with lx by lia.
  unfold la. rewrite substring_skip.
  rewrite <- (append_empty_r x) at 1. apply substring_take.
Qed.

(** The lines without the marker are passed over; the first line with
    the marker decides. *)
Lemma fsstat_lines_first pre : forall line post,
  (forall l, In l pre -> Py.contains fs_marker l = false) ->
  Py.contains fs_marker line = true ->
  fsstat_lines (pre ++ line :: post)
  = Some (Py.strip
            (Py.slice_from line
               (Py.find line fs_marker + Z.of_nat (String.length fs_marker)))).
Proof.
  induction pre as [|l pre IH]; intros line post Hpre Hline.
  - cbn [app fsstat_lines]. rewrite find_found, Hline. reflexivity.
  - cbn [app fsstat_lines]. rewrite find_found.
    rewrite (Hpre l (or_introl eq_refl)).
    apply IH; [|exact Hline]. intros l' Hin. apply Hpre. right. exact Hin.
Qed.

Lemma fsstat_lines_none lines :
  fsstat_lines lines = None <->
  forall l, In l lines -> Py.contains fs_marker l = false.
Proof.
  induction lines as [|l lines IH]; cbn [fsstat_lines].
  - split; [intros _ l []|reflexivity].
  - rewrite find_found. destruct (Py.contains fs_marker l) eqn:Hc.
    + split; [discriminate|]. intros H. rewrite (H l (or_introl eq_refl)) in Hc.
      discriminate.
    + rewrite IH. split.
      * intros H l' [<-|Hin]; [exact Hc|apply H; exact Hin].
      * intros H l' Hin. apply H. right. exact Hin.
Qed.

(** X6.  [fsstatParser] returns [None] exactly when no line of the text
    contains the marker ["File System Type: "]. *)
Theorem fsstatParser_absent f :
  fsstatParser f = None <->
  forall l, In l (Py.splitlines f) -> Py.contains fs_marker l = false.
Proof. unfold fsstatParser. apply fsstat_lines_none. Qed.

(** X7.  The first line with the marker decides: [fsstatParser] returns
    what follows the first occurrence of the marker on that line,
    stripped, whatever the lines after it hold. *)
Theorem fsstatParser_first_marker_line f pre (a x : string) post :
  Py.splitlines f = (pre ++ (a ++ fs_marker ++ x)%string :: post)%list ->
  (forall l, In l pre -> Py.contains fs_marker l = false) ->
  Py.find (a ++ fs_marker ++ x) fs_marker = Z.of_nat (String.length a) ->
  fsstatParser f = Some (Py.strip x).
Proof.
  intros Hlines Hpre Hfind. unfold fsstatParser. rewrite Hlines.
  rewrite fsstat_lines_first.
  - rewrite Hfind. f_equal. f_equal.
    rewrite <- Nat2Z.inj_add, <- length_append, <- append_assoc.
    apply slice_from_after.
  - exact Hpre.
  - rewrite <- find_found, Hfind. apply Z.gtb_lt. lia.
Qed.

Lemma fsstatParser_first_marker_line_witness :
  fsstatParser Cases.fsstat_text = Some (Py.strip "Ext4").
Proof.
  apply (fsstatParser_first_marker_line Cases.fsstat_text
           ["FILE SYSTEM INFORMATION";
            "--------------------------------------------"]
           "" "Ext4" ["Volume Name: "]).
  - vm_compute. reflexivity.
  - intros l [<-|[<-|[]]]; reflexivity.
  - reflexivity.
Defined.

(** ** The tree builder: what it keeps *)

Section DictFacts.

Context {V : Type}.
Implicit Types (d : list (string * V)) (k : string) (v : V).

Lemma get_set_same k v d : Dict.get k (Dict.set k v d) = Some v.
Proof.
  induction d as [|[k' v'] d IH]; cbn [Dict.set Dict.get].
  - rewrite String.eqb_refl. reflexivity.
  - destruct (String.eqb_spec k' k) as [->|Hne]; cbn [Dict.get].
    + rewrite String.eqb_refl. reflexivity.
    + destruct (String.eqb_spec k' k); [contradiction|exact IH].
Qed.

Lemma get_set_other k k' v d :
  k <> k' -> Dict.get k' (Dict.set k v d) = Dict.get k' d.
Proof.
  intros Hne. induction d as [|[k0 v0] d IH]; cbn [Dict.set Dict.get].
  - destruct (String.eqb_spec k k'); [contradiction|reflexivity].
  - destruct (String.eqb_spec k0 k) as [->|Hk]; cbn [Dict.get].
    + destruct (String.eqb_spec k k'); [contradiction|reflexivity].
    + destruct (String.eqb_spec k0 k'); [reflexivity|exact IH].
Qed.

Lemma get_del_other k k' d :
  k <> k' -> Dict.get k' (Dict.del k d) = Dict.get k' d.
Proof.
  intros Hne. induction d as [|[k0 v0] d IH]; cbn [Dict.del Dict.get].
  - reflexivity.
  - destruct (String.eqb_spec k0 k) as [->|Hk]; cbn [Dict.get].
    + destruct (String.eqb_spec k k'); [contradiction|reflexivity].
    + destruct (String.eqb_spec k0 k'); [reflexivity|exact IH].
Qed.

Lemma del_set_comm k k' v d :
  k <> k' -> Dict.del k (Dict.set k' v d) = Dict.set k' v (Dict.del k d).
Proof.
  intros Hne. induction d as [|[k0 v0] d IH]; cbn [Dict.set Dict.del].
  - destruct (String.eqb_spec k' k); [congruence|reflexivity].
  - destruct (String.eqb_spec k0 k') as [->|Hk'].
    + cbn [Dict.del]. destruct (String.eqb_spec k' k); [congruence|].
      cbn [Dict.set]. rewrite String.eqb_refl. reflexivity.
    + cbn [Dict.del]. destruct (String.eqb_spec k0 k) as [->|Hk].
      * reflexivity.
      * cbn [Dict.set]. destruct (String.eqb_spec k0 k'); [contradiction|].
        rewrite IH. reflexivity.
Qed.

Lemma get_none_keys k d : ~ In k (map fst d) -> Dict.get k d = None.
Proof.
  induction d as [|[k0 v0] d IH]; cbn [map fst In Dict.get]; intros H.
  - reflexivity.
  - destruct (String.eqb_spec k0 k) as [->|Hk]; [tauto|]. apply IH. tauto.
Qed.

Lemma get_some_keys k v d : Dict.get k d = Some v -> In k (map fst d).
Proof.
  induction d as [|[k0 v0] d IH]; cbn [map fst In Dict.get]; [discriminate|].
  destruct (String.eqb_spec k0 k) as [->|Hk]; [auto|]. intros H. right. auto.
Qed.

End DictFacts.

Section TreeEntries.

Import TreeShape.
Local Open Scope list_scope.

Lemma node_entries_unfold owner files subs :
  node_entries owner (mkNode files subs) = (owner, files) :: tree_entries subs.
Proof.
  reflexivity.
Qed.

Lemma node_entries_head owner n :
  exists files rest, node_entries owner n = (owner, files) :: rest.
Proof. destruct n as [files subs]. rewrite node_entries_unfold. eauto. Qed.

Lemma entries_del k v : forall dir,
  Dict.get k dir = Some v ->
  Permutation (tree_entries dir)
    (node_entries k v ++ tree_entries (Dict.del k dir)).
Proof.
  induction dir as [|[k0 v0] dir IH]; cbn [Dict.get]; [discriminate|].
  cbn [Dict.del tree_entries].
  destruct (String.eqb_spec k0 k) as [->|Hk].
  - intros H. inversion H; subst. apply Permutation_refl.
  - intros H. cbn [tree_entries].
    apply (perm_trans (Permutation_app_head _ (IH H))).
    rewrite !app_assoc. apply Permutation_app_tail. apply Permutation_app_comm.
Qed.

Lemma entries_set_existing k v v' : forall dir,
  Dict.get k dir = Some v ->
  Permutation (tree_entries (Dict.set k v' dir))
    (node_entries k v' ++ tree_entries (Dict.del k dir)).
Proof.
  induction dir as [|[k0 v0] dir IH]; cbn [Dict.get]; [discriminate|].
  cbn [Dict.del Dict.set].
  destruct (String.eqb_spec k0 k) as [->|Hk].
  - intros _. cbn [tree_entries]. apply Permutation_refl.
  - intros H. cbn [tree_entries].
    apply (perm_trans (Permutation_app_head _ (IH H))).
    rewrite !app_assoc. apply Permutation_app_tail. apply Permutation_app_comm.
Qed.

Lemma entries_set_new k v : forall dir,
  Dict.get k dir = None ->
  tree_entries (Dict.set k v dir) = tree_entries dir ++ node_entries k v.
Proof.
  induction dir as [|[k0 v0] dir IH]; cbn [Dict.get Dict.set].
  - intros _. cbn [tree_entries]. rewrite app_nil_r. reflexivity.
  - destruct (String.eqb_spec k0 k); [discriminate|].
    intros H. cbn [tree_entries]. rewrite (IH H), app_assoc. reflexivity.
Qed.

Lemma get_in_entries k v : forall dir,
  Dict.get k dir = Some v -> In k (map fst (tree_entries dir)).
Proof.
  induction dir as [|[k0 v0] dir IH]; cbn [Dict.get]; [discriminate|].
  cbn [tree_entries]. rewrite map_app, in_app_iff.
  destruct (String.eqb_spec k0 k) as [->|Hk].
  - intros _. left. destruct (node_entries_head k v0) as [f [r ->]].
    left. reflexivity.
  - intros H. right. apply IH. exact H.
Qed.

(** Attaching one directory to another moves its entries and loses none. *)
Lemma attach_entries d sub dir done dir' done' :
  FilesTree.attach d sub (dir, done) = Some (dir', done') ->
  NoDup (map fst (tree_entries dir)) ->
  Permutation (tree_entries dir') (tree_entries dir).
Proof.
  unfold FilesTree.attach. intros H Hnd.
  destruct (negb (Py.mem sub done)); [|inversion H; apply Permutation_refl].
  destruct (Py.startswith sub d); [|inversion H; apply Permutation_refl].
  destruct (String.eqb_spec sub d) as [->|Hne]; cbn [negb] in H;
    [inversion H; apply Permutation_refl|].
  destruct (Dict.get sub dir) as [child|] eqn:Hsub; [|discriminate].
  destruct (Dict.get d dir) as [[files subs]|] eqn:Hd; [|discriminate].
  inversion H; subst dir' done'. clear H.
  assert (Hd' : Dict.get d (Dict.del sub dir) = Some (mkNode files subs))
    by (rewrite get_del_other by exact Hne; exact Hd).
  pose proof (entries_del sub child dir Hsub) as P1.
  pose proof (entries_del d (mkNode files subs) _ Hd') as P2.
  rewrite node_entries_unfold in P2.
  set (X := node_entries sub child) in *.
  set (S := tree_entries subs) in *.
  set (R := tree_entries (Dict.del d (Dict.del sub dir))) in *.
  assert (Pold : Permutation (tree_entries dir) (X ++ ((d, files) :: S) ++ R)).
  { apply (perm_trans P1). apply Permutation_app_head. exact P2. }
  assert (Hfresh : Dict.get sub subs = None).
  { destruct (Dict.get sub subs) as [c|] eqn:Hc; [|reflexivity]. exfalso.
    apply get_in_entries in Hc. fold S in Hc.
    apply (Permutation_map fst) in Pold.
    apply (Permutation_NoDup Pold) in Hnd.
    destruct (node_entries_head sub child) as [f [r Hx]]. fold X in Hx.
    rewrite Hx in Hnd. cbn [app map fst] in Hnd.
    apply NoDup_cons_iff in Hnd. destruct Hnd as [Hnotin _].
    apply Hnotin. rewrite map_app, in_app_iff. right.
    cbn [map fst In]. right. rewrite map_app, in_app_iff. left. exact Hc. }
  rewrite del_set_comm by exact Hne.
  apply (perm_trans
           (entries_set_existing d (mkNode files subs) _ _ Hd')).
  rewrite node_entries_unfold, (entries_set_new sub child subs Hfresh).
  fold S X R. apply Permutation_sym. apply (perm_trans Pold).
  cbn [app]. apply Permutation_sym.
  apply (perm_trans (l' := (d, files) :: X ++ S ++ R)).
  - constructor. rewrite <- app_assoc.
    rewrite !app_assoc. apply Permutation_app_tail. apply Permutation_app_comm.
  - apply Permutation_middle.
Qed.

Lemma inner_entries d : forall subs dir done dir' done',
  FilesTree.inner d subs (dir, done) = Some (dir', done') ->
  NoDup (map fst (tree_entries dir)) ->
  Permutation (tree_entries dir') (tree_entries dir).
Proof.
  induction subs as [|sub subs IH]; intros dir done dir' done' H Hnd.
  - cbn in H. inversion H. apply Permutation_refl.
  - cbn [FilesTree.inner] in H.
    destruct (FilesTree.attach d sub (dir, done)) as [[dir1 done1]|] eqn:Ha;
      [|discriminate].
    pose proof (attach_entries _ _ _ _ _ _ Ha Hnd) as P1.
    apply (perm_trans (IH _ _ _ _ H
             (Permutation_NoDup (Permutation_map fst (Permutation_sym P1)) Hnd))).
    exact P1.
Qed.

Lemma outer_entries directories : forall ds dir done dir' done',
  FilesTree.outer ds directories (dir, done) = Some (dir', done') ->
  NoDup (map fst (tree_entries dir)) ->
  Permutation (tree_entries dir') (tree_entries dir).
Proof.
  induction ds as [|d ds IH]; intros dir done dir' done' H Hnd.
  - cbn in H. inversion H. apply Permutation_refl.
  - cbn [FilesTree.outer] in H.
    destruct (FilesTree.inner d directories (dir, done))
      as [[dir1 done1]|] eqn:Hi; [|discriminate].
    pose proof (inner_entries _ _ _ _ _ _ Hi Hnd) as P1.
    apply (perm_trans (IH _ _ _ _ H
             (Permutation_NoDup (Permutation_map fst (Permutation_sym P1)) Hnd))).
    exact P1.
Qed.

(** The first loop, from any point: the paths are appended to the list
    and, when they are new, their entries to the dict. *)
Lemma collect_entries walk : forall directories dir,
  NoDup (map fst (tree_entries dir) ++ map dirpath_of walk) ->
  exists dir',
    fold_left FilesTree.collect_step walk (directories, dir)
    = (directories ++ map dirpath_of walk, dir')
    /\ tree_entries dir' = tree_entries dir ++ map entry_of walk.
Proof.
  induction walk as [|[[dirpath dirnames] filenames] walk IH];
    intros directories dir Hnd.
  - exists dir. cbn. rewrite !app_nil_r. split; reflexivity.
  - cbn [fold_left FilesTree.collect_step map dirpath_of fst].
    cbn [map dirpath_of fst] in Hnd.
    assert (Hnew : Dict.get dirpath dir = None).
    { destruct (Dict.get dirpath dir) as [v|] eqn:Hg; [|reflexivity]. exfalso.
      apply get_in_entries in Hg. apply NoDup_remove_2 in Hnd.
      apply Hnd. apply in_app_iff. left. exact Hg. }
    destruct (IH (directories ++ [dirpath])
                (Dict.set dirpath
                   (mkNode (map (fun f => (dirpath ++ sep ++ f)%string) filenames) [])
                   dir)) as [dir' [Hfold Hent]].
    + rewrite (entries_set_new _ _ _ Hnew). cbn [node_entries map fst].
      rewrite map_app. cbn [map fst]. rewrite <- app_assoc. exact Hnd.
    + exists dir'. split.
      * refine (eq_trans Hfold _). rewrite <- app_assoc. reflexivity.
      * rewrite Hent, (entries_set_new _ _ _ Hnew). cbn [node_entries].
        rewrite <- app_assoc. reflexivity.
Qed.

End TreeEntries.

(** X8.  When the walk names no directory twice, the tree holds every
    walked directory exactly once, at some depth, with exactly the files
    of its triple, each as [dirpath + sep + filename]: re-positioning
    loses and duplicates nothing. *)
Theorem getFilesTree_keeps_every_directory walk t :
  NoDup (map TreeShape.dirpath_of walk) ->
  FilesTree.getFilesTree walk = Some t ->
  Permutation (TreeShape.tree_entries t) (map TreeShape.entry_of walk).
Proof.
  intros Hnd. unfold FilesTree.getFilesTree.
  destruct (collect_entries walk [] [] Hnd) as [dir [Hfold Hent]].
  change (FilesTree.collect walk = (map TreeShape.dirpath_of walk, dir))
    in Hfold.
  rewrite Hfold. cbn [TreeShape.tree_entries app] in Hent.
  destruct (FilesTree.outer _ _ _) as [[dir' done']|] eqn:Ho; [|discriminate].
  intros H. inversion H; subst.
  rewrite <- Hent. apply (outer_entries _ _ _ _ _ _ Ho).
  rewrite Hent, map_map.
  assert (E : map (fun x => fst (TreeShape.entry_of x)) walk
              = map TreeShape.dirpath_of walk).
  { apply map_ext. intros [[a b] c]. reflexivity. }
  rewrite E. exact Hnd.
Qed.

Lemma getFilesTree_keeps_every_directory_witness :
  exists t,
    FilesTree.getFilesTree Cases.folder_walk = Some t
    /\ Permutation (TreeShape.tree_entries t)
         (map TreeShape.entry_of Cases.folder_walk).
Proof.
  eexists. split; [vm_compute; reflexivity|].
  apply (getFilesTree_keeps_every_directory Cases.folder_walk).
  - vm_compute. repeat constructor; cbn; intuition discriminate.
  - vm_compute. reflexivity.
Defined.

(** *** Prefixes and the look-ups of the second loop *)

Lemma prefix_trans a : forall b c,
  prefix a b = true -> prefix b c = true -> prefix a c = true.
Proof.
  induction a as [|x a IH]; intros b c Hab Hbc.
  - destruct c; reflexivity.
  - destruct b as [|y b]; [discriminate|].
    destruct c as [|z c]; [discriminate|].
    cbn [prefix] in *.
    destruct (Ascii.ascii_dec x y) as [->|]; [|discriminate].
    destruct (Ascii.ascii_dec y z) as [->|]; [|discriminate].
    apply (IH b c Hab Hbc).
Qed.

Lemma prefix_antisym a : forall b,
  prefix a b = true -> prefix b a = true -> a = b.
Proof.
  induction a as [|x a IH]; intros b Hab Hba.
  - destruct b; [reflexivity|discriminate].
  - destruct b as [|y b]; [discriminate|].
    cbn [prefix] in *.
    destruct (Ascii.ascii_dec x y) as [->|]; [|discriminate].
    destruct (Ascii.ascii_dec y y); [|discriminate].
    f_equal. apply IH; assumption.
Qed.

Lemma mem_In x l : Py.mem x l = true <-> In x l.
Proof.
  unfold Py.mem. rewrite existsb_exists. split.
  - intros [y [Hin Heq]]. apply String.eqb_eq in Heq. subst. exact Hin.
  - intros Hin. exists x. split; [exact Hin|apply String.eqb_refl].
Qed.

Section TreeTotal.

Import TreeShape.
Local Open Scope list_scope.

(** The directories of the walk, in the order of the second loop. *)
Variable D : list string.


Lemma inner_pending d : forall subs dir done,
  (forall s, In s subs -> In s D) ->
  pending_present D dir done -> In d D -> ~ In d done ->
  exists dir' done',
    FilesTree.inner d subs (dir, done) = Some (dir', done')
    /\ pending_present D dir' done'
    /\ ~ In d done'
    /\ (forall x, In x done -> In x done')
    /\ (forall x, In x done' ->
          In x done \/ (Py.startswith x d = true /\ x <> d))
    /\ (forall s, In s subs -> Py.startswith s d = true -> s <> d ->
          In s done').
Proof.
  induction subs as [|sub subs IH]; intros dir done Hsubs Hpp HdD Hd.
  - exists dir, done. cbn [FilesTree.inner]. repeat split; auto.
    intros s [].
  - cbn [FilesTree.inner]. unfold FilesTree.attach.
    assert (HsubD : In sub D) by (apply Hsubs; left; reflexivity).
    assert (Hrest : forall s, In s subs -> In s D)
      by (intros s Hs; apply Hsubs; right; exact Hs).
    destruct (Py.mem sub done) eqn:Hmem; cbn [negb].
    { destruct (IH dir done Hrest Hpp HdD Hd)
        as [dir' [done' [Hi [Hp' [Hd' [Hmono [Horig Hall]]]]]]].
      exists dir', done'. repeat split; auto.
      intros s [<-|Hs] Hsw Hne; [|apply Hall; assumption].
      apply Hmono. apply mem_In. exact Hmem. }
    assert (Hnotdone : ~ In sub done).
    { intros H. apply mem_In in H. congruence. }
    destruct (Py.startswith sub d) eqn:Hsw.
    2:{ destruct (IH dir done Hrest Hpp HdD Hd)
          as [dir' [done' [Hi [Hp' [Hd' [Hmono [Horig Hall]]]]]]].
        exists dir', done'. repeat split; auto.
        intros s [<-|Hs] Hsw' Hne; [congruence|apply Hall; assumption]. }
    destruct (String.eqb_spec sub d) as [Heq|Hne]; cbn [negb].
    { destruct (IH dir done Hrest Hpp HdD Hd)
        as [dir' [done' [Hi [Hp' [Hd' [Hmono [Horig Hall]]]]]]].
      exists dir', done'. repeat split; auto.
      intros s [<-|Hs] Hsw' Hne; [congruence|apply Hall; assumption]. }
    destruct (Dict.get sub dir) as [child|] eqn:Hgs;
      [|exfalso; apply (Hpp sub HsubD Hnotdone); exact Hgs].
    destruct (Dict.get d dir) as [[files nodes]|] eqn:Hgd;
      [|exfalso; apply (Hpp d HdD Hd); exact Hgd].
    set (dir1 := Dict.del sub
                   (Dict.set d (mkNode files (Dict.set sub child nodes)) dir)).
    destruct (IH dir1 (done ++ [sub]) Hrest)
      as [dir' [done' [Hi [Hp' [Hd' [Hmono [Horig Hall]]]]]]].
    + intros x HxD Hx. rewrite in_app_iff in Hx. cbn [In] in Hx.
      assert (Hxs : sub <> x) by (intros ->; tauto).
      unfold dir1. rewrite get_del_other by exact Hxs.
      destruct (String.eqb_spec d x) as [->|Hdx].
      * rewrite get_set_same. discriminate.
      * rewrite get_set_other by exact Hdx. apply Hpp; tauto.
    + exact HdD.
    + rewrite in_app_iff. cbn [In]. intros [H|[H|[]]]; [tauto|congruence].
    + exists dir', done'. split; [exact Hi|]. split; [exact Hp'|].
      split; [exact Hd'|]. split.
      * intros x Hx. apply Hmono. apply in_app_iff. left. exact Hx.
      * split.
        -- intros x Hx. destruct (Horig x Hx) as [H|H]; [|right; exact H].
           rewrite in_app_iff in H. cbn [In] in H.
           destruct H as [H|[<-|[]]]; [left; exact H|right; split; assumption].
        -- intros s [<-|Hs] Hsw' Hne'; [|apply Hall; assumption].
           apply Hmono. apply in_app_iff. right. left. reflexivity.
Qed.

Lemma inner_done d : forall subs dir done,
  (forall s, In s subs -> In s D) ->
  In d done -> done_closed D done ->
  FilesTree.inner d subs (dir, done) = Some (dir, done).
Proof.
  induction subs as [|sub subs IH]; intros dir done Hsubs Hd Hc;
    [reflexivity|].
  cbn [FilesTree.inner]. unfold FilesTree.attach.
  assert (Hrest : forall s, In s subs -> In s D)
    by (intros s Hs; apply Hsubs; right; exact Hs).
  destruct (Py.mem sub done) eqn:Hmem; cbn [negb]; [apply IH; assumption|].
  destruct (Py.startswith sub d) eqn:Hsw; [|apply IH; assumption].
  exfalso. assert (In sub done).
  { apply (Hc d sub Hd); [apply Hsubs; left; reflexivity|exact Hsw]. }
  apply mem_In in H. congruence.
Qed.


End TreeTotal.

Lemma collect_present walk : forall directories dir,
  (forall x, In x directories -> Dict.get x dir <> None) ->
  forall ds dir',
    fold_left FilesTree.collect_step walk (directories, dir) = (ds, dir') ->
    forall x, In x ds -> Dict.get x dir' <> None.
Proof.
  induction walk as [|[[dirpath dirnames] filenames] walk IH];
    intros directories dir Hall ds dir' Hfold.
  - cbn in Hfold. inversion Hfold; subst. exact Hall.
  - cbn [fold_left FilesTree.collect_step] in Hfold.
    refine (IH _ _ _ _ _ Hfold).
    intros x Hx. apply in_app_iff in Hx. cbn [In] in Hx.
    destruct (String.eqb_spec dirpath x) as [->|Hne].
    + rewrite get_set_same. discriminate.
    + rewrite get_set_other by exact Hne. apply Hall. tauto.
Qed.

(** ** The tree builder: where it attaches, and the root *)

Section DictForall.

Context {V : Type}.
Variable P : string * V -> Prop.

Lemma set_Forall k v : forall d,
  Forall P d -> P (k, v) -> Forall P (Dict.set k v d).
Proof.
  induction d as [|[k0 v0] d IH]; intros Hd Hk; cbn [Dict.set].
  - constructor; [exact Hk|constructor].
  - inversion Hd; subst.
    destruct (String.eqb_spec k0 k) as [->|Hne]; constructor; auto.
Qed.

Lemma del_Forall k : forall d, Forall P d -> Forall P (Dict.del k d).
Proof.
  induction d as [|[k0 v0] d IH]; intros Hd; cbn [Dict.del]; [constructor|].
  inversion Hd; subst. destruct (k0 =? k); [assumption|constructor; auto].
Qed.

Lemma get_Forall k v : forall d,
  Forall P d -> Dict.get k d = Some v -> P (k, v).
Proof.
  induction d as [|[k0 v0] d IH]; intros Hd; cbn [Dict.get]; [discriminate|].
  inversion Hd; subst. destruct (String.eqb_spec k0 k) as [->|Hne].
  - intros H. inversion H; subst. assumption.
  - apply IH. assumption.
Qed.

End DictForall.

Section Nested.

Import TreeShape.
Local Open Scope list_scope.

Lemma nested_in_Forall owner files subs :
  nested_in owner (mkNode files subs) <-> Forall (attached_ok owner) subs.
Proof.
  cbn [nested_in]. induction subs as [|[k c] r IH].
  - split; [constructor|trivial].
  - split.
    + intros [H Hr]. constructor; [exact H|apply IH; exact Hr].
    + intros H. inversion H; subst. split; [assumption|apply IH; assumption].
Qed.

Lemma attach_nested d sub dir done dir' done' :
  FilesTree.attach d sub (dir, done) = Some (dir', done') ->
  Forall top_ok dir -> Forall top_ok dir'.
Proof.
  unfold FilesTree.attach. intros H Hall.
  destruct (negb (Py.mem sub done)); [|inversion H; subst; exact Hall].
  destruct (Py.startswith sub d) eqn:Hsw; [|inversion H; subst; exact Hall].
  destruct (String.eqb_spec sub d) as [->|Hne]; cbn [negb] in H;
    [inversion H; subst; exact Hall|].
  destruct (Dict.get sub dir) as [child|] eqn:Hsub; [|discriminate].
  destruct (Dict.get d dir) as [[files subs]|] eqn:Hd; [|discriminate].
  inversion H; subst dir' done'. clear H.
  apply del_Forall. apply set_Forall; [exact Hall|].
  unfold top_ok. cbn [fst snd]. apply nested_in_Forall.
  apply set_Forall.
  - apply (nested_in_Forall d files subs).
    apply (get_Forall top_ok d _ dir Hall Hd).
  - unfold attached_ok. cbn [fst snd]. split; [exact Hsw|]. split; [exact Hne|].
    apply (get_Forall top_ok sub _ dir Hall Hsub).
Qed.

Lemma inner_nested d : forall subs dir done dir' done',
  FilesTree.inner d subs (dir, done) = Some (dir', done') ->
  Forall top_ok dir -> Forall top_ok dir'.
Proof.
  induction subs as [|sub subs IH]; intros dir done dir' done' H Hall.
  - cbn in H. inversion H; subst. exact Hall.
  - cbn [FilesTree.inner] in H.
    destruct (FilesTree.attach d sub (dir, done)) as [[dir1 done1]|] eqn:Ha;
      [|discriminate].
    apply (IH _ _ _ _ H). apply (attach_nested _ _ _ _ _ _ Ha Hall).
Qed.

Lemma outer_nested directories : forall ds dir done dir' done',
  FilesTree.outer ds directories (dir, done) = Some (dir', done') ->
  Forall top_ok dir -> Forall top_ok dir'.
Proof.
  induction ds as [|d ds IH]; intros dir done dir' done' H Hall.
  - cbn in H. inversion H; subst. exact Hall.
  - cbn [FilesTree.outer] in H.
    destruct (FilesTree.inner d directories (dir, done))
      as [[dir1 done1]|] eqn:Hi; [|discriminate].
    apply (IH _ _ _ _ H). apply (inner_nested _ _ _ _ _ _ Hi Hall).
Qed.

Lemma collect_nested walk : forall directories dir ds dir',
  Forall top_ok dir ->
  fold_left FilesTree.collect_step walk (directories, dir) = (ds, dir') ->
  Forall top_ok dir'.
Proof.
  induction walk as [|[[dirpath dirnames] filenames] walk IH];
    intros directories dir ds dir' Hall Hfold.
  - cbn in Hfold. inversion Hfold; subst. exact Hall.
  - cbn [fold_left FilesTree.collect_step] in Hfold.
    refine (IH _ _ _ _ _ Hfold). apply set_Forall; [exact Hall|].
    unfold top_ok. cbn. trivial.
Qed.

Lemma getFilesTree_nested walk t :
  FilesTree.getFilesTree walk = Some t -> Forall top_ok t.
Proof.
  unfold FilesTree.getFilesTree.
  destruct (FilesTree.collect walk) as [directories dir] eqn:Hc.
  destruct (FilesTree.outer _ _ _) as [[dir' done']|] eqn:Ho; [|discriminate].
  intros H. inversion H; subst.
  apply (outer_nested _ _ _ _ _ _ Ho).
  apply (collect_nested walk [] [] _ _ (Forall_nil _) Hc).
Qed.

(** Where [parent_in] finds the directory, it is attached to a
    directory whose path is a proper prefix of its own. *)
Lemma parent_in_prefix p : forall n owner o,
  nested_in owner n ->
  FilesTree.parent_in p owner n = Some o ->
  Py.startswith p o = true /\ p <> o.
Proof.
  fix IH 1. intros [files subs] owner o Hn. cbn [FilesTree.parent_in].
  apply nested_in_Forall in Hn.
  destruct (Dict.get p subs) as [c|] eqn:Hg.
  - intros H. inversion H; subst.
    destruct (get_Forall (attached_ok o) p c subs Hn Hg) as [H1 [H2 _]].
    auto.
  - clear Hg. induction subs as [|[k c] r IHr]; [discriminate|].
    inversion Hn as [|? ? [_ [_ Hc]] Hr]; subst. cbn [fst snd] in Hc.
    destruct (FilesTree.parent_in p k c) as [o'|] eqn:Hp.
    + intros H. inversion H; subst. apply (IH c k o Hc Hp).
    + apply IHr. exact Hr.
Qed.

End Nested.

(** X9.  In the returned tree a directory is only ever attached, at any
    depth, below a directory whose path is a proper string prefix of its
    own path. *)
Theorem getFilesTree_attaches_under_prefixes walk t p o :
  FilesTree.getFilesTree walk = Some t ->
  FilesTree.parent_of p t = Some o ->
  Py.startswith p o = true /\ p <> o.
Proof.
  intros Ht. pose proof (getFilesTree_nested walk t Ht) as Hall.
  clear Ht. induction t as [|[k n] r IH]; cbn [FilesTree.parent_of];
    [discriminate|].
  inversion Hall; subst.
  destruct (FilesTree.parent_in p k n) as [o'|] eqn:Hp.
  - intros H. inversion H; subst.
    apply (parent_in_prefix p n k o); assumption.
  - apply IH. assumption.
Qed.

Lemma getFilesTree_attaches_under_prefixes_witness :
  Py.startswith "/out/docs/old" "/out/docs" = true
  /\ "/out/docs/old" <> "/out/docs".
Proof.
  eapply (getFilesTree_attaches_under_prefixes Cases.folder_walk).
  - vm_compute. reflexivity.
  - vm_compute. reflexivity.
Defined.

Section TopLevel.

Import TreeShape.
Local Open Scope list_scope.

Lemma keys_set_present {V} k (v : V) : forall d,
  Dict.get k d <> None -> map fst (Dict.set k v d) = map fst d.
Proof.
  induction d as [|[k0 v0] d IH]; cbn [Dict.get Dict.set]; [congruence|].
  destruct (String.eqb_spec k0 k) as [->|Hne]; intros H; cbn [map fst].
  - reflexivity.
  - rewrite IH by exact H. reflexivity.
Qed.

Lemma keys_del {V} k : forall (d : list (string * V)),
  NoDup (map fst d) ->
  NoDup (map fst (Dict.del k d))
  /\ forall x, In x (map fst (Dict.del k d)) <-> In x (map fst d) /\ x <> k.
Proof.
  induction d as [|[k0 v0] d IH]; cbn [Dict.del map fst]; intros Hnd.
  - split; [constructor|]. intros x. cbn. tauto.
  - inversion Hnd as [|? ? Hnotin Hnd']; subst.
    destruct (IH Hnd') as [IH1 IH2].
    destruct (String.eqb_spec k0 k) as [->|Hne].
    + split; [exact Hnd'|]. intros x. cbn [In]. split.
      * intros Hx. split; [right; exact Hx|]. intros ->. contradiction.
      * intros [[->|Hx] Hxk]; [contradiction|exact Hx].
    + cbn [map fst]. split.
      * constructor; [|exact IH1]. intros H. apply IH2 in H. tauto.
      * intros x. cbn [In]. rewrite IH2. split.
        -- intros [->|[Hx Hxk]]; [split; [left; reflexivity|exact Hne]|tauto].
        -- intros [[->|Hx] Hxk]; [left; reflexivity|right; tauto].
Qed.


Lemma attach_keys D d sub dir done dir' done' :
  FilesTree.attach d sub (dir, done) = Some (dir', done') ->
  keys_pending D dir done -> keys_pending D dir' done'.
Proof.
  unfold FilesTree.attach. intros H HK.
  destruct (negb (Py.mem sub done)); [|inversion H; subst; exact HK].
  destruct (Py.startswith sub d); [|inversion H; subst; exact HK].
  destruct (String.eqb_spec sub d) as [->|Hne]; cbn [negb] in H;
    [inversion H; subst; exact HK|].
  destruct (Dict.get sub dir) as [child|] eqn:Hsub; [|discriminate].
  destruct (Dict.get d dir) as [[files subs]|] eqn:Hd; [|discriminate].
  inversion H; subst dir' done'. clear H.
  destruct HK as [Hnd Hnot]. unfold keys_pending.
  set (dir1 := Dict.set d (mkNode files (Dict.set sub child subs)) dir).
  assert (Hkeys : map fst dir1 = map fst dir)
    by (apply keys_set_present; congruence).
  assert (Hnd1 : NoDup (map fst dir1)) by (rewrite Hkeys; exact Hnd).
  destruct (keys_del sub dir1 Hnd1) as [H1 H2].
  split; [exact H1|].
  intros k Hk. apply H2 in Hk. destruct Hk as [Hk Hks].
  rewrite Hkeys in Hk. destruct (Hnot k Hk) as [HkD Hkdone].
  split; [exact HkD|]. rewrite in_app_iff. cbn [In].
  intros [Hdone|[Heq|[]]]; [exact (Hkdone Hdone)|congruence].
Qed.

Lemma inner_keys D d : forall subs dir done dir' done',
  FilesTree.inner d subs (dir, done) = Some (dir', done') ->
  keys_pending D dir done -> keys_pending D dir' done'.
Proof.
  induction subs as [|sub subs IH]; intros dir done dir' done' H HK.
  - cbn in H. inversion H; subst. exact HK.
  - cbn [FilesTree.inner] in H.
    destruct (FilesTree.attach d sub (dir, done)) as [[dir1 done1]|] eqn:Ha;
      [|discriminate].
    apply (IH _ _ _ _ H). apply (attach_keys _ _ _ _ _ _ _ Ha HK).
Qed.

Lemma outer_keys D directories : forall ds dir done dir' done',
  FilesTree.outer ds directories (dir, done) = Some (dir', done') ->
  keys_pending D dir done -> keys_pending D dir' done'.
Proof.
  induction ds as [|d ds IH]; intros dir done dir' done' H HK.
  - cbn in H. inversion H; subst. exact HK.
  - cbn [FilesTree.outer] in H.
    destruct (FilesTree.inner d directories (dir, done))
      as [[dir1 done1]|] eqn:Hi; [|discriminate].
    apply (IH _ _ _ _ H). apply (inner_keys _ _ _ _ _ _ _ Hi HK).
Qed.

(** The second loop, with what it leaves. *)
Lemma outer_post D : forall ds dir done,
  (forall d, In d ds -> In d D) ->
  pending_present D dir done -> done_closed D done ->
  exists dir' done',
    FilesTree.outer ds D (dir, done) = Some (dir', done')
    /\ pending_present D dir' done'
    /\ done_closed D done'
    /\ (forall x, In x done -> In x done')
    /\ (forall x, In x done' ->
          In x done
          \/ exists d, In d D /\ Py.startswith x d = true /\ x <> d)
    /\ (forall d s, In d ds -> In s D -> Py.startswith s d = true ->
          s <> d -> In s done').
Proof.
  induction ds as [|d ds IH]; intros dir done Hds Hpp Hc.
  - exists dir, done. cbn [FilesTree.outer]. repeat split; auto.
    intros d s [].
  - cbn [FilesTree.outer].
    assert (HdD : In d D) by (apply Hds; left; reflexivity).
    assert (Hrest : forall d', In d' ds -> In d' D)
      by (intros d' Hd'; apply Hds; right; exact Hd').
    destruct (in_dec string_dec d done) as [Hd|Hd].
    + rewrite (inner_done D d D dir done (fun s H => H) Hd Hc).
      destruct (IH dir done Hrest Hpp Hc)
        as [dir' [done' [Ho [Hp' [Hc' [Hmono [Horig Hall]]]]]]].
      exists dir', done'. repeat split; auto.
      intros d0 s [<-|Hd0] HsD Hsw Hne; [|apply (Hall d0 s); assumption].
      apply Hmono. apply (Hc d s Hd HsD Hsw).
    + destruct (inner_pending D d D dir done (fun s H => H) Hpp HdD Hd)
        as [dir1 [done1 [Hi [Hp1 [Hd1 [Hmono1 [Horig1 Hall1]]]]]]].
      rewrite Hi.
      assert (Hc1 : done_closed D done1).
      { intros x sub Hx HsubD Hsw.
        destruct (Horig1 x Hx) as [Hold|[Hxd Hne]].
        - apply Hmono1. apply (Hc x sub Hold HsubD Hsw).
        - apply Hall1; [exact HsubD| |].
          + unfold Py.startswith in *. apply (prefix_trans d x sub Hxd Hsw).
          + intros ->. apply Hne. unfold Py.startswith in *.
            apply prefix_antisym; assumption. }
      destruct (IH dir1 done1 Hrest Hp1 Hc1)
        as [dir' [done' [Ho [Hp' [Hc' [Hmono [Horig Hall]]]]]]].
      exists dir', done'. split; [exact Ho|]. split; [exact Hp'|].
      split; [exact Hc'|]. split; [auto|]. split.
      * intros x Hx. destruct (Horig x Hx) as [H1|H1]; [|right; exact H1].
        destruct (Horig1 x H1) as [H0|[Hsw Hne]]; [left; exact H0|].
        right. exists d. auto.
      * intros d0 s [<-|Hd0] HsD Hsw Hne; [|apply (Hall d0 s); assumption].
        apply Hmono. apply Hall1; assumption.
Qed.

Lemma get_in_keys {V} k : forall (d : list (string * V)),
  In k (map fst d) -> Dict.get k d <> None.
Proof.
  induction d as [|[k0 v0] d IH]; cbn [map fst In Dict.get]; [tauto|].
  destruct (String.eqb_spec k0 k) as [->|Hne]; [discriminate|].
  intros [H|H]; [congruence|exact (IH H)].
Qed.

Lemma keys_set_new {V} k (v : V) : forall d,
  Dict.get k d = None -> map fst (Dict.set k v d) = map fst d ++ [k].
Proof.
  induction d as [|[k0 v0] d IH]; cbn [Dict.get Dict.set map fst app];
    [reflexivity|].
  destruct (String.eqb_spec k0 k) as [->|Hne]; [discriminate|].
  intros H. cbn [map fst]. rewrite IH by exact H. reflexivity.
Qed.

(** The first loop leaves distinct keys, all of them in the list. *)
Lemma collect_keys walk : forall directories dir ds dir',
  NoDup (map fst dir) ->
  (forall k, In k (map fst dir) -> In k directories) ->
  fold_left FilesTree.collect_step walk (directories, dir) = (ds, dir') ->
  NoDup (map fst dir') /\ (forall k, In k (map fst dir') -> In k ds).
Proof.
  induction walk as [|[[dirpath dirnames] filenames] walk IH];
    intros directories dir ds dir' Hnd Hsub Hfold.
  - cbn in Hfold. inversion Hfold; subst. auto.
  - cbn [fold_left FilesTree.collect_step] in Hfold.
    refine (IH _ _ _ _ _ _ Hfold).
    + destruct (Dict.get dirpath dir) as [v|] eqn:Hg.
      * rewrite keys_set_present by congruence. exact Hnd.
      * rewrite keys_set_new by exact Hg.
        apply NoDup_app; [exact Hnd|repeat constructor; intros []|].
        intros x Hx [<-|[]]. apply get_in_keys in Hx. contradiction.
    + intros k Hk. rewrite in_app_iff. cbn [In].
      destruct (Dict.get dirpath dir) as [v|] eqn:Hg.
      * rewrite keys_set_present in Hk by congruence. left. auto.
      * rewrite keys_set_new in Hk by exact Hg. apply in_app_iff in Hk.
        cbn [In] in Hk. destruct Hk as [Hk|[Hk|[]]]; auto.
Qed.

Lemma collect_directories walk : forall directories dir,
  fst (fold_left FilesTree.collect_step walk (directories, dir))
  = directories ++ map TreeShape.dirpath_of walk.
Proof.
  induction walk as [|[[dirpath dirnames] filenames] walk IH];
    intros directories dir.
  - cbn. rewrite app_nil_r. reflexivity.
  - cbn [fold_left FilesTree.collect_step map TreeShape.dirpath_of fst].
    rewrite IH, <- app_assoc. reflexivity.
Qed.

(** The second loop finds every key it looks up. *)
Lemma getFilesTree_returns walk : FilesTree.getFilesTree walk <> None.
Proof.
  unfold FilesTree.getFilesTree.
  destruct (FilesTree.collect walk) as [directories dir] eqn:Hc.
  assert (Hpresent : forall x, In x directories -> Dict.get x dir <> None).
  { apply (collect_present walk [] [] ltac:(intros x []) _ _ Hc). }
  destruct (outer_post (rev directories) (rev directories) dir [])
    as [dir' [done' [Ho _]]].
  - auto.
  - intros x Hx _. apply Hpresent. apply in_rev. exact Hx.
  - intros x sub [].
  - rewrite Ho. discriminate.
Qed.

End TopLevel.

(** X10.  Whatever the triples of the walk, the builder returns a tree:
    none of its look-ups in the dict of directories fails with a
    [KeyError], although entries are deleted while the loops run. *)
Theorem getFilesTree_never_raises walk :
  exists t, FilesTree.getFilesTree walk = Some t.
Proof.
  destruct (FilesTree.getFilesTree walk) as [t|] eqn:Ht.
  - exists t. reflexivity.
  - exfalso. apply (getFilesTree_returns walk Ht).
Qed.

(** X11.  When the path of every triple of the walk starts with the path
    of the first triple, as in a walk of one folder, the builder returns
    a tree with exactly one top-level key, the path of the first triple:
    every other directory has been moved below it. *)
Theorem getFilesTree_single_root root dirnames filenames rest :
  (forall e, In e rest ->
     Py.startswith (TreeShape.dirpath_of e) root = true) ->
  exists n,
    FilesTree.getFilesTree ((root, dirnames, filenames) :: rest)
    = Some [(root, n)].
Proof.
  intros Hroot. set (walk := (root, dirnames, filenames) :: rest).
  unfold FilesTree.getFilesTree.
  destruct (FilesTree.collect walk) as [directories dir] eqn:Hc.
  assert (HD : directories = root :: map TreeShape.dirpath_of rest).
  { pose proof (collect_directories walk [] []) as H.
    change (fold_left FilesTree.collect_step walk ([], []))
      with (FilesTree.collect walk) in H.
    rewrite Hc in H. exact H. }
  destruct (collect_keys walk [] [] _ _ (NoDup_nil _)
              ltac:(intros k []) Hc) as [Hnd Hsub].
  assert (Hpresent : forall x, In x directories -> Dict.get x dir <> None).
  { apply (collect_present walk [] [] ltac:(intros x []) _ _ Hc). }
  set (D := rev directories).
  assert (HinD : forall x, In x D <-> In x directories)
    by (intros x; symmetry; apply in_rev).
  destruct (outer_post D D dir [])
    as [dir' [done' [Ho [Hp [_ [_ [Horig Hall]]]]]]].
  - auto.
  - intros x Hx _. apply Hpresent, HinD, Hx.
  - intros x sub [].
  - rewrite Ho.
    assert (HK : TreeShape.keys_pending D dir' done').
    { apply (outer_keys D D D dir [] dir' done' Ho). split; [exact Hnd|].
      intros k Hk. split; [apply HinD, Hsub, Hk|intros []]. }
    destruct HK as [Hnd' Hkeys].
    assert (HrootD : In root D) by (apply HinD; rewrite HD; left; reflexivity).
    assert (Hstart : forall s, In s D -> Py.startswith s root = true).
    { intros s Hs. apply HinD in Hs. rewrite HD in Hs.
      destruct Hs as [<-|Hs].
      - unfold Py.startswith. clear. induction root as [|a r IH];
          [reflexivity|]. cbn [prefix]. destruct (Ascii.ascii_dec a a);
          [exact IH|congruence].
      - apply in_map_iff in Hs. destruct Hs as [e [<- He]]. auto. }
    assert (Hrootpending : ~ In root done').
    { intros H. destruct (Horig root H) as [[]|[d [Hd [Hsw Hne]]]].
      apply Hne. unfold Py.startswith in *.
      apply prefix_antisym; [apply (Hstart d Hd)|exact Hsw]. }
    assert (Honly : forall k, In k (map fst dir') -> k = root).
    { intros k Hk. destruct (Hkeys k Hk) as [HkD Hkdone].
      destruct (string_dec k root) as [E|E]; [exact E|]. exfalso.
      apply Hkdone. apply (Hall root k HrootD HkD (Hstart k HkD) E). }
    pose proof (Hp root HrootD Hrootpending) as Hget.
    destruct dir' as [|[k n] [|[k2 n2] more]].
    + cbn in Hget. congruence.
    + exists n. rewrite (Honly k) by (left; reflexivity). reflexivity.
    + exfalso. cbn [map fst] in Hnd', Honly.
      inversion Hnd' as [|? ? Hnotin _]; subst. apply Hnotin.
      rewrite (Honly k) by (left; reflexivity).
      rewrite (Honly k2) by (right; left; reflexivity). left. reflexivity.
Qed.

Lemma getFilesTree_single_root_witness :
  exists n, FilesTree.getFilesTree Cases.folder_walk = Some [("/out", n)].
Proof.
  apply (getFilesTree_single_root "/out" ["docs"; "img"] ["audit.log"]
           [ ("/out/docs", ["old"], ["a.txt"]);
             ("/out/docs/old", [], ["b.txt"; "c.txt"]);
             ("/out/img", [], []) ]).
  intros e [<-|[<-|[<-|[]]]]; reflexivity.
Defined.

(** ** Selection *)

Lemma selected_In i l : selected i l = true <-> In i l.
Proof.
  unfold selected. rewrite existsb_exists. split.
  - intros [j [Hin Heq]]. apply Nat.eqb_eq in Heq. subst. exact Hin.
  - intros Hin. exists i. split; [exact Hin|apply Nat.eqb_refl].
Qed.

Lemma in_remove_first i j l :
  In j (remove_first i l) -> In j l.
Proof.
  induction l as [|x l IH]; cbn [remove_first]; [auto|].
  destruct (x =? i)%nat; cbn [In]; tauto.
Qed.

Lemma remove_first_nodup i l :
  NoDup l ->
  NoDup (remove_first i l)
  /\ forall j, In j (remove_first i l) <-> In j l /\ j <> i.
Proof.
  induction 1 as [|x l Hx Hnd [IH1 IH2]]; cbn [remove_first].
  - split; [constructor|]. intros j. cbn. tauto.
  - destruct (Nat.eqb_spec x i) as [->|Hne].
    + split; [exact Hnd|]. intros j. cbn [In]. split.
      * intros Hj. split; [right; exact Hj|]. intros ->. contradiction.
      * intros [[->|Hj] Hne]; [contradiction|exact Hj].
    + split.
      * constructor; [|exact IH1]. intros H. apply IH2 in H. tauto.
      * intros j. cbn [In]. rewrite IH2. split.
        -- intros [->|[Hj Hji]]; [split; [left; reflexivity|exact Hne]|tauto].
        -- intros [[->|Hj] Hji]; [left; reflexivity|right; tauto].
Qed.

(** X12.  A click in the carve window toggles the clicked index in the
    selection and nothing else: the index is selected afterwards exactly
    when it was not before, every other index keeps its state, and a
    selection without duplicates stays without duplicates. *)
Theorem carvePartitionsCheck_toggles l i :
  NoDup l ->
  NoDup (carvePartitionsCheck l i)
  /\ (In i (carvePartitionsCheck l i) <-> ~ In i l)
  /\ (forall j, j <> i -> (In j (carvePartitionsCheck l i) <-> In j l)).
Proof.
  intros Hnd. unfold carvePartitionsCheck.
  destruct (selected i l) eqn:Hs.
  - apply selected_In in Hs.
    destruct (remove_first_nodup i l Hnd) as [H1 H2].
    split; [exact H1|]. split.
    + rewrite H2. tauto.
    + intros j Hj. rewrite H2. tauto.
  - assert (Hi : ~ In i l).
    { intros H. apply selected_In in H. congruence. }
    split; [|split].
    + apply NoDup_app; [exact Hnd|repeat constructor; intros []|].
      intros x Hx [<-|[]]. contradiction.
    + rewrite in_app_iff. cbn. tauto.
    + intros j Hj. rewrite in_app_iff. cbn.
      split; [intros [H|[H|[]]]; [exact H|congruence]|tauto].
Qed.

Lemma carvePartitionsCheck_toggles_witness :
  NoDup (carvePartitionsCheck [0; 2] 2)
  /\ (In 2 (carvePartitionsCheck [0; 2] 2) <-> ~ In 2 [0; 2])
  /\ (forall j, j <> 2 ->
        (In j (carvePartitionsCheck [0; 2] 2) <-> In j [0; 2])).
Proof.
  apply (carvePartitionsCheck_toggles [0; 2] 2).
  repeat constructor; cbn; intuition discriminate.
Defined.

(** X13.  The clicks in the recover window keep the selection within the
    carved partitions of the registry: a click on a partition that is
    not carved adds nothing, a click on a selected one removes it. *)
Theorem recoverFilesCheck_selects_carved registry l i l' :
  Forall (fun j => exists p,
            nth_error registry j = Some p /\ Carved p = "Yes") l ->
  recoverFilesCheck registry l i = Some l' ->
  Forall (fun j => exists p,
            nth_error registry j = Some p /\ Carved p = "Yes") l'.
Proof.
  intros Hall. unfold recoverFilesCheck.
  destruct (selected i l).
  - intros H. inversion H; subst. rewrite Forall_forall in *.
    intros j Hj. apply Hall. apply (in_remove_first i j l Hj).
  - destruct (nth_error registry i) as [p|] eqn:Hp; [|discriminate].
    destruct (String.eqb_spec (Carved p) "Yes") as [Hc|Hc];
      intros H; inversion H; subst; [|exact Hall].
    apply Forall_app. split; [exact Hall|].
    constructor; [|constructor]. exists p. split; assumption.
Qed.

Lemma recoverFilesCheck_selects_carved_witness :
  Forall (fun j => exists p,
            nth_error Cases.carved_registry j = Some p /\ Carved p = "Yes")
    [2].
Proof.
  apply (recoverFilesCheck_selects_carved Cases.carved_registry [] 2 [2]).
  - constructor.
  - vm_compute. reflexivity.
Defined.

(** ** The configuration of the carver *)

(** X14.  Every line written to [scal.config] is a line of the shipped
    configuration that contains one of the ticked file types, with each
    ["#"] replaced by a space; no written line holds a ["#"]. *)
Theorem config_lines_uncommented env types line :
  In line (CarveFiles.config env types) ->
  Py.contains "#" line = false
  /\ exists conf,
      In conf (scalpel_conf env)
      /\ line = Py.replace conf "#" " "
      /\ exists t, In t types /\ Py.contains t conf = true.
Proof.
  unfold CarveFiles.config. intros H. apply in_map_iff in H.
  destruct H as [conf [<- Hin]]. apply filter_In in Hin.
  destruct Hin as [Hin Hex]. apply existsb_exists in Hex.
  split; [apply replace_char_gone; reflexivity|].
  exists conf. split; [exact Hin|]. split; [reflexivity|].
  destruct Hex as [t [Ht Hc]]. exists t. split; assumption.
Qed.

Lemma config_lines_uncommented_witness :
  Py.contains "#" "        png     y       20000000        PNG" = false
  /\ exists conf,
      In conf (scalpel_conf Cases.carver_env)
      /\ "        png     y       20000000        PNG"
         = Py.replace conf "#" " "
      /\ exists t, In t ["png"; "gif"] /\ Py.contains t conf = true.
Proof.
  apply (config_lines_uncommented Cases.carver_env ["png"; "gif"]).
  vm_compute. left. reflexivity.
Defined.

(** ** What each operation may change in the registry *)

Section Respects.

Import Frame.

Variable R : Rel.
Hypothesis R_refl : forall i p, R i p p.
Hypothesis R_trans : forall i p q r, R i p q -> R i q r -> R i p r.

Lemma respects_same {A} (m : M A) :
  (forall w, listOfPartitions (fst (m w)) = listOfPartitions w) ->
  respects R m.
Proof.
  intros H w. rewrite H. split; [reflexivity|].
  intros i p Hp. exists p. split; [exact Hp|apply R_refl].
Qed.

Lemma respects_ret {A} (a : A) : respects R (ret a).
Proof. apply respects_same. reflexivity. Qed.

Lemma respects_raise {A} : respects R (@raise A).
Proof. apply respects_same. reflexivity. Qed.

Lemma respects_emit e : respects R (emit e).
Proof. apply respects_same. reflexivity. Qed.

Lemma respects_of_option {A} (o : option A) : respects R (of_option o).
Proof. destruct o; [apply respects_ret|apply respects_raise]. Qed.

Lemma respects_partition_at i : respects R (partition_at i).
Proof. apply respects_same. reflexivity. Qed.

Lemma respects_get_registry : respects R get_registry.
Proof. apply respects_same. reflexivity. Qed.

Lemma respects_insertCommand t d : respects R (insertCommand t d).
Proof. apply respects_emit. Qed.

Lemma respects_put t d : respects R (put t d).
Proof. apply respects_emit. Qed.

Lemma respects_update_at i f :
  (forall p, R i p (f p)) -> respects R (update_at i f).
Proof.
  intros Hf w. unfold update_at.
  destruct (nth_error (listOfPartitions w) i) as [q|] eqn:Hi.
  - cbn [fst listOfPartitions]. split; [apply length_update_nth|].
    intros j p Hp. rewrite nth_error_update_nth, Hp.
    destruct (Nat.eqb_spec i j) as [->|Hne].
    + exists (f p). split; [reflexivity|apply Hf].
    + exists p. split; [reflexivity|apply R_refl].
  - cbn [fst]. split; [reflexivity|].
    intros j p Hp. exists p. split; [exact Hp|apply R_refl].
Qed.

Lemma respects_bind {A B} (m : M A) (k : A -> M B) :
  respects R m -> (forall a, respects R (k a)) -> respects R (bind m k).
Proof.
  intros Hm Hk w. unfold bind. destruct (Hm w) as [Hlen Hrel].
  destruct (m w) as [w' [a|]]; cbn [fst] in *.
  - destruct (Hk a w') as [Hlen' Hrel']. split; [congruence|].
    intros i p Hp. destruct (Hrel i p Hp) as [q [Hq Rq]].
    destruct (Hrel' i q Hq) as [r [Hr Rr]].
    exists r. split; [exact Hr|apply (R_trans i p q r Rq Rr)].
  - split; [exact Hlen|exact Hrel].
Qed.

Lemma respects_for_each {A} (l : list A) (body : A -> M unit) :
  (forall x, In x l -> respects R (body x)) -> respects R (for_each l body).
Proof.
  induction l as [|x l IH]; intros Hb; cbn [for_each].
  - apply respects_ret.
  - apply respects_bind.
    + apply Hb. left. reflexivity.
    + intros _. apply IH. intros y Hy. apply Hb. right. exact Hy.
Qed.

End Respects.

Lemma respects_weaken (R1 R2 : Frame.Rel) {A} (m : M A) :
  (forall i p p', R1 i p p' -> R2 i p p') ->
  Frame.respects R1 m -> Frame.respects R2 m.
Proof.
  intros Hsub Hm w. destruct (Hm w) as [Hlen Hrel]. split; [exact Hlen|].
  intros i p Hp. destruct (Hrel i p Hp) as [p' [Hp' HR]].
  exists p'. split; [exact Hp'|apply Hsub; exact HR].
Qed.

(** Breaks a computation into its steps; what is left are the
    assignments to the registry and the calls. *)
Ltac frame_step Hrefl Htrans :=
  first
    [ apply respects_ret; exact Hrefl
    | apply respects_raise; exact Hrefl
    | apply respects_emit; exact Hrefl
    | apply respects_of_option; exact Hrefl
    | apply respects_partition_at; exact Hrefl
    | apply respects_get_registry; exact Hrefl
    | apply respects_insertCommand; exact Hrefl
    | apply respects_put; exact Hrefl
    | assumption
    | match goal with
      | H : context [Frame.respects] |- _ => solve [apply H]
      end
    | apply (respects_bind _ Htrans); [|intros ?]
    | match goal with
      | |- Frame.respects _ (if ?c then _ else _) => destruct c eqn:?
      | |- Frame.respects _ (match ?o with Some _ => _ | None => _ end) =>
          destruct o eqn:?
      | |- Frame.respects _ (match ?o with inl _ => _ | inr _ => _ end) =>
          destruct o eqn:?
      | |- Frame.respects _ (let '(_, _) := ?x in _) => destruct x eqn:?
      end ].

Ltac frame Hrefl Htrans := repeat frame_step Hrefl Htrans.

Section RespectsDisplay.

Import Frame.

Variable R : Rel.
Hypothesis R_refl : forall i p, R i p p.
Hypothesis R_trans : forall i p q r, R i p q -> R i q r -> R i p r.

Lemma respects_getMd5 env f m : respects R (getMd5 env f m).
Proof. unfold getMd5. frame R_refl R_trans. Qed.

Lemma respects_addItems env md5path : forall dir,
  respects R (addItems env dir md5path).
Proof.
  pose proof respects_getMd5 as Hmd5.
  fix IH 1. intros [f subs]. cbn [addItems].
  apply (respects_bind R R_trans).
  - apply (respects_for_each R R_refl R_trans). intros i _.
    frame R_refl R_trans.
  - intros _. induction subs as [|[item n] r IHr].
    + apply respects_ret. exact R_refl.
    + apply (respects_bind R R_trans);
        [apply respects_emit; exact R_refl|intros _].
      apply (respects_bind R R_trans); [apply IH|intros _; exact IHr].
Qed.

Lemma respects_show_tree env dir : respects R (show_tree env dir).
Proof.
  unfold show_tree. apply (respects_for_each R R_refl R_trans).
  intros [key n] _.
  apply (respects_bind R R_trans);
    [apply respects_emit; exact R_refl|intros _].
  apply respects_addItems.
Qed.

End RespectsDisplay.

Section RelationsOfKeys.

Import Frame.

Lemma carve_keys_refl p : carve_keys p p.
Proof. exists (Carved p), (Path p), (FSType p). destruct p; reflexivity. Qed.

Lemma carve_keys_trans p q r : carve_keys p q -> carve_keys q r -> carve_keys p r.
Proof.
  intros [c [pa [f ->]]] [c' [pa' [f' ->]]]. exists c', pa', f'.
  destruct p; reflexivity.
Qed.

Lemma recovered_key_trans p q r :
  recovered_key p q -> recovered_key q r -> recovered_key p r.
Proof.
  intros [->|[v ->]] [->|[v' ->]]; unfold recovered_key; eauto.
  right. exists v'. destruct p; reflexivity.
Qed.

Lemma carvedFiles_key_refl p : carvedFiles_key p p.
Proof. left. reflexivity. Qed.

Lemma carvedFiles_key_trans p q r :
  carvedFiles_key p q -> carvedFiles_key q r -> carvedFiles_key p r.
Proof.
  intros [->| ->] [->| ->]; unfold carvedFiles_key; auto.
Qed.

Lemma md5_key_trans p q r : md5_key p q -> md5_key q r -> md5_key p r.
Proof.
  intros [->|[v ->]] [->|[v' ->]]; unfold md5_key; eauto.
  right. exists v'. destruct p; reflexivity.
Qed.

Lemma only_at_refl sel K :
  (forall p, K p p) -> forall i p, only_at sel K i p p.
Proof. intros HK i p. split; [reflexivity|apply HK]. Qed.

Lemma only_at_trans sel K :
  (forall p q r, K p q -> K q r -> K p r) ->
  forall i p q r, only_at sel K i p q -> only_at sel K i q r ->
                  only_at sel K i p r.
Proof.
  intros HK i p q r [H1 K1] [H2 K2]. split.
  - intros Hi. rewrite (H2 Hi). apply H1. exact Hi.
  - apply (HK p q r K1 K2).
Qed.

End RelationsOfKeys.

Section FrameOfCarve.

Import Frame.

Variable pos : nat.

Lemma carve_rel_refl i p : carve_rel pos i p p.
Proof. apply only_at_refl. apply carve_keys_refl. Qed.

Lemma carve_rel_trans i p q r :
  carve_rel pos i p q -> carve_rel pos i q r -> carve_rel pos i p r.
Proof. apply only_at_trans. apply carve_keys_trans. Qed.

Lemma carve_rel_set (f : Partition -> Partition) :
  (forall p, carve_keys p (f p)) -> forall p, carve_rel pos pos p (f p).
Proof.
  intros Hf p. split; [|apply Hf].
  intros Hn. exfalso. apply Hn. left. reflexivity.
Qed.

Lemma carve_keys_Carved v p : carve_keys p (set_Carved v p).
Proof. exists v, (Path p), (FSType p). destruct p; reflexivity. Qed.

Lemma carve_keys_Path v p : carve_keys p (set_Path v p).
Proof. exists (Carved p), v, (FSType p). destruct p; reflexivity. Qed.

Lemma carve_keys_FSType v p : carve_keys p (set_FSType v p).
Proof. exists (Carved p), (Path p), v. destruct p; reflexivity. Qed.

Lemma respects_classify name outPath so se :
  respects (carve_rel pos) (CarveThread.classify pos name outPath so se).
Proof.
  unfold CarveThread.classify.
  frame carve_rel_refl carve_rel_trans;
    apply (respects_update_at (carve_rel pos) carve_rel_refl); apply carve_rel_set;
    intros p; first [apply carve_keys_Carved|apply carve_keys_Path].
Qed.

Lemma respects_probe env p outPath :
  respects (carve_rel pos) (CarveThread.probe env pos p outPath).
Proof.
  unfold CarveThread.probe.
  frame carve_rel_refl carve_rel_trans.
  apply (respects_update_at (carve_rel pos) carve_rel_refl). apply carve_rel_set.
  intros q. apply carve_keys_FSType.
Qed.

Lemma respects_run env path :
  respects (carve_rel pos) (CarveThread.run env pos path).
Proof.
  pose proof respects_classify as Hc. pose proof respects_probe as Hp.
  unfold CarveThread.run.
  frame carve_rel_refl carve_rel_trans.
Qed.

End FrameOfCarve.

(** X15.  Whether it returns or raises, a carve job keeps the length of
    the registry, leaves every partition but its own as it is, and
    changes at most the keys [Carved], [Path] and [FSType] of its own. *)
Theorem run_touches_own_carve_keys env pos path w i p :
  nth_error (listOfPartitions w) i = Some p ->
  let w' := fst (CarveThread.run env pos path w) in
  List.length (listOfPartitions w') = List.length (listOfPartitions w)
  /\ exists p',
      nth_error (listOfPartitions w') i = Some p'
      /\ (i <> pos -> p' = p)
      /\ exists c pa f, p' = set_FSType f (set_Path pa (set_Carved c p)).
Proof.
  intros Hp w'. destruct (respects_run pos env path w) as [Hlen Hrel].
  split; [exact Hlen|].
  destruct (Hrel i p Hp) as [p' [Hp' [Hother Hkeys]]].
  exists p'. split; [exact Hp'|]. split; [|exact Hkeys].
  intros Hne. apply Hother. intros [->|[]]. apply Hne. reflexivity.
Qed.

Lemma run_touches_own_carve_keys_witness :
  let w' := fst (CarveThread.run Sample.working_env 2 "/cases/out"
                   Cases.world) in
  List.length (listOfPartitions w') = List.length (listOfPartitions Cases.world)
  /\ exists p',
      nth_error (listOfPartitions w') 3 = Some p'
      /\ (3 <> 2 -> p' = Cases.ntfs)
      /\ exists c pa f, p' = set_FSType f (set_Path pa (set_Carved c Cases.ntfs)).
Proof.
  apply (run_touches_own_carve_keys Sample.working_env 2 "/cases/out"
           Cases.world 3 Cases.ntfs).
  vm_compute. reflexivity.
Defined.

Section FrameOfRecover.

Import Frame.

Variable sel : list nat.


Lemma recover_rel_refl i p : recover_rel sel i p p.
Proof. apply only_at_refl. intros q. left. reflexivity. Qed.

Lemma recover_rel_trans i p q r :
  recover_rel sel i p q -> recover_rel sel i q r -> recover_rel sel i p r.
Proof. apply only_at_trans. apply recovered_key_trans. Qed.

Lemma respects_body env outFolder i :
  In i sel -> respects (recover_rel sel) (Recover.body env outFolder i).
Proof.
  intros Hi.
  pose proof (respects_show_tree (recover_rel sel) recover_rel_refl
                recover_rel_trans env) as Hshow.
  unfold Recover.body.
  frame recover_rel_refl recover_rel_trans;
    apply (respects_update_at (recover_rel sel) recover_rel_refl);
    intros p; (split; [tauto|right; eexists; reflexivity]).
Qed.

Lemma respects_recoverFiles env outFolder :
  respects (recover_rel sel) (Recover.recoverFiles env sel outFolder).
Proof.
  unfold Recover.recoverFiles.
  destruct (negb (Py.truthy outFolder)).
  - apply respects_emit. exact recover_rel_refl.
  - apply (respects_for_each _ recover_rel_refl recover_rel_trans).
    intros i Hi. apply respects_body. exact Hi.
Qed.

Lemma summary_rel_refl i p : summary_rel sel i p p.
Proof. apply only_at_refl. intros q. left. reflexivity. Qed.

Lemma summary_rel_trans i p q r :
  summary_rel sel i p q -> summary_rel sel i q r -> summary_rel sel i p r.
Proof. apply only_at_trans. apply md5_key_trans. Qed.

Lemma respects_checks env l : forall t,
  (forall i, In i l -> In i sel) ->
  respects (summary_rel sel) (Carve.checks env t l).
Proof.
  pose proof (respects_getMd5 (summary_rel sel) summary_rel_refl
                summary_rel_trans env) as Hmd5.
  induction l as [|i l IH]; intros t Hl; cbn [Carve.checks].
  - apply respects_ret. exact summary_rel_refl.
  - apply (respects_bind _ summary_rel_trans);
      [|intros t'; apply IH; intros j Hj; apply Hl; right; exact Hj].
    unfold Carve.check.
    frame summary_rel_refl summary_rel_trans.
    apply (respects_update_at _ summary_rel_refl).
    intros p. split; [|right; eexists; reflexivity].
    intros Hn. exfalso. apply Hn. apply Hl. left. reflexivity.
Qed.

Lemma respects_summary env :
  respects (summary_rel sel) (Carve.summary env sel).
Proof.
  unfold Carve.summary.
  apply (respects_bind _ summary_rel_trans);
    [apply respects_checks; auto|intros t].
  frame summary_rel_refl summary_rel_trans.
Qed.

End FrameOfRecover.

Section FrameOfCarveFiles.

Import Frame.

Lemma respects_carveFiles env dropVar types outFolder :
  respects carveFiles_rel (CarveFiles.carveFiles env dropVar types outFolder).
Proof.
  assert (Hrefl : forall i p, carveFiles_rel i p p)
    by (intros i p; apply carvedFiles_key_refl).
  assert (Htrans : forall i p q r, carveFiles_rel i p q ->
                     carveFiles_rel i q r -> carveFiles_rel i p r)
    by (intros i p q r; apply carvedFiles_key_trans).
  pose proof (respects_show_tree carveFiles_rel Hrefl Htrans env) as Hshow.
  unfold CarveFiles.carveFiles.
  frame Hrefl Htrans.
  apply (respects_update_at _ Hrefl). intros p. right. reflexivity.
Qed.

End FrameOfCarveFiles.

(** X16.  Whether it returns or raises, [recoverFiles] keeps the length
    of the registry, leaves every partition outside the selection as it
    is, and changes at most the key [Recovered] of a selected one. *)
Theorem recoverFiles_touches_Recovered_of_selection env sel outFolder w i p :
  nth_error (listOfPartitions w) i = Some p ->
  let w' := fst (Recover.recoverFiles env sel outFolder w) in
  List.length (listOfPartitions w') = List.length (listOfPartitions w)
  /\ exists p',
      nth_error (listOfPartitions w') i = Some p'
      /\ (~ In i sel -> p' = p)
      /\ (p' = p \/ exists v, p' = set_Recovered v p).
Proof.
  intros Hp w'. destruct (respects_recoverFiles sel env outFolder w) as [Hlen Hrel].
  split; [exact Hlen|].
  destruct (Hrel i p Hp) as [p' [Hp' [Hother Hkeys]]].
  exists p'. auto.
Qed.

Lemma recoverFiles_touches_Recovered_of_selection_witness :
  let w' := fst (Recover.recoverFiles Sample.working_env [2] "/cases/rec"
                   Cases.carved_world) in
  List.length (listOfPartitions w')
  = List.length (listOfPartitions Cases.carved_world)
  /\ exists p',
      nth_error (listOfPartitions w') 2 = Some p'
      /\ (~ In 2 [2] -> p' = Cases.carved_linux)
      /\ (p' = Cases.carved_linux
          \/ exists v, p' = set_Recovered v Cases.carved_linux).
Proof.
  apply (recoverFiles_touches_Recovered_of_selection Sample.working_env [2]
           "/cases/rec" Cases.carved_world 2 Cases.carved_linux).
  vm_compute. reflexivity.
Defined.

(** X17.  The summary loop that ends a carve run keeps the length of the
    registry, leaves every partition outside the selection as it is, and
    changes at most the key [MD5Sum] of a selected one. *)
Theorem summary_touches_MD5Sum_of_selection env sel w i p :
  nth_error (listOfPartitions w) i = Some p ->
  let w' := fst (Carve.summary env sel w) in
  List.length (listOfPartitions w') = List.length (listOfPartitions w)
  /\ exists p',
      nth_error (listOfPartitions w') i = Some p'
      /\ (~ In i sel -> p' = p)
      /\ (p' = p \/ exists v, p' = set_MD5Sum v p).
Proof.
  intros Hp w'. destruct (respects_summary sel env w) as [Hlen Hrel].
  split; [exact Hlen|].
  destruct (Hrel i p Hp) as [p' [Hp' [Hother Hkeys]]].
  exists p'. auto.
Qed.

Lemma summary_touches_MD5Sum_of_selection_witness :
  let w' := fst (Carve.summary Sample.working_env [2] Cases.carved_world) in
  List.length (listOfPartitions w')
  = List.length (listOfPartitions Cases.carved_world)
  /\ exists p',
      nth_error (listOfPartitions w') 2 = Some p'
      /\ (~ In 2 [2] -> p' = Cases.carved_linux)
      /\ (p' = Cases.carved_linux
          \/ exists v, p' = set_MD5Sum v Cases.carved_linux).
Proof.
  apply (summary_touches_MD5Sum_of_selection Sample.working_env [2]
           Cases.carved_world 2 Cases.carved_linux).
  vm_compute. reflexivity.
Defined.

(** X18.  Whether it returns or raises, [carveFiles] keeps the length of
    the registry and changes nothing in it but, at most, the key
    [CarvedFiles] of a partition, which it sets to ["Yes"]. *)
Theorem carveFiles_touches_CarvedFiles env dropVar types outFolder w i p :
  nth_error (listOfPartitions w) i = Some p ->
  let w' := fst (CarveFiles.carveFiles env dropVar types outFolder w) in
  List.length (listOfPartitions w') = List.length (listOfPartitions w)
  /\ exists p',
      nth_error (listOfPartitions w') i = Some p'
      /\ (p' = p \/ p' = set_CarvedFiles "Yes" p).
Proof.
  intros Hp w'.
  destruct (respects_carveFiles env dropVar types outFolder w) as [Hlen Hrel].
  split; [exact Hlen|].
  destruct (Hrel i p Hp) as [p' [Hp' Hv]].
  exists p'. auto.
Qed.

Lemma carveFiles_touches_CarvedFiles_witness :
  let w' := fst (CarveFiles.carveFiles Cases.carver_env "2: Linux" ["png"]
                   "/cases/files" Cases.carved_world) in
  List.length (listOfPartitions w')
  = List.length (listOfPartitions Cases.carved_world)
  /\ exists p',
      nth_error (listOfPartitions w') 2 = Some p'
      /\ (p' = Cases.carved_linux
          \/ p' = set_CarvedFiles "Yes" Cases.carved_linux).
Proof.
  apply (carveFiles_touches_CarvedFiles Cases.carver_env "2: Linux" ["png"]
           "/cases/files" Cases.carved_world 2 Cases.carved_linux).
  vm_compute. reflexivity.
Defined.

(** ** Outcomes of a hash, of a carve job and of a recovery *)

Section QuietFacts.

Import Quiet.
Local Open Scope list_scope.

Lemma quiet_ret {A} (a : A) : quiet (ret a).
Proof.
  intros w. exists [], a. unfold ret. rewrite app_nil_r.
  destruct w; reflexivity.
Qed.

Lemma quiet_emit e : quiet (emit e).
Proof. intros w. exists [e], tt. reflexivity. Qed.

Lemma quiet_bind {A B} (m : M A) (k : A -> M B) :
  quiet m -> (forall a, quiet (k a)) -> quiet (bind m k).
Proof.
  intros Hm Hk w. destruct (Hm w) as [evs [a Ha]]. unfold bind. rewrite Ha.
  destruct (Hk a (mkWorld (listOfPartitions w) (events w ++ evs)))
    as [evs' [b Hb]].
  rewrite Hb. cbn [listOfPartitions events]. exists (evs ++ evs'), b.
  rewrite app_assoc. reflexivity.
Qed.

Lemma quiet_for_each {A} (l : list A) (body : A -> M unit) :
  (forall x, quiet (body x)) -> quiet (for_each l body).
Proof.
  intros Hb. induction l as [|x l IH]; cbn [for_each].
  - apply quiet_ret.
  - apply quiet_bind; [apply Hb|intros _; exact IH].
Qed.

Lemma quiet_getMd5 env f m : quiet (getMd5 env f m).
Proof.
  unfold getMd5. apply quiet_bind; [apply quiet_emit|intros _].
  destruct (tools env [m; f]) as [so se].
  destruct (Py.truthy so); [apply quiet_ret|].
  apply quiet_bind; [apply quiet_emit|intros _; apply quiet_ret].
Qed.

Lemma quiet_addItems env md5path : forall dir,
  quiet (addItems env dir md5path).
Proof.
  fix IH 1. intros [f subs]. cbn [addItems].
  apply quiet_bind.
  - apply quiet_for_each. intros i.
    apply quiet_bind; [apply quiet_getMd5|intros h; apply quiet_emit].
  - intros _. induction subs as [|[item n] r IHr].
    + apply quiet_ret.
    + apply quiet_bind; [apply quiet_emit|intros _].
      apply quiet_bind; [apply IH|intros _; exact IHr].
Qed.

Lemma quiet_show_tree env dir : quiet (show_tree env dir).
Proof.
  unfold show_tree. apply quiet_for_each. intros [key n].
  apply quiet_bind; [apply quiet_emit|intros _]. apply quiet_addItems.
Qed.

End QuietFacts.

(** No token of a split holds the separator. *)
Lemma split_tokens_clean c : forall s cur,
  Py.contains (String c "") cur = false ->
  Forall (fun tok => Py.contains (String c "") tok = false)
    (Py.split_go (String c "") 0 cur s).
Proof.
  induction s as [|a s IH]; intros cur Hcur; cbn [Py.split_go].
  - constructor; [exact Hcur|constructor].
  - rewrite prefix_char. destruct (Ascii.ascii_dec c a) as [->|Hne].
    + constructor; [exact Hcur|]. cbn [String.length Nat.sub].
      apply IH. reflexivity.
    + apply IH. rewrite contains_char_app, Hcur. cbn [orb Py.contains].
      rewrite prefix_char. destruct (Ascii.ascii_dec c a); [contradiction|].
      reflexivity.
Qed.

(** The first token of a split is the text before the first separator. *)
Lemma split_head c s :
  exists rest,
    s = hd "" (Py.split s (String c "")) ++ rest
    /\ (rest = "" \/ exists r, rest = String c r).
Proof.
  pose proof (join_split s c) as Hjoin.
  pose proof (split_go_nonempty (String c "") s 0 "") as Hne.
  unfold Py.split in *.
  destruct (Py.split_go (String c "") 0 "" s) as [|x l]; [congruence|].
  cbn [hd]. destruct l as [|y l].
  - exists "". split; [|left; reflexivity].
    rewrite append_empty_r. symmetry. exact Hjoin.
  - exists (String c "" ++ Py.join (String c "") (y :: l)).
    split; [|right; eexists; reflexivity].
    rewrite <- Hjoin. unfold Py.join. apply concat_cons. discriminate.
Qed.

(** X19.  With the hash tool taken as starting and printing text that
    can be decoded, [getMd5] returns and leaves the registry as it is;
    it starts one process, the hash tool on the given file, and the
    digest it returns is exactly the text of the output before its
    first space: the output is the digest followed by nothing or by a
    space and more, and the digest holds no space (it is empty when the
    tool printed nothing). *)
Theorem getMd5_digest env filePath md5path w :
  exists evs h rest,
    getMd5 env filePath md5path w
    = (mkWorld (listOfPartitions w)
         (events w ++ Popen [md5path; filePath] :: evs)%list, Some h)
    /\ (forall cmd, ~ In (Popen cmd) evs)
    /\ fst (tools env [md5path; filePath]) = h ++ rest
    /\ (rest = "" \/ exists r, rest = " " ++ r)
    /\ Py.contains " " h = false.
Proof.
  unfold getMd5, bind, emit. cbn [listOfPartitions events].
  destruct (tools env [md5path; filePath]) as [so se]. cbn [fst].
  destruct (Py.truthy so) eqn:Hso.
  - destruct (split_head " "%char so) as [rest [Hsplit Hrest]].
    exists [], (hd "" (Py.split so " ")), rest. unfold ret.
    split; [reflexivity|]. split; [intros cmd []|].
    split; [exact Hsplit|]. split; [exact Hrest|].
    pose proof (split_tokens_clean " "%char so "" eq_refl) as Hall.
    unfold Py.split. destruct (Py.split_go " " 0 "" so) as [|t r].
    + reflexivity.
    + inversion Hall; subst. assumption.
  - exists [ShowError se None], "", "". unfold ret.
    cbn [listOfPartitions events]. rewrite <- app_assoc.
    split; [reflexivity|].
    split; [intros cmd [H|[]]; discriminate|].
    split; [destruct so; [reflexivity|discriminate]|].
    split; [left; reflexivity|reflexivity].
Qed.

Section CarveOutcome.

Local Open Scope list_scope.

Lemma snd_then_ret {A B} (m : M A) (x : B) w :
  snd ((m ;; ret x) w) = match snd (m w) with Some _ => Some x | None => None end.
Proof. unfold bind, ret. destruct (m w) as [w' [a|]]; reflexivity. Qed.

Lemma probe_outcome env pos p outPath w q :
  nth_error (listOfPartitions w) pos = Some q ->
  let out := fst (tools env [fsstatPath env; outPath]) in
  let r := CarveThread.probe env pos p outPath w in
  (snd r = None <->
   FileSystem p = "Yes" /\ Py.truthy out = true /\ fsstatParser out = None)
  /\ nth_error (listOfPartitions (fst r)) pos
     = Some (if (FileSystem p =? "Yes")%string && Py.truthy out
             then set_FSType (fsstatParser out) q else q).
Proof.
  intros Hq out r. subst r out. unfold CarveThread.probe.
  destruct (String.eqb_spec (FileSystem p) "Yes") as [Hfs|Hfs]; cbn [andb].
  2:{ unfold ret. cbn [fst snd]. split; [|exact Hq].
      split; [discriminate|tauto]. }
  destruct (tools env [fsstatPath env; outPath]) as [stdout stderr].
  cbn [fst].
  unfold bind, put, emit, raise, update_at, ret.
  destruct (Py.truthy stdout); cbn [listOfPartitions events].
  - rewrite Hq. destruct (fsstatParser stdout) as [t|];
      cbn [fst snd listOfPartitions events].
    + split; [|apply nth_error_update_same; exact Hq].
      split; [discriminate|intros [_ [_ H]]; discriminate].
    + split; [|apply nth_error_update_same; exact Hq].
      split; auto.
  - cbn [fst snd listOfPartitions events]. split; [|exact Hq].
    split; [discriminate|intros [_ [H _]]; discriminate].
Qed.

Lemma run_unfolds env registry evs pos path p b stdout stderr :
  nth_error registry pos = Some p ->
  bs env = inr b ->
  tools env (Commands.copier_cmd env p (path ++ "/" ++ Name p)%string b)
  = (stdout, stderr) ->
  exists w1,
    CarveThread.run env pos path (mkWorld registry evs)
    = (CarveThread.probe env pos p (path ++ "/" ++ Name p)%string ;;
       ret (CarveThread.carve_success stdout stderr)) w1
    /\ listOfPartitions w1
       = (if CarveThread.carve_success stdout stderr
          then update_nth pos
                 (CarveThread.carved (path ++ "/" ++ Name p)%string) registry
          else registry).
Proof.
  intros Hp Hbs Htools.
  unfold CarveThread.run. unfold bind at 1. unfold partition_at at 1.
  cbn [listOfPartitions]. rewrite Hp.
  unfold bind at 1. unfold put at 1, emit at 1. cbn [listOfPartitions events].
  rewrite Hbs.
  unfold bind at 1. unfold emit at 1. cbn [listOfPartitions events].
  unfold bind at 1. unfold put at 1, emit at 1. cbn [listOfPartitions events].
  unfold Commands.copier_cmd in Htools. rewrite Htools.
  unfold bind at 1.
  match goal with
  | |- context [CarveThread.classify pos ?n ?o ?a ?b ?w] =>
      destruct (classify_result pos n o a b w p Hp) as [evs' Hc];
      rewrite Hc
  end.
  cbn [listOfPartitions events].
  eexists. split; [reflexivity|]. reflexivity.
Qed.

(** Once the copier has answered, the job is at the probe, with its own
    partition carved or as it was. *)
Lemma run_probe env registry evs pos path p b stdout stderr :
  nth_error registry pos = Some p ->
  bs env = inr b ->
  tools env (Commands.copier_cmd env p (path ++ "/" ++ Name p)%string b)
  = (stdout, stderr) ->
  exists w1,
    CarveThread.run env pos path (mkWorld registry evs)
    = (CarveThread.probe env pos p (path ++ "/" ++ Name p)%string ;;
       ret (CarveThread.carve_success stdout stderr)) w1
    /\ nth_error (listOfPartitions w1) pos
       = Some (if CarveThread.carve_success stdout stderr
               then CarveThread.carved (path ++ "/" ++ Name p)%string p
               else p).
Proof.
  intros Hp Hbs Htools.
  destruct (run_unfolds env registry evs pos path p b stdout stderr Hp Hbs
              Htools) as [w1 [Hrun Hreg]].
  exists w1. split; [exact Hrun|]. rewrite Hreg.
  destruct (CarveThread.carve_success stdout stderr); [|exact Hp].
  apply nth_error_update_same. exact Hp.
Qed.

(** X20.  With the copier and the prober taken as starting and printing
    text that can be decoded, a carve job whose block size is a string
    leaves on its own partition: [Carved] at ["Yes"] and [Path] at the
    output path when the job counts as a success, nothing otherwise; and
    on top of that [FSType] at the result of [fsstatParser] when the
    partition is a filesystem and the prober printed something.  It
    then raises exactly when the prober printed text without the marker
    for a filesystem partition (the [None] is stored, and the message
    ["FSType: " + None] is a [TypeError]), and otherwise returns
    whether the job was a success. *)
Theorem run_outcome env registry evs pos path p b stdout stderr :
  nth_error registry pos = Some p ->
  bs env = inr b ->
  let outPath := (path ++ "/" ++ Name p)%string in
  tools env (Commands.copier_cmd env p outPath b) = (stdout, stderr) ->
  let r := CarveThread.run env pos path (mkWorld registry evs) in
  let out := fst (tools env [fsstatPath env; outPath]) in
  let success := CarveThread.carve_success stdout stderr in
  let p1 := if success then CarveThread.carved outPath p else p in
  nth_error (listOfPartitions (fst r)) pos
  = Some (if (FileSystem p =? "Yes")%string && Py.truthy out
          then set_FSType (fsstatParser out) p1 else p1)
  /\ (snd r = None <->
      FileSystem p = "Yes" /\ Py.truthy out = true /\ fsstatParser out = None)
  /\ (snd r <> None -> snd r = Some success).
Proof.
  intros Hp Hbs outPath Htools r out success p1. subst r.
  destruct (run_probe env registry evs pos path p b stdout stderr Hp Hbs
              Htools) as [w1 [Hrun Hq]].
  rewrite Hrun, fst_then_ret, snd_then_ret. fold outPath.
  fold outPath in Hq. fold success in Hq. fold p1 in Hq.
  destruct (probe_outcome env pos p outPath w1 p1 Hq) as [Hnone Hstore].
  fold out in Hnone, Hstore.
  split; [exact Hstore|]. split.
  - rewrite <- Hnone.
    destruct (snd (CarveThread.probe env pos p outPath w1));
      split; congruence.
  - subst success.
    destruct (snd (CarveThread.probe env pos p outPath w1));
      [reflexivity|congruence].
Qed.

Lemma run_outcome_witness :
  nth_error
    (listOfPartitions
       (fst (CarveThread.run Sample.working_env 2 "/cases/out" Cases.world)))
    2
  = Some (set_FSType (Some "Ext4") Cases.carved_linux).
Proof.
  destruct (run_outcome Sample.working_env Sample.registry [] 2 "/cases/out"
              Cases.linux "512" "" "5+0 records out") as [H _].
  - vm_compute. reflexivity.
  - vm_compute. reflexivity.
  - vm_compute. reflexivity.
  - refine (eq_trans H _). vm_compute. reflexivity.
Defined.

(** X21.  A carve job raises exactly in three cases: its index is
    outside the registry; the block size is still the integer [-1] of a
    table without a units line (a string cannot be added to it); or its
    partition is a filesystem and the prober printed text without the
    marker.  In every other case it returns. *)
Theorem run_raises_iff env registry evs pos path :
  snd (CarveThread.run env pos path (mkWorld registry evs)) = None <->
  nth_error registry pos = None
  \/ (exists z, bs env = inl z)
  \/ (exists p,
        nth_error registry pos = Some p
        /\ FileSystem p = "Yes"
        /\ let out := fst (tools env [fsstatPath env;
                                      (path ++ "/" ++ Name p)%string]) in
           Py.truthy out = true /\ fsstatParser out = None).
Proof.
  destruct (nth_error registry pos) as [p|] eqn:Hp.
  2:{ split; [auto|]. intros _. unfold CarveThread.run, bind, partition_at.
      cbn [listOfPartitions]. rewrite Hp. reflexivity. }
  destruct (bs env) as [z|b] eqn:Hbs.
  { split; [intros _; right; left; eauto|]. intros _.
    unfold CarveThread.run. unfold bind at 1. unfold partition_at at 1.
    cbn [listOfPartitions]. rewrite Hp.
    unfold bind at 1. unfold put at 1, emit at 1. rewrite Hbs. reflexivity. }
  destruct (tools env (Commands.copier_cmd env p (path ++ "/" ++ Name p)%string b))
    as [stdout stderr] eqn:Htools.
  destruct (run_probe env registry evs pos path p b stdout stderr Hp Hbs
              Htools) as [w1 [Hrun Hq]].
  destruct (probe_outcome env pos p (path ++ "/" ++ Name p)%string w1 _ Hq)
    as [Hnone _].
  cbv zeta in Hnone. rewrite Hrun, snd_then_ret.
  assert (Hsnd : match snd (CarveThread.probe env pos p
                              (path ++ "/" ++ Name p)%string w1) with
                 | Some _ => Some (CarveThread.carve_success stdout stderr)
                 | None => None
                 end = None
                 <-> snd (CarveThread.probe env pos p
                            (path ++ "/" ++ Name p)%string w1) = None).
  { destruct (snd (CarveThread.probe env pos p
                     (path ++ "/" ++ Name p)%string w1));
      split; congruence. }
  rewrite Hsnd, Hnone. split.
  - intros H. right. right. exists p. split; [reflexivity|exact H].
  - intros [H|[[z H]|[q [Hq' H]]]]; [discriminate|discriminate|].
    inversion Hq'; subst. exact H.
Qed.

End CarveOutcome.

Section RecoverOutcome.

Local Open Scope list_scope.

Lemma recovered_tail env i dir (t : Text) d w p :
  nth_error (listOfPartitions w) i = Some p ->
  exists evs,
    (insertCommand t d ;; update_at i (set_Recovered "Yes") ;;
     show_tree env dir) w
    = (mkWorld (update_nth i (set_Recovered "Yes") (listOfPartitions w))
         (events w ++ evs), Some tt).
Proof.
  intros Hp. unfold bind at 1. unfold insertCommand at 1, emit at 1.
  unfold bind at 1.
  rewrite (update_at_found i _ _ p) by exact Hp.
  cbn [listOfPartitions events].
  destruct (quiet_show_tree env dir
              (mkWorld (update_nth i (set_Recovered "Yes") (listOfPartitions w))
                 (events w ++ [Console (d ++ " " ++ text_line t)%string])))
    as [evs [[] Hs]].
  rewrite Hs. cbn [listOfPartitions events]. rewrite <- app_assoc.
  eexists. reflexivity.
Qed.

Lemma recover_body_result env outFolder i w p partitionPath stdout stderr :
  nth_error (listOfPartitions w) i = Some p ->
  Path p = Some partitionPath ->
  tools env [tskPath env; partitionPath;
             Commands.folder_of outFolder (Description p) i]
  = (stdout, stderr) ->
  exists w' r,
    Recover.body env outFolder i w = (w', r)
    /\ nth_error (listOfPartitions w') i
       = Some (if Py.truthy stdout
               then match Commands.count_of stdout with
                    | Some n => if (n =? 0)%Z then p else set_Recovered "Yes" p
                    | None => p
                    end
               else set_Recovered "No" p)
    /\ (r = None <->
        Py.truthy stdout = true /\ Commands.count_of stdout = None).
Proof.
  intros Hp Hpath Htools. unfold Recover.body.
  unfold bind at 1. unfold partition_at at 1. rewrite Hp.
  unfold bind at 1. unfold insertCommand at 1, emit at 1.
  cbn [listOfPartitions events].
  unfold bind at 1. unfold partition_at at 1. cbn [listOfPartitions].
  rewrite Hp, Hpath.
  unfold bind at 1. unfold emit at 1. cbn [listOfPartitions events].
  unfold bind at 1. unfold insertCommand at 1, emit at 1.
  cbn [listOfPartitions events].
  unfold Commands.folder_of in Htools. rewrite Htools.
  unfold bind at 1. unfold partition_at at 1. cbn [listOfPartitions].
  rewrite Hp. unfold Commands.count_of.
  destruct (Py.truthy stdout).
  2:{ rewrite (update_at_found i _ _ p) by exact Hp.
      eexists. eexists. split; [reflexivity|].
      cbn [listOfPartitions].
      split; [apply nth_error_update_same; exact Hp|].
      split; [discriminate|intros [H _]; discriminate]. }
  destruct (nth_error (Py.split stdout ":") 1) as [c|].
  2:{ unfold bind, of_option, raise.
      eexists. eexists. split; [reflexivity|]. cbn [listOfPartitions].
      split; [exact Hp|]. split; auto. }
  unfold bind at 1. unfold of_option at 1, ret at 1.
  destruct (py_int c) as [n|].
  2:{ unfold bind, of_option, raise.
      eexists. eexists. split; [reflexivity|]. cbn [listOfPartitions].
      split; [exact Hp|]. split; auto. }
  unfold bind at 1. unfold of_option at 1, ret at 1.
  destruct (n =? 0)%Z; cbn [negb].
  { unfold emit. eexists. eexists. split; [reflexivity|].
    cbn [listOfPartitions].
    split; [exact Hp|]. split; [discriminate|intros [_ H]; discriminate]. }
  match goal with
  | |- context [FilesTree.getFilesTree ?wk] =>
      destruct (FilesTree.getFilesTree wk) as [dir|] eqn:Hdir;
        [|exfalso; apply (getFilesTree_returns wk Hdir)]
  end.
  unfold bind at 1. unfold of_option at 1, ret at 1.
  match goal with
  | |- context [(insertCommand ?t ?d ;; _) ?w0] =>
      destruct (recovered_tail env i dir t d w0 p Hp) as [evs Htail]
  end.
  rewrite Htail. eexists. eexists. split; [reflexivity|].
  cbn [listOfPartitions].
  split; [apply nth_error_update_same; exact Hp|].
  split; [discriminate|intros [_ H]; discriminate].
Qed.

(** ** The progress flags, with what a recovery does to them *)





End RecoverOutcome.

(** ** The summary of a carve run *)

Section SummaryOfCarve.

Import Selection.
Local Open Scope list_scope.

Lemma getMd5_result env f m reg evs0 :
  exists evs h,
    getMd5 env f m (mkWorld reg evs0) = (mkWorld reg (evs0 ++ evs), Some h)
    /\ ~ In EnableButtons evs.
Proof.
  unfold getMd5, bind, emit. cbn [listOfPartitions events].
  destruct (tools env [m; f]) as [so se].
  destruct (Py.truthy so).
  - eexists. eexists. unfold ret. split; [reflexivity|].
    intros [H|[]]. discriminate.
  - eexists. eexists. unfold ret. cbn [listOfPartitions events].
    rewrite <- app_assoc. split; [reflexivity|].
    intros [H|[H|[]]]; discriminate.
Qed.

(** An assignment to [MD5Sum] changes nothing the summary reads. *)
Lemma carved_at_md5 i h reg j :
  carved_at (update_nth i (set_MD5Sum h) reg) j = carved_at reg j.
Proof.
  unfold carved_at. rewrite nth_error_update_nth.
  destruct (i =? j)%nat; [|reflexivity].
  destruct (nth_error reg j); reflexivity.
Qed.

Lemma fs_at_md5 i h reg j :
  fs_at (update_nth i (set_MD5Sum h) reg) j = fs_at reg j.
Proof.
  unfold fs_at. rewrite nth_error_update_nth.
  destruct (i =? j)%nat; [|reflexivity].
  destruct (nth_error reg j); reflexivity.
Qed.

Lemma line_of_md5 i h reg j :
  line_of (update_nth i (set_MD5Sum h) reg) j = line_of reg j.
Proof.
  unfold line_of. rewrite nth_error_update_nth.
  destruct (i =? j)%nat; [|reflexivity].
  destruct (nth_error reg j); reflexivity.
Qed.

Lemma ready_at_md5 i h reg j :
  ready_at reg j -> ready_at (update_nth i (set_MD5Sum h) reg) j.
Proof.
  intros [p [Hp Hpath]]. unfold ready_at. rewrite nth_error_update_nth, Hp.
  destruct (i =? j)%nat; [|exists p; auto].
  exists (set_MD5Sum h p). split; [reflexivity|exact Hpath].
Qed.

Lemma listing_ext reg reg' l :
  (forall j, line_of reg' j = line_of reg j) ->
  listing reg' l = listing reg l.
Proof.
  intros H. induction l as [|i l IH]; [reflexivity|].
  cbn [listing]. rewrite H, IH. reflexivity.
Qed.

Lemma existsb_ext_all {A} (f g : A -> bool) l :
  (forall x, f x = g x) -> existsb f l = existsb g l.
Proof.
  intros H. induction l as [|x l IH]; [reflexivity|].
  cbn [existsb]. rewrite H, IH. reflexivity.
Qed.

(** One turn of the loop. *)
Lemma check_result env t i reg evs0 :
  ready_at reg i ->
  exists reg' evs,
    Carve.check env t i (mkWorld reg evs0)
    = (mkWorld reg' (evs0 ++ evs),
       Some (if carved_at reg i
             then Carve.mkTally (S (Carve.succ t)) (Carve.err t)
                    (Carve.succMsg t ++ line_of reg i) (Carve.errMsg t)
                    (Carve.fsCarved t || fs_at reg i)
             else Carve.mkTally (Carve.succ t) (S (Carve.err t))
                    (Carve.succMsg t) (Carve.errMsg t ++ line_of reg i)
                    (Carve.fsCarved t || fs_at reg i)))
    /\ ~ In EnableButtons evs
    /\ (forall j, carved_at reg' j = carved_at reg j)
    /\ (forall j, fs_at reg' j = fs_at reg j)
    /\ (forall j, line_of reg' j = line_of reg j)
    /\ (forall j, ready_at reg j -> ready_at reg' j).
Proof.
  intros [p [Hp Hpath]].
  unfold Carve.check, carved_at, fs_at, line_of. rewrite Hp.
  unfold bind at 1. unfold partition_at at 1. cbn [listOfPartitions].
  rewrite Hp.
  destruct (String.eqb_spec (Carved p) "Yes") as [Hc|Hc].
  - destruct (Path p) as [f|] eqn:Hf; [|exfalso; apply (Hpath Hc); reflexivity].
    unfold bind at 1. unfold bind at 1.
    unfold insertCommand at 1, emit at 1. cbn [listOfPartitions events].
    unfold bind at 1. unfold of_option at 1, ret at 1.
    unfold bind at 1.
    destruct (getMd5_result env f (md5Path env) reg
                (evs0 ++ [Console (tab ++ " "
                   ++ text_line (TStr ("Partition saved in "
                                       ++ Carve.str_of_value (Some f))))%string]))
      as [evs [h [Hmd5 Hno]]].
    rewrite Hmd5.
    unfold bind at 1.
    rewrite (update_at_found i _ _ p) by exact Hp.
    cbn [listOfPartitions events]. unfold ret, bind.
    cbn [Carve.succ Carve.err Carve.succMsg Carve.errMsg Carve.fsCarved].
    eexists. eexists. split.
    { rewrite <- app_assoc. reflexivity. }
    split.
    { intros H. apply in_app_iff in H. destruct H as [[H|[]]|H];
        [discriminate|exact (Hno H)]. }
    split; [intros j; apply carved_at_md5|].
    split; [intros j; apply fs_at_md5|].
    split; [intros j; apply line_of_md5|].
    intros j. apply ready_at_md5.
  - unfold ret, bind.
    cbn [Carve.succ Carve.err Carve.succMsg Carve.errMsg Carve.fsCarved].
    exists reg, []. rewrite app_nil_r. split; [reflexivity|].
    split; [intros []|]. auto.
Qed.

(** The loop over the selection. *)
Lemma checks_result env : forall l t reg evs0,
  (forall i, In i l -> ready_at reg i) ->
  exists reg' evs t',
    Carve.checks env t l (mkWorld reg evs0)
    = (mkWorld reg' (evs0 ++ evs), Some t')
    /\ ~ In EnableButtons evs
    /\ Carve.succ t'
       = Carve.succ t + List.length (filter (carved_at reg) l)
    /\ Carve.err t'
       = Carve.err t
         + List.length (filter (fun i => negb (carved_at reg i)) l)
    /\ Carve.succMsg t'
       = (Carve.succMsg t ++ listing reg (filter (carved_at reg) l))%string
    /\ Carve.errMsg t'
       = (Carve.errMsg t
          ++ listing reg (filter (fun i => negb (carved_at reg i)) l))%string
    /\ Carve.fsCarved t' = Carve.fsCarved t || existsb (fs_at reg) l.
Proof.
  induction l as [|i l IH]; intros t reg evs0 Hready.
  - exists reg, [], t. cbn [Carve.checks filter listing List.length existsb].
    unfold ret. rewrite app_nil_r, !append_empty_r, !Nat.add_0_r, orb_false_r.
    repeat split; auto.
  - cbn [Carve.checks]. unfold bind at 1.
    destruct (check_result env t i reg evs0 (Hready i (or_introl eq_refl)))
      as [reg1 [evs1 [Hcheck [Hno1 [Hc [Hf [Hl Hr]]]]]]].
    rewrite Hcheck.
    match goal with
    | |- context [Carve.checks env ?t1 l _] =>
        destruct (IH t1 reg1 (evs0 ++ evs1)) as
          [reg' [evs [t' [Hchecks [Hno [Hs [He [Hsm [Hem Hfs]]]]]]]]]
    end.
    { intros j Hj. apply Hr. apply Hready. right. exact Hj. }
    rewrite Hchecks. exists reg', (evs1 ++ evs), t'.
    split; [rewrite app_assoc; reflexivity|].
    split.
    { intros H. apply in_app_iff in H. destruct H; tauto. }
    rewrite (filter_ext _ _ Hc) in Hs, Hsm.
    rewrite (filter_ext (fun i => negb (carved_at reg1 i))
               (fun i => negb (carved_at reg i))) in He, Hem
      by (intros j; rewrite Hc; reflexivity).
    rewrite (listing_ext reg reg1 _ Hl) in Hsm.
    rewrite (listing_ext reg reg1 _ Hl) in Hem.
    rewrite (existsb_ext_all _ _ l Hf) in Hfs.
    cbn [filter existsb]. rewrite Hs, He, Hsm, Hem, Hfs.
    destruct (carved_at reg i);
      cbn [negb Carve.succ Carve.err Carve.succMsg Carve.errMsg
           Carve.fsCarved List.length listing];
      rewrite ?append_assoc, ?orb_assoc; repeat split; lia.
Qed.

End SummaryOfCarve.

(** X23.  With the hash tool taken as starting and printing text that
    can be decoded: when every selected index is in the registry and
    every carved partition has a path, the pass that ends a carve run
    returns and closes with one dialog: an error dialog listing every selected
    partition when none of them is carved, otherwise an information
    dialog listing the carved ones and, after them, the others if there
    are any.  The recover and carve-files buttons are enabled, just
    before the dialog, exactly when some selected partition is carved
    and some selected partition, carved or not, is a filesystem. *)
Theorem summary_dialog env sel registry evs0 :
  (forall i, In i sel -> Selection.ready_at registry i) ->
  let good := filter (Selection.carved_at registry) sel in
  let bad := filter (fun i => negb (Selection.carved_at registry i)) sel in
  let succMsg :=
    Carve.succMsg Carve.tally0 ++ Selection.listing registry good in
  let errMsg :=
    Carve.errMsg Carve.tally0 ++ Selection.listing registry bad in
  exists registry' evs,
    Carve.summary env sel (mkWorld registry evs0)
    = (mkWorld registry'
         (evs0 ++ evs
          ++ (if negb (Nat.eqb (List.length good) 0)
                 && existsb (Selection.fs_at registry) sel
              then [EnableButtons] else [])
          ++ [match good, bad with
              | [], _ => ShowError "Carved Partitions Summary" (Some errMsg)
              | _ :: _, [] => ShowInfo "Carved Partitions Summary" succMsg
              | _ :: _, _ :: _ =>
                  ShowInfo "Carved Partitions Summary" (succMsg ++ errMsg)
              end])%list,
       Some tt)
    /\ ~ In EnableButtons evs.
Proof.
  intros Hready good bad succMsg errMsg.
  destruct (checks_result env sel Carve.tally0 registry evs0 Hready)
    as [reg' [evs [t [Hchecks [Hno [Hs [He [Hsm [Hem Hfs]]]]]]]]].
  exists reg', evs. split; [|exact Hno].
  unfold Carve.summary. unfold bind at 1. rewrite Hchecks.
  fold good in Hs, Hsm. fold bad in He, Hem.
  fold succMsg in Hsm. fold errMsg in Hem.
  rewrite Hs, He, Hsm, Hem, Hfs. cbn [Carve.succ Carve.err Carve.fsCarved
    Carve.tally0 Nat.add orb].
  destruct good as [|g good']; cbn [List.length Nat.ltb Nat.leb Nat.eqb negb andb].
  - unfold emit. cbn [listOfPartitions events]. cbn [app].
    rewrite <- app_assoc. reflexivity.
  - unfold bind.
    destruct (existsb (Selection.fs_at registry) sel);
      destruct bad as [|b bad']; cbn [List.length Nat.ltb Nat.leb];
      unfold emit, ret; cbn [listOfPartitions events app];
      rewrite <- ?app_assoc; reflexivity.
Qed.

Lemma summary_dialog_witness :
  exists registry' evs,
    Carve.summary Sample.working_env [2; 3] Cases.carved_world
    = (mkWorld registry'
         ([] ++ evs ++ [EnableButtons]
          ++ [ShowInfo "Carved Partitions Summary"
                (("Partition(s) successfully carved:" ++ newline
                  ++ "  - Linux (0x83)_fs0 " ++ newline)
                 ++ ("Partition(s) unsuccessfully carved:" ++ newline
                     ++ "  - NTFS / exFAT (0x07)_fs1 " ++ newline))])%list,
       Some tt)
    /\ ~ In EnableButtons evs.
Proof.
  apply (summary_dialog Sample.working_env [2; 3] Cases.carved_registry []).
  intros i [<-|[<-|[]]]; eexists; (split; [vm_compute; reflexivity|]);
    discriminate.
Defined.

(** ** The table of a tree *)

Section TableOfTree.

Import Display TreeShape.
Local Open Scope list_scope.

Lemma hash_calls_app a b : hash_calls (a ++ b) = hash_calls a ++ hash_calls b.
Proof. apply flat_map_app. Qed.

Lemma rows_app a b : rows (a ++ b) = rows a ++ rows b.
Proof. apply flat_map_app. Qed.

Lemma getMd5_calls env f m w :
  exists evs,
    getMd5 env f m w
    = (mkWorld (listOfPartitions w) (events w ++ evs), Some (digest env m f))
    /\ hash_calls evs = [[m; f]] /\ rows evs = [].
Proof.
  unfold getMd5, digest, bind, emit. cbn [listOfPartitions events].
  destruct (tools env [m; f]) as [so se]. cbn [fst].
  destruct (Py.truthy so); unfold ret; cbn [listOfPartitions events].
  - eexists. split; [reflexivity|]. split; reflexivity.
  - eexists. rewrite <- app_assoc. split; [reflexivity|].
    split; reflexivity.
Qed.

(** The loop over the files of a directory. *)
Lemma files_rows env md5path : forall files w,
  exists evs,
    for_each files
      (fun i => h <- getMd5 env i md5path ;; emit (TreeInsert (basename i) [h]))
      w
    = (mkWorld (listOfPartitions w) (events w ++ evs), Some tt)
    /\ hash_calls evs = map (fun f => [md5path; f]) files
    /\ rows evs
       = map (fun f => (basename f, [digest env md5path f])) files.
Proof.
  induction files as [|f files IH]; intros w.
  - exists []. cbn [for_each map]. unfold ret. rewrite app_nil_r.
    destruct w. split; [reflexivity|]. split; reflexivity.
  - cbn [for_each]. unfold bind at 1. unfold bind at 1.
    destruct (getMd5_calls env f md5path w) as [evs1 [Hmd5 [Hc1 Hr1]]].
    rewrite Hmd5. unfold emit at 1. cbn [listOfPartitions events].
    match goal with
    | |- context [for_each files _ ?w1] =>
        destruct (IH w1) as [evs2 [Hrest [Hc2 Hr2]]]
    end.
    rewrite Hrest. cbn [listOfPartitions events].
    exists ((evs1 ++ [TreeInsert (basename f) [digest env md5path f]])
            ++ evs2).
    split; [rewrite !app_assoc; reflexivity|].
    rewrite !hash_calls_app, !rows_app, Hc1, Hr1, Hc2, Hr2.
    split; reflexivity.
Qed.

(** The rows below a directory: those of its files, then those of the
    directories attached to it. *)
Lemma addItems_rows env md5path : forall n owner w,
  exists evs,
    addItems env n md5path w
    = (mkWorld (listOfPartitions w) (events w ++ evs), Some tt)
    /\ hash_calls evs
       = map (fun f => [md5path; f]) (flat_map snd (node_entries owner n))
    /\ (basename owner, []) :: rows evs
       = flat_map (rows_of env md5path) (node_entries owner n).
Proof.
  fix IH 1. intros [files subs] owner w. cbn [addItems].
  rewrite node_entries_unfold. cbn [flat_map snd fst rows_of].
  unfold bind at 1.
  destruct (files_rows env md5path files w) as [evs1 [Hfiles [Hc1 Hr1]]].
  rewrite Hfiles. clear Hfiles.
  cbn [tree_entries].
  assert (Hsubs : forall w1,
    exists evs2,
      (fix items (l : list (string * Node)) : M unit :=
         match l with
         | [] => ret tt
         | (item, n) :: r =>
             emit (TreeInsert (basename item) []) ;;
             addItems env n md5path ;; items r
         end) subs w1
      = (mkWorld (listOfPartitions w1) (events w1 ++ evs2), Some tt)
      /\ hash_calls evs2
         = map (fun f => [md5path; f]) (flat_map snd (tree_entries subs))
      /\ rows evs2 = flat_map (rows_of env md5path) (tree_entries subs)).
  { induction subs as [|[item n] r IHr]; intros w1.
    - exists []. unfold ret. rewrite app_nil_r. destruct w1.
      split; [reflexivity|]. split; reflexivity.
    - unfold bind at 1. unfold emit at 1. unfold bind at 1.
      match goal with
      | |- context [addItems env n md5path ?w2] =>
          destruct (IH n item w2) as [evs3 [Hn [Hc3 Hr3]]]
      end.
      rewrite Hn. cbn [listOfPartitions events].
      match goal with
      | |- context [_ r ?w3] =>
          destruct (IHr w3) as [evs4 [Hr [Hc4 Hr4]]]
      end.
      rewrite Hr. cbn [listOfPartitions events].
      exists (([TreeInsert (basename item) []] ++ evs3) ++ evs4).
      split; [rewrite !app_assoc; reflexivity|].
      cbn [tree_entries]. rewrite !flat_map_app, map_app.
      rewrite !hash_calls_app, !rows_app, Hc3, Hc4, Hr4, <- Hr3.
      split; reflexivity. }
  destruct (Hsubs (mkWorld (listOfPartitions w) (events w ++ evs1)))
    as [evs2 [Hitems [Hc2 Hr2]]].
  rewrite Hitems. cbn [listOfPartitions events].
  exists (evs1 ++ evs2). split; [rewrite app_assoc; reflexivity|].
  rewrite hash_calls_app, rows_app, Hc1, Hr1, Hc2, Hr2, map_app.
  split; reflexivity.
Qed.

End TableOfTree.

(** X24.  With the hash tool taken as starting and printing text that
    can be decoded, filling the table from a tree returns and leaves the
    registry as it is.  It starts the hash tool exactly once for every
    file of the tree and for nothing else, in the order of the tree; and
    it inserts exactly one row for every directory of the tree, followed
    by one row for each of its files holding the digest of that file:
    files of nested directories are hashed like the others. *)
Theorem show_tree_rows env dir w :
  exists evs,
    show_tree env dir w
    = (mkWorld (listOfPartitions w) (events w ++ evs)%list, Some tt)
    /\ Display.hash_calls evs
       = map (fun f => [md5Path env; f])
           (flat_map snd (TreeShape.tree_entries dir))
    /\ Display.rows evs
       = flat_map (Display.rows_of env (md5Path env))
           (TreeShape.tree_entries dir).
Proof.
  unfold show_tree. revert w.
  induction dir as [|[key n] r IH]; intros w.
  - exists []. cbn [for_each]. unfold ret. rewrite app_nil_r. destruct w.
    split; [reflexivity|]. split; reflexivity.
  - cbn [for_each]. unfold bind at 1. unfold bind at 1.
    unfold emit at 1.
    match goal with
    | |- context [addItems env n (md5Path env) ?w1] =>
        destruct (addItems_rows env (md5Path env) n key w1)
          as [evs1 [Hn [Hc1 Hr1]]]
    end.
    rewrite Hn. cbn [listOfPartitions events].
    match goal with
    | |- context [for_each r _ ?w2] =>
        destruct (IH w2) as [evs2 [Hrest [Hc2 Hr2]]]
    end.
    rewrite Hrest. cbn [listOfPartitions events].
    exists (([TreeInsert (basename key) []] ++ evs1) ++ evs2)%list.
    split; [rewrite !app_assoc; reflexivity|].
    cbn [TreeShape.tree_entries]. rewrite !flat_map_app, map_app.
    rewrite !hash_calls_app, !rows_app, Hc1, Hc2, Hr2, <- Hr1.
    split; reflexivity.
Qed.
